(** * A shallow embedding of the trading script [src/index.js]

    The script is a sequence of awaited calls to external services with a
    little arithmetic in between.  JavaScript numbers are IEEE-754 binary64
    values, so they are modelled by Rocq's primitive floats; every call to
    the outside world is answered by an oracle and recorded in a trace;
    [try]/[catch], [return] and [process.exit] become outcomes of a small
    state-and-error monad. *)

From Stdlib Require Import ZArith Floats Bool List Sorted String DecimalString Lia.
Import ListNotations.

Set Warnings "-inexact-float".

#[local] Open Scope string_scope.
#[local] Open Scope Z_scope.
#[local] Open Scope list_scope.

(** ** JavaScript numbers and the values a price field can hold *)

Module Js.

(** The integer [z] as a double, rounded to nearest-even when it has more
    than 53 significant bits and to infinity when it is out of range. *)
Definition of_Z (z : Z) : float := SF2Prim (binary_normalize 53 1024 z 0 false).

(** [Math.floor]: NaN, the infinities and the zeros are returned as they
    are, and so is every double whose exponent is non-negative (it is an
    integer already); otherwise the mantissa is shifted right, which on Z
    rounds towards minus infinity. *)
Definition Math_floor (x : float) : float :=
  match Prim2SF x with
  | S754_finite s m e =>
      if 0 <=? e then x
      else of_Z (Z.shiftl (if s then Z.neg m else Z.pos m) e)
  | _ => x
  end.

(** [Math.pow(10, d)] for the decimals of a token account: the power of
    ten as a double.  It is the exact power, and what every engine
    returns, for [d <= 22]; beyond, the language leaves the last bit to the
    engine, and nothing is proved here about the amount of a sell. *)
Definition Math_pow10 (d : N) : float := of_Z (10 ^ Z.of_N d).

(** A value read from a JSON payload where a number is expected:
    the field is absent ([undefined]), [null], a boolean or a number. *)
Inductive value : Type :=
| undefined
| null
| boolean (b : bool)
| number (x : float).

(** ToBoolean *)
Definition truthy (v : value) : bool :=
  match v with
  | undefined | null => false
  | boolean b => b
  | number x => negb (PrimFloat.eqb x 0 || PrimFloat.is_nan x)
  end.

(** ToNumber *)
Definition ToNumber (v : value) : float :=
  match v with
  | undefined => nan
  | null => 0%float
  | boolean b => if b then 1%float else 0%float
  | number x => x
  end.

(** [v === null] *)
Definition is_null (v : value) : bool :=
  match v with null => true | _ => false end.

(** [a >= b] on numbers: false as soon as one side is NaN. *)
Definition ge (a b : float) : bool := PrimFloat.leb b a.

(** [a < b] on numbers. *)
Definition lt (a b : float) : bool := PrimFloat.ltb a b.

(** A thrown value; everything the script throws or that its libraries
    reject with is an [Error] carrying a message. *)
Record Error : Type := mkError { message : string }.

(** Truthiness of a string. *)
Definition nonempty (s : string) : bool :=
  match s with EmptyString => false | _ => true end.

End Js.

(** ** Constants of the script *)

(** [LAMPORTS_PER_SOL] is exported by the web3 library: one SOL is 10^9
    lamports. *)
Definition LAMPORTS_PER_SOL : float := 1000000000%float.

Definition solAddress : string := "So11111111111111111111111111111111111111112".
Definition SOLANA_GAS_FEE_PRICE : float := (0.000005 * LAMPORTS_PER_SOL)%float.
Definition JITO_TIP_AMOUNT : float := (0.00001 * LAMPORTS_PER_SOL)%float.

Definition requiredEnvVars : list string := ["PRIVATE_KEY"; "API_KEY"].

Inductive LOG_LEVELS : Type := INFO | WARN | ERROR.

(** ** What the script passes to [logTransaction] *)

(** One constructor per call site; the interpolated values are kept as they
    are instead of being printed into the message string. *)
Inductive LogMessage : Type :=
| MissingEnvironmentVariables (missingVars : list string)
| ErrorFetchingTokenInfo (error : Js.Error)
| PriceAvailable (tokenAddress : string) (price : Js.value) (source : string)
| PriceNotAvailableYet (tokenAddress : string)
| StartingTransaction (isBuy : bool) (tokenAddress : string)
| AmountLessThanFees
| SendingBundle
| BundleSentSuccessfully (bundleUuid : string)
| WaitingConfirmation (isBuy : bool)
| InitialPriceCaptured (initialPrice : Js.value)
| AttemptFailed (retries : Z) (errorMessage : string)
| MaxRetriesReached (error : Js.Error)
| FailedToRetrieveInitialPrice
| PriceTargetMet (currentPrice : Js.value) (initialPrice : Js.value)
| MonitoringPrice (currentPrice : Js.value) (threshold : float)
| MainCaught (errorMessage : string).

(** ** Events: everything the script does to the outside world *)

Inductive Event : Type :=
| Log (level : LOG_LEVELS) (msg : LogMessage)
| AxiosGet (url : string)
| GetParsedAccountInfo (mint : string)
| GetBalance
| GetAssociatedTokenAddress (tokenAddress : string)
| GetTokenAccountBalance (tokenAccount : string)
| FetchQuote (inputMint outputMint : string) (amount slippageBps : float)
| FetchSwap (quoteResponse : string)
| GetTipAccounts
| GetLatestBlockhash
| SendBundle (bundle : list string)
| SetTimeout (ms : Z).

Definition Trace : Type := list Event.

Definition isAxiosGet (e : Event) : bool :=
  match e with AxiosGet _ => true | _ => false end.
Definition isGetParsedAccountInfo (e : Event) : bool :=
  match e with GetParsedAccountInfo _ => true | _ => false end.
Definition isGetBalance (e : Event) : bool :=
  match e with GetBalance => true | _ => false end.
Definition isGetAssociatedTokenAddress (e : Event) : bool :=
  match e with GetAssociatedTokenAddress _ => true | _ => false end.
Definition isGetTokenAccountBalance (e : Event) : bool :=
  match e with GetTokenAccountBalance _ => true | _ => false end.
Definition isFetchQuote (e : Event) : bool :=
  match e with FetchQuote _ _ _ _ => true | _ => false end.
Definition isFetchSwap (e : Event) : bool :=
  match e with FetchSwap _ => true | _ => false end.
Definition isGetTipAccounts (e : Event) : bool :=
  match e with GetTipAccounts => true | _ => false end.
Definition isGetLatestBlockhash (e : Event) : bool :=
  match e with GetLatestBlockhash => true | _ => false end.
Definition isSendBundle (e : Event) : bool :=
  match e with SendBundle _ => true | _ => false end.

(** A network call is every event that is neither a log line nor a timer. *)
Definition isNetworkCall (e : Event) : bool :=
  match e with Log _ _ | SetTimeout _ => false | _ => true end.

(** How many calls of one kind a trace holds. *)
Definition calls (kind : Event -> bool) (tr : Trace) : nat :=
  List.length (filter kind tr).

(** ** The outside world *)

(** What an awaited promise settles to. *)
Inductive Reply (A : Type) : Type :=
| Fulfilled (a : A)
| Rejected (e : Js.Error).
Arguments Fulfilled {A} a.
Arguments Rejected {A} e.

(** The entry [response.data.data[mint]] of the price service, when it is
    truthy; [entry_price] is [undefined] when the entry has no [price]. *)
Record JupiterEntry : Type := { entry_price : Js.value }.

(** [response.data] of the price request: [None] when it is falsy,
    [Some None] when [response.data.data] is falsy, else the object keyed
    by mint; a key bound to [None] holds a falsy value. *)
Definition JupiterBody : Type := option (option (list (string * option JupiterEntry))).

(** [mintAccountInfo.value.data.parsed.info.freezeAuthority]. *)
Inductive FreezeAuthority : Type :=
| NoFreezeAuthority                 (* null *)
| FreezeAuthorityMissing            (* the field is absent: undefined *)
| FreezeAuthorityKey (key : string).

(** [tokenBalance.value]: [uiAmount] is a number or null, [decimals] a u8. *)
Record TokenAmount : Type := { uiAmount : Js.value; decimals : N }.

(** A response of [fetch]; [json] is what [response.json()] settles to. *)
Record Response (Body : Type) : Type :=
  { ok : bool; status : N; statusText : string; json : Reply Body }.
Arguments ok {Body} r.
Arguments status {Body} r.
Arguments statusText {Body} r.
Arguments json {Body} r.

(** The oracles.  A network oracle is indexed by how many calls of its kind
    came before; a library operation that does no input or output is a
    function of its argument.  A rejected call also stands for an answer
    that the script cannot read (a null where it destructures an object). *)
Record Env : Type := {
  axios_get : nat -> Reply JupiterBody;
  (* [None]: the path value.data.parsed.info cannot be read *)
  getParsedAccountInfo : nat -> Reply (option FreezeAuthority);
  getBalance : nat -> Reply float;
  getAssociatedTokenAddress : nat -> Reply string;
  getTokenAccountBalance : nat -> Reply TokenAmount;
  fetch_quote : nat -> Reply (Response string);
  (* the body of the swap answer: its swapTransaction field, if any *)
  fetch_swap : nat -> Reply (Response (option string));
  getTipAccounts : nat -> Reply (list string);
  (* the blockhash field of the answer, if any *)
  getLatestBlockhash : nat -> Reply (option string);
  sendBundle : nat -> Reply string;
  (* new PublicKey(s) accepts s *)
  isPublicKey : string -> bool;
  (* Buffer.from, VersionedTransaction.deserialize and transaction.sign,
     lines 179-181, on the base64 text of the swap transaction *)
  deserializeAndSign : string -> Reply string;
  (* bundle.addTransactions on the empty bundle of capacity 5:
     the new bundle, or the Error it returns *)
  addTransactions : string -> list string + Js.Error;
  (* maybeBundle.addTipTx(wallet, tip, tipAccount, blockhash) *)
  addTipTx : list string -> float -> string -> option string -> list string + Js.Error;
  (* bs58.decode and Keypair.fromSecretKey accept the private key *)
  isSecretKey : string -> bool;
  (* process.env once dotenv.config() has run *)
  process_env : string -> option string
}.

(** ** The monad: a trace is threaded, and a computation ends in one of four
    ways *)

Inductive Outcome (A : Type) : Type :=
| Returned (a : A)             (* normal completion *)
| Threw (e : Js.Error)         (* an exception or a rejected promise *)
| Exited (code : Z)            (* process.exit(code) *)
| Running.                     (* a loop that has not finished within the fuel *)
Arguments Returned {A} a.
Arguments Threw {A} e.
Arguments Exited {A} code.
Arguments Running {A}.

Definition M (A : Type) : Type := Trace -> Outcome A * Trace.

Definition ret {A} (a : A) : M A := fun tr => (Returned a, tr).

Definition bind {A B} (m : M A) (f : A -> M B) : M B :=
  fun tr =>
    match m tr with
    | (Returned a, tr') => f a tr'
    | (Threw e, tr') => (Threw e, tr')
    | (Exited c, tr') => (Exited c, tr')
    | (Running, tr') => (Running, tr')
    end.

Definition throw {A} (e : Js.Error) : M A := fun tr => (Threw e, tr).

Definition process_exit {A} (code : Z) : M A := fun tr => (Exited code, tr).

Definition running {A} : M A := fun tr => (Running, tr).

(** [try { m } catch (error) { handler error }] *)
Definition tryCatch {A} (m : M A) (handler : Js.Error -> M A) : M A :=
  fun tr =>
    match m tr with
    | (Threw e, tr') => handler e tr'
    | r => r
    end.

Definition emit (e : Event) : M unit := fun tr => (Returned tt, tr ++ [e]).

(** An awaited call: the event is recorded and the oracle answers. *)
Definition await {A} (kind : Event -> bool) (oracle : nat -> Reply A) (e : Event) : M A :=
  fun tr =>
    (match oracle (calls kind tr) with
     | Fulfilled a => Returned a
     | Rejected err => Threw err
     end, tr ++ [e]).

(** The settled value of a promise the script already holds. *)
Definition settle {A} (r : Reply A) : M A :=
  match r with Fulfilled a => ret a | Rejected e => throw e end.

Declare Scope js_scope.
Delimit Scope js_scope with js.
Notation "x <- m ;; k" := (bind m (fun x => k))
  (at level 100, m at next level, right associativity) : js_scope.
Notation "m ;;; k" := (bind m (fun _ => k))
  (at level 100, right associativity) : js_scope.
#[local] Open Scope js_scope.

(** [logTransaction]: [console.log] of the level and the message. *)
Definition logTransaction (level : LOG_LEVELS) (msg : LogMessage) : M unit :=
  emit (Log level msg).

(** [await new Promise(resolve => setTimeout(resolve, ms))] *)
Definition sleep (ms : Z) : M unit := emit (SetTimeout ms).

(** ** The script *)

(** [tokenInfo] as [getTokenInfo] returns it. *)
Record TokenInfo : Type :=
  { price : Js.value; source : string; isFreezable : bool }.

(** What [tradeTokenWithJupiter] returns. *)
Inductive TradeResult : Type :=
| TradeFalse                                 (* false *)
| TradeSuccess (initialPrice : Js.value)     (* { success: true, initialPrice } *)
| TradeUndefined.                            (* the end of the body is reached *)

(** [obj[key]] on an object held as an association list. *)
Fixpoint property {V : Type} (key : string) (obj : list (string * V)) : option V :=
  match obj with
  | [] => None
  | (k, v) :: rest => if String.eqb k key then Some v else property key rest
  end.

(** The guard of line 71, [response.data && response.data.data &&
    response.data.data[mint]]: the entry when all three are truthy. *)
Definition entryOf (mint : string) (body : JupiterBody) : option JupiterEntry :=
  match body with
  | Some (Some data) =>
      match property mint data with
      | Some (Some entry) => Some entry
      | _ => None
      end
  | _ => None
  end.

(** The delay before the next attempt, in milliseconds:
    [Math.pow(2, retries) * 1000].  The double the script computes, see
    [delayInDoubles], is this integer for [retries <= 1014] and is infinite
    from 1015 on: what is proved about the values of the delays is proved
    for [maxRetries <= 1015], where every delay of a run is this integer. *)
Definition backoff (retries : Z) : Z := 2 ^ retries * 1000.

(** The decimal digits of a status code, as a template literal prints it. *)
Definition decimal (n : N) : string := NilZero.string_of_uint (N.to_uint n).

Section Script.

Variable env : Env.

Definition jupiterApiUrl (mint : string) : string :=
  ("https://price.jup.ag/v6/price?ids=" ++ mint ++ "&vsToken=SOL")%string.

(** [new PublicKey(s)] *)
Definition newPublicKey (s : string) : M string :=
  if isPublicKey env s then ret s else throw (Js.mkError "Invalid public key input").

(** Lines 69-78. *)
Definition fetchFromJupiter (mint : string) : M (Js.value * string) :=
  response_data <- await isAxiosGet (axios_get env) (AxiosGet (jupiterApiUrl mint));;
  match entryOf mint response_data with
  | Some entry => ret (entry_price entry, "jupiter")
  | None => throw (Js.mkError "Jupiter API failed to return a valid price.")
  end.

(** Lines 63-115.  [Promise.race] over the single promise of
    [fetchFromJupiter] settles as that promise does. *)
Definition getTokenInfo (mint : string) : M (option TokenInfo) :=
  tryCatch
    (tokenInfo <- fetchFromJupiter mint;;
     key <- newPublicKey mint;;
     mintAccountInfo <- await isGetParsedAccountInfo (getParsedAccountInfo env)
                          (GetParsedAccountInfo key);;
     match mintAccountInfo with
     | None => throw (Js.mkError "Cannot read properties of null")
     | Some freezeAuthority =>
         ret (Some {| price := fst tokenInfo;
                      source := snd tokenInfo;
                      isFreezable := match freezeAuthority with
                                     | NoFreezeAuthority => false
                                     | _ => true
                                     end |})
     end)
    (fun error =>
       logTransaction ERROR (ErrorFetchingTokenInfo error);;;
       ret None).

(** Lines 118-128; [fuel] bounds the number of polls. *)
Fixpoint waitForPriceAvailability (fuel : nat) (tokenAddress : string) : M Js.value :=
  match fuel with
  | O => running
  | S fuel' =>
      tokenInfo <- getTokenInfo tokenAddress;;
      let again :=
        (logTransaction WARN (PriceNotAvailableYet tokenAddress);;;
         sleep 1500;;;
         waitForPriceAvailability fuel' tokenAddress) in
      match tokenInfo with
      | Some info =>
          if Js.truthy (price info) then
            logTransaction INFO (PriceAvailable tokenAddress (price info) (source info));;;
            ret (price info)
          else again
      | None => again
      end
  end.

Section Trade.

Variables (tokenAddress : string) (percentage : float) (isBuy : bool)
          (slippage : float) (maxRetries : Z).

(** The amount of a buy, line 142. *)
Definition buyAmount (balance : float) : float :=
  (Js.Math_floor (balance * (percentage / 100))
   - SOLANA_GAS_FEE_PRICE - JITO_TIP_AMOUNT)%float.

(** The amount of a sell, line 154. *)
Definition sellAmount (tokenBalance : TokenAmount) : float :=
  Js.Math_floor (Js.ToNumber (uiAmount tokenBalance) * (percentage / 100)
                 * Js.Math_pow10 (decimals tokenBalance))%float.

(** Lines 138-157: the early [return false], or the amount and the two
    mints. *)
Definition sizeTrade : M (TradeResult + float * string * string) :=
  if isBuy then
    balance <- await isGetBalance (getBalance env) GetBalance;;
    let amount := buyAmount balance in
    if Js.lt amount 0 then
      logTransaction ERROR AmountLessThanFees;;;
      ret (inl TradeFalse)
    else ret (inr (amount, solAddress, tokenAddress))
  else
    tokenPublicKey <- newPublicKey tokenAddress;;
    tokenAccount <- await isGetAssociatedTokenAddress (getAssociatedTokenAddress env)
                      (GetAssociatedTokenAddress tokenPublicKey);;
    tokenBalance <- await isGetTokenAccountBalance (getTokenAccountBalance env)
                      (GetTokenAccountBalance tokenAccount);;
    ret (inr (sellAmount tokenBalance, tokenAddress, solAddress)).

(** Lines 159-197: quote, swap transaction, bundle and tip. *)
Definition prepareBundle (amount : float) (inputMint outputMint : string)
  : M (list string) :=
  response <- await isFetchQuote (fetch_quote env)
                (FetchQuote inputMint outputMint amount (slippage * 100)%float);;
  (if ok response then ret tt
   else throw (Js.mkError ("HTTP quote error! status: " ++ statusText response)%string));;;
  routes <- settle (json response);;
  transaction_response <- await isFetchSwap (fetch_swap env) (FetchSwap routes);;
  (if ok transaction_response then ret tt
   else throw (Js.mkError ("HTTP error! status: "
                           ++ decimal (status transaction_response))%string));;;
  swapTransaction <- settle (json transaction_response);;
  transaction <- match swapTransaction with
                 | Some text => settle (deserializeAndSign env text)
                 | None => throw (Js.mkError "The first argument must be of type string")
                 end;;
  maybeBundle <- match addTransactions env transaction with
                 | inl bundle => ret bundle
                 | inr error => throw error
                 end;;
  tipAccounts <- await isGetTipAccounts (getTipAccounts env) GetTipAccounts;;
  tipAccount <- match tipAccounts with
                | first :: _ => newPublicKey first
                | [] => throw (Js.mkError "Invalid public key input")
                end;;
  blockhash <- await isGetLatestBlockhash (getLatestBlockhash env) GetLatestBlockhash;;
  maybeBundle <- match addTipTx env maybeBundle JITO_TIP_AMOUNT tipAccount blockhash with
                 | inl bundle => ret bundle
                 | inr error => throw error
                 end;;
  logTransaction INFO SendingBundle;;;
  ret maybeBundle.

(** Lines 159-198: the bundle is prepared and sent; the relay answers
    with the bundle's identifier. *)
Definition submit (amount : float) (inputMint outputMint : string) : M string :=
  maybeBundle <- prepareBundle amount inputMint outputMint;;
  await isSendBundle (sendBundle env) (SendBundle maybeBundle).

(** Lines 200-213. *)
Definition afterSubmit (bundleUuid : string) : M TradeResult :=
  if Js.nonempty bundleUuid then
    logTransaction INFO (BundleSentSuccessfully bundleUuid);;;
    logTransaction INFO (WaitingConfirmation isBuy);;;
    initialPrice <-
      (if isBuy then
         tokenInfo <- getTokenInfo tokenAddress;;
         let initialPrice := match tokenInfo with
                             | Some info => price info
                             | None => Js.null
                             end in
         logTransaction INFO (InitialPriceCaptured initialPrice);;;
         ret initialPrice
       else ret Js.null);;
    ret (TradeSuccess initialPrice)
  else throw (Js.mkError "Bundle UUID not received").

(** The body of the [try] block, lines 136-213. *)
Definition attempt : M TradeResult :=
  logTransaction INFO (StartingTransaction isBuy tokenAddress);;;
  sized <- sizeTrade;;
  match sized with
  | inl result => ret result
  | inr (amount, inputMint, outputMint) =>
      bundleUuid <- submit amount inputMint outputMint;;
      afterSubmit bundleUuid
  end.

(** The [while (retries < maxRetries)] loop, lines 134-226. *)
Fixpoint tradeLoop (fuel : nat) (retries : Z) : M TradeResult :=
  if retries <? maxRetries then
    match fuel with
    | O => running
    | S fuel' =>
        tryCatch attempt
          (fun error =>
             let retries := retries + 1 in
             logTransaction WARN (AttemptFailed retries (Js.message error));;;
             if retries >=? maxRetries then
               logTransaction ERROR (MaxRetriesReached error);;;
               ret TradeFalse
             else
               sleep (backoff retries);;;
               tradeLoop fuel' retries)
    end
  else ret TradeUndefined.

(** Lines 130-227.  The loop needs no more than [maxRetries] rounds,
    see [tradeLoop_total]. *)
Definition tradeTokenWithJupiter : M TradeResult :=
  tradeLoop (Z.to_nat maxRetries) 0.

End Trade.

Section Monitor.

Variables (tokenAddress : string) (initialPrice : Js.value).

Definition threshold : float := (Js.ToNumber initialPrice * 1.2)%float.

(** The [while (true)] loop of lines 238-247. *)
Fixpoint monitorLoop (fuel : nat) : M unit :=
  match fuel with
  | O => running
  | S fuel' =>
      currentPriceInfo <- getTokenInfo tokenAddress;;
      let again (shown : Js.value) :=
        (logTransaction INFO (MonitoringPrice shown threshold);;;
         sleep 2000;;;
         monitorLoop fuel') in
      match currentPriceInfo with
      | Some info =>
          if Js.ge (Js.ToNumber (price info)) threshold then
            logTransaction INFO (PriceTargetMet (price info) initialPrice);;;
            tradeTokenWithJupiter tokenAddress 100 false 5 3;;;
            ret tt
          else again (price info)
      | None => again Js.undefined
      end
  end.

(** Lines 230-248. *)
Definition monitorAndSell (fuel : nat) : M unit :=
  if Js.is_null initialPrice then
    logTransaction ERROR FailedToRetrieveInitialPrice
  else monitorLoop fuel.

End Monitor.

(** [!process.env[varName]] *)
Definition unset (varName : string) : bool :=
  match process_env env varName with
  | Some v => negb (Js.nonempty v)
  | None => true
  end.

(** Lines 46-52. *)
Definition checkEnvVariables : M unit :=
  let missingVars := filter unset requiredEnvVars in
  if (0 <? List.length missingVars)%nat then
    logTransaction ERROR (MissingEnvironmentVariables missingVars);;;
    process_exit 1
  else ret tt.

(** Lines 250-267. *)
Definition main (fuel : nat) : M unit :=
  tryCatch
    (checkEnvVariables;;;
     let tokenAddress := "" in
     waitForPriceAvailability fuel tokenAddress;;;
     sleep 30000;;;
     let percentageToBuy := 6%float in
     result <- tradeTokenWithJupiter tokenAddress percentageToBuy true 5 3;;
     match result with
     | TradeSuccess initialPrice => monitorAndSell tokenAddress initialPrice fuel
     | _ => ret tt
     end)
    (fun error => logTransaction ERROR (MainCaught (Js.message error))).

(** The module from its first line to the call of [main] on line 283:
    the guard on [PRIVATE_KEY] (lines 15-18), the wallet built from it
    (lines 33-34), then [main].  An exception that leaves this function
    is uncaught: no handler is registered before line 286. *)
Definition moduleBody (fuel : nat) : M unit :=
  if unset "PRIVATE_KEY" then
    throw (Js.mkError "PRIVATE_KEY environment variable is not set.")
  else
    match process_env env "PRIVATE_KEY" with
    | Some privateKey =>
        if isSecretKey env privateKey then main fuel
        else throw (Js.mkError "bad secret key")
    | None => throw (Js.mkError "PRIVATE_KEY environment variable is not set.")
    end.

End Script.

(** * The words of the properties *)

(** ** Computations and the events they append *)

(** A computation [settles] when it returns or throws, and in either case
    only appends events, all of them in [P]; a returned value is in [Q]. *)
Definition settles {A} (P : Event -> Prop) (Q : A -> Prop) (m : M A) : Prop :=
  forall tr, exists d,
    snd (m tr) = tr ++ d /\ Forall P d /\
    match fst (m tr) with
    | Returned a => Q a
    | Threw _ => True
    | _ => False
    end.

(** It [returns] when moreover it cannot throw. *)
Definition returns {A} (P : Event -> Prop) (Q : A -> Prop) (m : M A) : Prop :=
  forall tr, exists d,
    snd (m tr) = tr ++ d /\ Forall P d /\
    match fst (m tr) with
    | Returned a => Q a
    | _ => False
    end.

(** A computation [extends] the trace: whatever happens, it only appends. *)
Definition extends {A} (m : M A) : Prop :=
  forall tr, exists d, snd (m tr) = tr ++ d.

(** The events [getTokenInfo] can append. *)
Definition isPriceQuery (e : Event) : bool :=
  match e with
  | AxiosGet _ | GetParsedAccountInfo _ | Log ERROR (ErrorFetchingTokenInfo _) => true
  | _ => false
  end.

(** [getTokenInfo] gave up after the events [d], on [error]. *)
Definition gaveUp (env : Env) (mint : string) (tr : Trace)
           (d : Trace) (error : Js.Error) : Prop :=
  getTokenInfo env mint tr
  = (Returned None, tr ++ d ++ [Log ERROR (ErrorFetchingTokenInfo error)]).

(** The events between the first log line of an attempt and the sending of
    the bundle. *)
Definition isPreparation (e : Event) : bool :=
  match e with
  | GetBalance | GetAssociatedTokenAddress _ | GetTokenAccountBalance _
  | FetchQuote _ _ _ _ | FetchSwap _ | GetTipAccounts | GetLatestBlockhash
  | Log INFO SendingBundle | Log ERROR AmountLessThanFees => true
  | _ => false
  end.

Definition Preparation (d : Trace) : Prop := Forall (fun e => isPreparation e = true) d.

(** The events of an attempt are silent in the retry view, but for its
    first log line. *)
Definition isAttemptEvent (e : Event) : bool :=
  match e with
  | Log INFO (BundleSentSuccessfully _) | Log INFO (WaitingConfirmation _)
  | Log INFO (InitialPriceCaptured _) | SendBundle _ => true
  | _ => isPreparation e || isPriceQuery e
  end.

(** What only the trade executor does. *)
Definition isTradeCall (e : Event) : bool :=
  match e with
  | Log _ (StartingTransaction _ _)
  | GetBalance | GetAssociatedTokenAddress _ | GetTokenAccountBalance _
  | FetchQuote _ _ _ _ | FetchSwap _ | GetTipAccounts | GetLatestBlockhash
  | SendBundle _ => true
  | _ => false
  end.

(** ** One attempt of [tradeTokenWithJupiter] *)

Section AttemptWords.

Variables (env : Env) (tokenAddress : string) (isBuy : bool).

(** The first log line of an attempt. *)
Definition started : Event := Log INFO (StartingTransaction isBuy tokenAddress).

(** What follows an accepted bundle, lines 201-210: the two log lines,
    and for a buy the price query and its log line. *)
Definition accepted (bundleUuid : string) : Trace :=
  [Log INFO (BundleSentSuccessfully bundleUuid); Log INFO (WaitingConfirmation isBuy)].

(** The [initialPrice] of line 206 when the price is queried in [tr]; a
    sell leaves it null. *)
Definition capturedPrice (tr : Trace) : Js.value :=
  if isBuy then
    match fst (getTokenInfo env tokenAddress tr) with
    | Returned (Some info) => price info
    | _ => Js.null
    end
  else Js.null.

(** The trace once that price is queried and logged. *)
Definition afterCapture (tr : Trace) : Trace :=
  if isBuy then
    snd (getTokenInfo env tokenAddress tr)
    ++ [Log INFO (InitialPriceCaptured (capturedPrice tr))]
  else tr.

(** The ways an attempt that starts in [tr] can end: before the bundle is
    sent (an exception, or the early [return false]); with the relay
    rejecting the bundle; with the relay answering without an identifier;
    with an identifier. *)
Inductive Attempted (tr : Trace) : Outcome TradeResult -> Trace -> Prop :=
| attempt_threw error d :
    Preparation d ->
    Attempted tr (Threw error) (tr ++ started :: d)
| attempt_aborted d :
    Preparation d ->
    Attempted tr (Returned TradeFalse) (tr ++ started :: d)
| attempt_rejected d bundle error :
    Preparation d ->
    sendBundle env (calls isSendBundle tr) = Rejected error ->
    Attempted tr (Threw error) (tr ++ started :: d ++ [SendBundle bundle])
| attempt_unanswered d bundle bundleUuid :
    Preparation d ->
    sendBundle env (calls isSendBundle tr) = Fulfilled bundleUuid ->
    Js.nonempty bundleUuid = false ->
    Attempted tr (Threw (Js.mkError "Bundle UUID not received"))
              (tr ++ started :: d ++ [SendBundle bundle])
| attempt_succeeded d bundle bundleUuid :
    Preparation d ->
    sendBundle env (calls isSendBundle tr) = Fulfilled bundleUuid ->
    Js.nonempty bundleUuid = true ->
    let tr1 := tr ++ started :: d ++ SendBundle bundle :: accepted bundleUuid in
    Attempted tr (Returned (TradeSuccess (capturedPrice tr1))) (afterCapture tr1).

End AttemptWords.

(** ** The retry loop *)

(** The retry loop seen through the three events that make its rhythm. *)
Inductive RetryEvent : Type :=
| Started                 (* an attempt begins *)
| Failed (n : Z)          (* the n-th failure is logged *)
| Waited (ms : Z).        (* a timer is set *)

Definition retryView (e : Event) : list RetryEvent :=
  match e with
  | Log _ (StartingTransaction _ _) => [Started]
  | Log _ (AttemptFailed n _) => [Failed n]
  | SetTimeout ms => [Waited ms]
  | _ => []
  end.

Definition retryTrace (tr : Trace) : list RetryEvent := flat_map retryView tr.

Definition attempts (v : list RetryEvent) : nat :=
  List.length (filter (fun x => match x with Started => true | _ => false end) v).

Definition failures (v : list RetryEvent) : nat :=
  List.length (filter (fun x => match x with Failed _ => true | _ => false end) v).

Definition delays (v : list RetryEvent) : list Z :=
  flat_map (fun x => match x with Waited ms => [ms] | _ => [] end) v.

Fixpoint seqZ (first : Z) (count : nat) : list Z :=
  match count with
  | O => []
  | S count' => first :: seqZ (first + 1) count'
  end.

(** [count] failed attempts in a row, numbered from [first], the failure
    numbered [k] followed by a delay of [2^k * 1000] milliseconds. *)
Fixpoint rounds (first : Z) (count : nat) : list RetryEvent :=
  match count with
  | O => []
  | S count' =>
      Started :: Failed first :: Waited (2 ^ first * 1000) :: rounds (first + 1) count'
  end.

Section LoopWords.

Variables (env : Env) (tokenAddress : string) (isBuy : bool) (maxRetries : Z).

(** The log line of a failed attempt, line 216. *)
Definition failureLogged (retries : Z) (error : Js.Error) : Event :=
  Log WARN (AttemptFailed (retries + 1) (Js.message error)).

(** The runs of the loop, entered with [retries] failures behind it. *)
Inductive Ran : Z -> Trace -> TradeResult -> Trace -> Prop :=
| ran_skipped retries tr :
    maxRetries <= retries ->
    Ran retries tr TradeUndefined tr
| ran_returned retries tr result tr' :
    retries < maxRetries ->
    Attempted env tokenAddress isBuy tr (Returned result) tr' ->
    Ran retries tr result tr'
| ran_exhausted retries tr error tr' :
    retries < maxRetries -> maxRetries <= retries + 1 ->
    Attempted env tokenAddress isBuy tr (Threw error) tr' ->
    Ran retries tr TradeFalse
        (tr' ++ [failureLogged retries error; Log ERROR (MaxRetriesReached error)])
| ran_retried retries tr error tr' result tr'' :
    retries + 1 < maxRetries ->
    Attempted env tokenAddress isBuy tr (Threw error) tr' ->
    Ran (retries + 1)
        (tr' ++ [failureLogged retries error; SetTimeout (backoff (retries + 1))])
        result tr'' ->
    Ran retries tr result tr''.

End LoopWords.

(** ** The size of a trade, in exact arithmetic *)

(** The amount of a buy as the specification words it, in exact
    arithmetic: [floor(balance * p / 100) - gasFee - tipAmount]. *)
Definition exactBuyAmount (balance p gasFee tipAmount : Z) : Z :=
  balance * p / 100 - gasFee - tipAmount.

(** The amount of a sell as the specification words it, in exact
    arithmetic, for a whole [uiAmount]:
    [floor(uiAmount * p / 100 * 10^decimals)]. *)
Definition exactSellAmount (uiAmount p : Z) (decimals : N) : Z :=
  uiAmount * p * 10 ^ Z.of_N decimals / 100.

(** The integer a double stands for, when it stands for one. *)
Definition integerOf (x : float) : option Z :=
  match Prim2SF x with
  | S754_zero _ => Some 0
  | S754_finite s m e =>
      let v := if s then Z.neg m else Z.pos m in
      if 0 <=? e then Some (v * 2 ^ e)
      else if v mod 2 ^ (- e) =? 0 then Some (v / 2 ^ (- e)) else None
  | _ => None
  end.

(** Line 224 as the script computes it, on doubles:
    [Math.pow(2, retries) * 1000]. *)
Definition delayInDoubles (retries : Z) : float := (Js.of_Z (2 ^ retries) * 1000)%float.

(** ** The two polling loops *)

Section MonitorWords.

Variables (env : Env) (tokenAddress : string) (initialPrice : Js.value).

(** What a poll of the monitor sees in the state [tr]. *)
Definition seen (tr : Trace) : option TokenInfo :=
  match fst (getTokenInfo env tokenAddress tr) with
  | Returned info => info
  | _ => None
  end.

(** The test of line 240 on what is seen. *)
Definition targetMet (tr : Trace) : bool :=
  match seen tr with
  | Some info => Js.ge (Js.ToNumber (price info)) (threshold initialPrice)
  | None => false
  end.

(** The state after a poll that did not meet the target. *)
Definition afterPoll (tr : Trace) : Trace :=
  snd (getTokenInfo env tokenAddress tr)
  ++ [Log INFO (MonitoringPrice (match seen tr with
                                 | Some info => price info
                                 | None => Js.undefined
                                 end) (threshold initialPrice));
      SetTimeout 2000].

(** The state after [k] such polls. *)
Fixpoint polled (k : nat) (tr : Trace) : Trace :=
  match k with
  | O => tr
  | S k' => polled k' (afterPoll tr)
  end.

(** The state in which the sell is called, when the poll in [tr] met the
    target. *)
Definition sellPoint (tr : Trace) : Trace :=
  snd (getTokenInfo env tokenAddress tr)
  ++ [Log INFO (PriceTargetMet (match seen tr with
                                | Some info => price info
                                | None => Js.undefined
                                end) initialPrice)].

Definition sellAll (tr : Trace) : Outcome TradeResult * Trace :=
  tradeTokenWithJupiter env tokenAddress 100 false 5 3 tr.

End MonitorWords.

Section WaitWords.

Variables (env : Env) (tokenAddress : string).

(** The test of line 121 on what a poll sees in the state [tr]. *)
Definition available (tr : Trace) : bool :=
  match seen env tokenAddress tr with
  | Some info => Js.truthy (price info)
  | None => false
  end.

(** The state after a poll that found no price. *)
Definition afterWait (tr : Trace) : Trace :=
  snd (getTokenInfo env tokenAddress tr)
  ++ [Log WARN (PriceNotAvailableYet tokenAddress); SetTimeout 1500].

(** The state after [k] such polls. *)
Fixpoint waited (k : nat) (tr : Trace) : Trace :=
  match k with
  | O => tr
  | S k' => waited k' (afterWait tr)
  end.

End WaitWords.

(** ** Sample worlds, for the concrete runs below *)

Module Sample.

(** A price answer with one entry. *)
Definition quoted (mint : string) (entry : JupiterEntry) : JupiterBody :=
  Some (Some [(mint, Some entry)]).

Definition priced (mint : string) (x : float) : Reply JupiterBody :=
  Fulfilled (quoted mint {| entry_price := Js.number x |}).

Definition accepted {Body} (body : Body) : Reply (Response Body) :=
  Fulfilled {| ok := true; status := 200; statusText := "OK"; json := Fulfilled body |}.

(** A world in which every service answers well; the price answers, the
    relay's answers, the balances and the environment variables are left
    open. *)
Definition world (prices : nat -> Reply JupiterBody) (relay : nat -> Reply string)
           (lamports : float) (tokens : TokenAmount)
           (vars : string -> option string) : Env :=
  {| axios_get := prices;
     getParsedAccountInfo := fun _ => Fulfilled (Some NoFreezeAuthority);
     getBalance := fun _ => Fulfilled lamports;
     getAssociatedTokenAddress := fun _ => Fulfilled "ATA";
     getTokenAccountBalance := fun _ => Fulfilled tokens;
     fetch_quote := fun _ => accepted "routes";
     fetch_swap := fun _ => accepted (Some "swap");
     getTipAccounts := fun _ => Fulfilled ["TIP"];
     getLatestBlockhash := fun _ => Fulfilled (Some "hash");
     sendBundle := relay;
     isPublicKey := fun _ => true;
     deserializeAndSign := fun text => Fulfilled text;
     addTransactions := fun t => inl [t];
     addTipTx := fun bundle _ tipAccount _ => inl (bundle ++ [tipAccount]);
     isSecretKey := fun _ => true;
     process_env := vars |}.

Definition bothKeys (varName : string) : option string :=
  if String.eqb varName "PRIVATE_KEY" then Some "secret"
  else if String.eqb varName "API_KEY" then Some "api" else None.

Definition onlyPrivateKey (varName : string) : option string :=
  if String.eqb varName "PRIVATE_KEY" then Some "secret" else None.

Definition onlyApiKey (varName : string) : option string :=
  if String.eqb varName "API_KEY" then Some "api" else None.

Definition someTokens : TokenAmount := {| uiAmount := Js.number 12.5; decimals := 6 |}.

(** The price service is down. *)
Definition offline : Env :=
  world (fun _ => Rejected (Js.mkError "connect ECONNREFUSED"))
        (fun _ => Fulfilled "uuid") 1000000000 someTokens bothKeys.

(** The entry of the mint is there, its [price] is not. *)
Definition unpriced : Env :=
  world (fun _ => Fulfilled (quoted "MINT" {| entry_price := Js.undefined |}))
        (fun _ => Fulfilled "uuid") 1000000000 someTokens bothKeys.

(** The price is 0 on every poll. *)
Definition worthless : Env :=
  world (fun _ => priced "MINT" 0) (fun _ => Fulfilled "uuid")
        1000000000 someTokens bothKeys.

(** Two polls fail, the third gives 1.5. *)
Definition late : Env :=
  world (fun k => if (k <? 2)%nat then Rejected (Js.mkError "timeout")
                  else priced "MINT" 1.5)
        (fun _ => Fulfilled "uuid") 1000000000 someTokens bothKeys.

(** The price is 1 on the first poll and 1.25 from then on. *)
Definition rising : Env :=
  world (fun k => if (k <? 1)%nat then priced "MINT" 1 else priced "MINT" 1.25)
        (fun _ => Fulfilled "uuid") 1000000000 someTokens bothKeys.

(** The relay rejects every bundle. *)
Definition jammed : Env :=
  world (fun _ => priced "MINT" 1) (fun _ => Rejected (Js.mkError "bundle dropped"))
        1000000000 someTokens bothKeys.

(** The relay rejects the first bundle and accepts the second. *)
Definition secondTry : Env :=
  world (fun _ => priced "MINT" 1)
        (fun k => if (k <? 1)%nat then Rejected (Js.mkError "bundle dropped")
                  else Fulfilled "uuid")
        1000000000 someTokens bothKeys.

End Sample.

(** ** More words: the runs of the loop by their attempts, the bundle that is
    sent, sums of delays *)

Section LoopRuns.

Variables (env : Env) (tokenAddress : string) (percentage : float)
          (isBuy : bool) (slippage : float) (maxRetries : Z).

(** The runs of the loop once more, each attempt being given by the run of
    [attempt] itself. *)
Inductive Looped : Z -> Trace -> TradeResult -> Trace -> Prop :=
| looped_skipped retries tr :
    maxRetries <= retries ->
    Looped retries tr TradeUndefined tr
| looped_returned retries tr result tr' :
    retries < maxRetries ->
    attempt env tokenAddress percentage isBuy slippage tr = (Returned result, tr') ->
    Looped retries tr result tr'
| looped_exhausted retries tr error tr' :
    retries < maxRetries -> maxRetries <= retries + 1 ->
    attempt env tokenAddress percentage isBuy slippage tr = (Threw error, tr') ->
    Looped retries tr TradeFalse
           (tr' ++ [failureLogged retries error; Log ERROR (MaxRetriesReached error)])
| looped_retried retries tr error tr' result tr'' :
    retries + 1 < maxRetries ->
    attempt env tokenAddress percentage isBuy slippage tr = (Threw error, tr') ->
    Looped (retries + 1)
           (tr' ++ [failureLogged retries error; SetTimeout (backoff (retries + 1))])
           result tr'' ->
    Looped retries tr result tr''.

(** The state after [count] attempts in a row have thrown, the loop being
    entered in [tr] with [retries] failures behind it: each exception is
    logged as the next failure and followed by a delay of
    [2^failures * 1000] milliseconds.  There is no such state when one of
    these attempts does not throw. *)
Fixpoint afterFailures (retries : Z) (count : nat) (tr : Trace) : option Trace :=
  match count with
  | O => Some tr
  | S count' =>
      match attempt env tokenAddress percentage isBuy slippage tr with
      | (Threw error, tr') =>
          afterFailures (retries + 1) count'
            (tr' ++ [Log WARN (AttemptFailed (retries + 1) (Js.message error));
                     SetTimeout (2 ^ (retries + 1) * 1000)])
      | _ => None
      end
  end.

End LoopRuns.

(** The routes and the bundle that the answers of the services lead to in
    the state [tr], when every step of lines 159-195 succeeds: the quote
    and the swap transaction are accepted and can be read, the transaction
    is signed and enters the bundle, the first tip account is a key, and
    the tip is added for that account and the block hash just fetched. *)
Definition preparedBundle (env : Env) (tr : Trace) : option (string * list string) :=
  match fetch_quote env (calls isFetchQuote tr) with
  | Fulfilled response =>
      match ok response, json response with
      | true, Fulfilled routes =>
          match fetch_swap env (calls isFetchSwap tr) with
          | Fulfilled transaction_response =>
              match ok transaction_response, json transaction_response with
              | true, Fulfilled (Some text) =>
                  match deserializeAndSign env text with
                  | Fulfilled transaction =>
                      match addTransactions env transaction with
                      | inl bundle =>
                          match getTipAccounts env (calls isGetTipAccounts tr) with
                          | Fulfilled (first :: _) =>
                              if isPublicKey env first then
                                match getLatestBlockhash env (calls isGetLatestBlockhash tr) with
                                | Fulfilled blockhash =>
                                    match addTipTx env bundle JITO_TIP_AMOUNT first blockhash with
                                    | inl tipped => Some (routes, tipped)
                                    | inr _ => None
                                    end
                                | Rejected _ => None
                                end
                              else None
                          | _ => None
                          end
                      | inr _ => None
                      end
                  | Rejected _ => None
                  end
              | _, _ => None
              end
          | Rejected _ => None
          end
      | _, _ => None
      end
  | Rejected _ => None
  end.

(** What an awaited promise makes of a computation. *)
Definition outcomeOf {A} (r : Reply A) : Outcome A :=
  match r with Fulfilled a => Returned a | Rejected e => Threw e end.

(** The sum of a list of delays. *)
Definition total (l : list Z) : Z := fold_right Z.add 0 l.

(** The events of a sell, and those of a buy. *)
Definition isSellEvent (e : Event) : bool :=
  match e with
  | GetBalance | AxiosGet _ | GetParsedAccountInfo _ => false
  | Log _ (ErrorFetchingTokenInfo _) | Log _ (InitialPriceCaptured _)
  | Log _ AmountLessThanFees => false
  | _ => true
  end.

Definition isBuyEvent (e : Event) : bool :=
  match e with
  | GetAssociatedTokenAddress _ | GetTokenAccountBalance _ => false
  | _ => true
  end.

(** A computation [proceeds] when it neither throws nor exits: it returns a
    value in [Q] or is still running, and it only appends events in [P]. *)
Definition proceeds {A} (P : Event -> Prop) (Q : A -> Prop) (m : M A) : Prop :=
  forall tr, exists d,
    snd (m tr) = tr ++ d /\ Forall P d /\
    match fst (m tr) with
    | Returned a => Q a
    | Running => True
    | _ => False
    end.

Definition isSetTimeout (e : Event) : bool :=
  match e with SetTimeout _ => true | _ => false end.

(** What [waitForPriceAvailability] does: price queries, its two log
    lines, and timers of 1500 ms. *)
Definition isWaitEvent (e : Event) : bool :=
  match e with
  | Log WARN (PriceNotAvailableYet _) | Log INFO (PriceAvailable _ _ _) => true
  | SetTimeout ms => ms =? 1500
  | _ => isPriceQuery e
  end.

(** What [monitorAndSell] does itself, the sell apart: price queries, its
    three log lines, and timers of 2000 ms. *)
Definition isPollEvent (e : Event) : bool :=
  match e with
  | Log INFO (MonitoringPrice _ _) | Log INFO (PriceTargetMet _ _)
  | Log ERROR FailedToRetrieveInitialPrice => true
  | SetTimeout ms => ms =? 2000
  | _ => isPriceQuery e
  end.

(** What [tradeTokenWithJupiter] does: the events of its attempts, their
    first lines, and the lines and timers of the retry loop. *)
Definition isTradeEvent (e : Event) : bool :=
  match e with
  | Log INFO (StartingTransaction _ _) | Log WARN (AttemptFailed _ _)
  | Log ERROR (MaxRetriesReached _) | SetTimeout _ => true
  | _ => isAttemptEvent e
  end.

(** The line that the [catch] of [main] logs. *)
Definition isMainCaught (e : Event) : bool :=
  match e with Log _ (MainCaught _) => true | _ => false end.

(** The first line of a sell. *)
Definition isSellStart (e : Event) : bool :=
  match e with Log _ (StartingTransaction false _) => true | _ => false end.

(** More sample worlds. *)
Module Scene.

(** The price is there once, for the wait; every later price request
    fails.  The relay accepts. *)
Definition blindAfterBuy : Env :=
  Sample.world (fun k => if (k <? 1)%nat then Sample.priced "" 2
                         else Rejected (Js.mkError "timeout"))
               (fun _ => Fulfilled "uuid") 1000000000 Sample.someTokens Sample.bothKeys.

(** The price is there; the balance is too small for the fees. *)
Definition poor : Env :=
  Sample.world (fun _ => Sample.priced "" 2) (fun _ => Fulfilled "uuid")
               1000 Sample.someTokens Sample.bothKeys.

(** The price never comes. *)
Definition silent : Env :=
  Sample.world (fun _ => Fulfilled (Some (Some []))) (fun _ => Fulfilled "uuid")
               1000000000 Sample.someTokens Sample.bothKeys.

(** The relay rejects every bundle of a sell. *)
Definition stuck : Env :=
  Sample.world (fun _ => Sample.priced "MINT" 3) (fun _ => Rejected (Js.mkError "dropped"))
               1000000000 Sample.someTokens Sample.bothKeys.

End Scene.

(** * Properties *)

(** ** Numbers *)

Example Math_floor_samples :
  map Js.Math_floor [2.5; -2.5; 0.5; -0.5; 7; 28999999.999999996; -0; infinity]%float
  = [2; -3; 0; -1; 7; 28999999; -0; infinity]%float.
Proof. reflexivity. Qed.

(** The two fixed amounts of lines 38-39 are whole numbers of lamports. *)
Example fixed_amounts :
  SOLANA_GAS_FEE_PRICE = 5000%float /\ JITO_TIP_AMOUNT = 10000%float.
Proof. split; reflexivity. Qed.

(** ** Traces *)

Lemma calls_app (kind : Event -> bool) (a b : Trace) :
  calls kind (a ++ b) = (calls kind a + calls kind b)%nat.
Proof. unfold calls. now rewrite filter_app, length_app. Qed.

Lemma calls_cons (kind : Event -> bool) (e : Event) (d : Trace) :
  calls kind (e :: d) = ((if kind e then 1 else 0) + calls kind d)%nat.
Proof. unfold calls. cbn [filter]. now destruct (kind e). Qed.

Section Rules.

Context {A B : Type} (P : Event -> Prop).

Lemma returns_settles (Q : A -> Prop) (m : M A) :
  returns P Q m -> settles P Q m.
Proof.
  intros H tr. destruct (H tr) as (d & E & F & R).
  exists d. repeat split; trivial. destruct (fst (m tr)); tauto.
Qed.

Lemma returns_ret (Q : A -> Prop) (a : A) : Q a -> returns P Q (ret a).
Proof. intros H tr. exists []. cbn. rewrite app_nil_r. auto. Qed.

Lemma settles_ret (Q : A -> Prop) (a : A) : Q a -> settles P Q (ret a).
Proof. intros Hq. now apply returns_settles, returns_ret. Qed.

Lemma settles_throw (Q : A -> Prop) (e : Js.Error) : settles P Q (throw e).
Proof. intros tr. exists []. cbn. rewrite app_nil_r. auto. Qed.

Lemma returns_emit (Q : unit -> Prop) (e : Event) :
  P e -> Q tt -> returns P Q (emit e).
Proof. intros He Hq tr. exists [e]. cbn. auto. Qed.

Lemma settles_emit (Q : unit -> Prop) (e : Event) :
  P e -> Q tt -> settles P Q (emit e).
Proof. intros He Hq tr. exists [e]. cbn. auto. Qed.

Lemma settles_await (Q : A -> Prop) kind (oracle : nat -> Reply A) (e : Event) :
  P e -> (forall a, Q a) -> settles P Q (await kind oracle e).
Proof.
  intros He Hq tr. exists [e]. unfold await. cbn.
  repeat split; auto. destruct (oracle _); auto.
Qed.

Lemma settles_settle (Q : A -> Prop) (r : Reply A) :
  (forall a, Q a) -> settles P Q (settle r).
Proof.
  intros Hq. destruct r; cbn; [apply settles_ret | apply settles_throw]; auto.
Qed.

Lemma settles_bind (Q1 : A -> Prop) (Q2 : B -> Prop) (m : M A) (f : A -> M B) :
  settles P Q1 m -> (forall a, Q1 a -> settles P Q2 (f a)) ->
  settles P Q2 (bind m f).
Proof.
  intros Hm Hf tr. destruct (Hm tr) as (d & E & F & R).
  unfold bind. destruct (m tr) as [[a| e | c |] tr1]; cbn in *; try tauto.
  - subst tr1. destruct (Hf a R (tr ++ d)) as (d' & E' & F' & R').
    exists (d ++ d'). rewrite E', app_assoc. repeat split; trivial.
    apply Forall_app; auto.
  - exists d. auto.
Qed.

Lemma returns_bind (Q1 : A -> Prop) (Q2 : B -> Prop) (m : M A) (f : A -> M B) :
  returns P Q1 m -> (forall a, Q1 a -> returns P Q2 (f a)) ->
  returns P Q2 (bind m f).
Proof.
  intros Hm Hf tr. destruct (Hm tr) as (d & E & F & R).
  unfold bind. destruct (m tr) as [[a| e | c |] tr1]; cbn in *; try tauto.
  subst tr1. destruct (Hf a R (tr ++ d)) as (d' & E' & F' & R').
  exists (d ++ d'). rewrite E', app_assoc. repeat split; trivial.
  apply Forall_app; auto.
Qed.

Lemma returns_tryCatch (Q : A -> Prop) (m : M A) (h : Js.Error -> M A) :
  settles P Q m -> (forall e, returns P Q (h e)) ->
  returns P Q (tryCatch m h).
Proof.
  intros Hm Hh tr. destruct (Hm tr) as (d & E & F & R).
  unfold tryCatch. destruct (m tr) as [[a| e | c |] tr1]; cbn in *; try tauto.
  - exists d. auto.
  - subst tr1. destruct (Hh e (tr ++ d)) as (d' & E' & F' & R').
    exists (d ++ d'). rewrite E', app_assoc. repeat split; trivial.
    apply Forall_app; auto.
Qed.

End Rules.

(** One step of a proof that a straight-line computation settles. *)
Ltac settle_step :=
  match goal with
  | |- settles _ _ (bind _ _) => eapply settles_bind with (Q1 := fun _ => True); [ | intros ? _ ]
  | |- settles _ _ (ret _) => apply settles_ret
  | |- settles _ _ (throw _) => apply settles_throw
  | |- settles _ _ (emit _) => apply settles_emit
  | |- settles _ _ (logTransaction _ _) => apply settles_emit
  | |- settles _ _ (sleep _) => apply settles_emit
  | |- settles _ _ (await _ _ _) => apply settles_await
  | |- settles _ _ (settle _) => apply settles_settle
  | |- settles _ _ (match ?x with _ => _ end) => destruct x
  | |- settles _ _ (if ?b then _ else _) => destruct b
  end.

(** ** [getTokenInfo] *)

Section GetTokenInfo.

Variables (env : Env) (mint : string) (tr : Trace).

#[local] Abbreviation gaveUp := (gaveUp env mint tr).

(** Every path through [getTokenInfo], by what the two services answer. *)
Lemma getTokenInfo_cases :
  let url := jupiterApiUrl mint in
  match axios_get env (calls isAxiosGet tr) with
  | Rejected error => gaveUp [AxiosGet url] error
  | Fulfilled body =>
      match entryOf mint body with
      | None =>
          gaveUp [AxiosGet url]
                 (Js.mkError "Jupiter API failed to return a valid price.")
      | Some entry =>
          if isPublicKey env mint then
            match getParsedAccountInfo env (calls isGetParsedAccountInfo tr) with
            | Rejected error => gaveUp [AxiosGet url; GetParsedAccountInfo mint] error
            | Fulfilled None =>
                gaveUp [AxiosGet url; GetParsedAccountInfo mint]
                       (Js.mkError "Cannot read properties of null")
            | Fulfilled (Some freezeAuthority) =>
                getTokenInfo env mint tr
                = (Returned (Some {| price := entry_price entry;
                                     source := "jupiter";
                                     isFreezable := match freezeAuthority with
                                                    | NoFreezeAuthority => false
                                                    | _ => true
                                                    end |}),
                   tr ++ [AxiosGet url; GetParsedAccountInfo mint])
            end
          else gaveUp [AxiosGet url] (Js.mkError "Invalid public key input")
      end
  end.
Proof.
  unfold gaveUp, getTokenInfo, fetchFromJupiter, newPublicKey, tryCatch, bind, await.
  cbn zeta.
  destruct (axios_get env (calls isAxiosGet tr)) as [body | error]; cbn -[jupiterApiUrl].
  2: { unfold logTransaction, emit, ret. now rewrite <- app_assoc. }
  destruct (entryOf mint body) as [entry | ]; cbn -[jupiterApiUrl].
  2: { unfold logTransaction, emit, ret. now rewrite <- app_assoc. }
  destruct (isPublicKey env mint); cbn -[jupiterApiUrl].
  2: { unfold logTransaction, emit, ret. now rewrite <- app_assoc. }
  rewrite calls_app, Nat.add_0_r.
  destruct (getParsedAccountInfo env (calls isGetParsedAccountInfo tr))
    as [[freezeAuthority | ] | error]; cbn -[jupiterApiUrl];
    unfold logTransaction, emit, ret; now rewrite <- ?app_assoc.
Qed.

End GetTokenInfo.

(** [getTokenInfo] always returns, and appends price queries only. *)
Lemma getTokenInfo_returns (env : Env) (mint : string) :
  returns (fun e => isPriceQuery e = true) (fun _ => True) (getTokenInfo env mint).
Proof.
  unfold getTokenInfo. apply returns_tryCatch.
  - unfold fetchFromJupiter, newPublicKey. repeat settle_step; auto.
  - intros e. eapply returns_bind with (Q1 := fun _ => True).
    + now apply returns_emit.
    + intros _ _. now apply returns_ret.
Qed.

(** C7, as amended: [getTokenInfo] never throws to its caller.  Whatever the
    services answer it returns; when it returns null the last thing it did
    was to log the error it caught; a network error of either request, a
    price answer without a truthy entry for the mint, a mint that is no
    public key (the mint account is then not requested), and mint data
    that cannot be read each give null; otherwise it returns a TokenInfo
    with the entry's price (undefined when the entry has none), the source
    tag and the freezable flag, after exactly the two requests. *)
Theorem getTokenInfo_never_throws (env : Env) (mint : string) (tr : Trace) :
  let price_answer := axios_get env (calls isAxiosGet tr) in
  let mint_answer := getParsedAccountInfo env (calls isGetParsedAccountInfo tr) in
  let result := fst (getTokenInfo env mint tr) in
  (exists info d,
      getTokenInfo env mint tr = (Returned info, tr ++ d) /\
      match info with
      | None => exists d0 error, d = d0 ++ [Log ERROR (ErrorFetchingTokenInfo error)]
      | Some _ => d = [AxiosGet (jupiterApiUrl mint); GetParsedAccountInfo mint]
      end) /\
  (forall error, price_answer = Rejected error -> result = Returned None) /\
  (forall body, price_answer = Fulfilled body -> entryOf mint body = None ->
                result = Returned None) /\
  (isPublicKey env mint = false ->
   result = Returned None /\
   calls isGetParsedAccountInfo (snd (getTokenInfo env mint tr))
   = calls isGetParsedAccountInfo tr) /\
  (forall error, mint_answer = Rejected error -> result = Returned None) /\
  (mint_answer = Fulfilled None -> result = Returned None) /\
  (forall body entry freezeAuthority,
      price_answer = Fulfilled body -> entryOf mint body = Some entry ->
      isPublicKey env mint = true ->
      mint_answer = Fulfilled (Some freezeAuthority) ->
      result = Returned (Some {| price := entry_price entry;
                                 source := "jupiter";
                                 isFreezable := match freezeAuthority with
                                                | NoFreezeAuthority => false
                                                | _ => true
                                                end |})).
Proof.
  cbv zeta. pose proof (getTokenInfo_cases env mint tr) as H. cbv zeta in H.
  unfold gaveUp in H.
  assert (gave_up : forall d0 error (P : option TokenInfo -> Trace -> Prop),
             (forall d0 error, P None (d0 ++ [Log ERROR (ErrorFetchingTokenInfo error)])) ->
             exists info d,
               (Returned (A := option TokenInfo) None,
                tr ++ d0 ++ [Log ERROR (ErrorFetchingTokenInfo error)])
               = (Returned info, tr ++ d) /\ P info d).
  { intros d0 error P HP. exists None, (d0 ++ [Log ERROR (ErrorFetchingTokenInfo error)]).
    split; [reflexivity | apply HP]. }
  destruct (axios_get env (calls isAxiosGet tr)) as [body | error1];
    [ destruct (entryOf mint body) as [entry | ] eqn:Hentry;
      [ destruct (isPublicKey env mint) eqn:Hkey;
        [ destruct (getParsedAccountInfo env (calls isGetParsedAccountInfo tr))
            as [[freezeAuthority | ] | error2] | ] | ] | ];
    rewrite H; cbn [fst];
    (split;
     [ first [ apply gave_up with
                 (P := fun info d =>
                         match info with
                         | None => exists d0 error,
                                     d = d0 ++ [Log ERROR (ErrorFetchingTokenInfo error)]
                         | Some _ => d = [AxiosGet (jupiterApiUrl mint);
                                          GetParsedAccountInfo mint]
                         end); eauto
             | eexists _, _; split; reflexivity ]
     | repeat split; intros;
       repeat match goal with
              | E : Fulfilled _ = Fulfilled _ |- _ => injection E as E; try subst
              end;
       first [ congruence | cbn [snd]; rewrite ?calls_app; cbn; lia ] ]).
Qed.

Lemma getTokenInfo_never_throws_witness :
  fst (getTokenInfo Sample.offline "MINT" []) = Returned None.
Proof.
  apply (proj1 (proj2 (getTokenInfo_never_throws Sample.offline "MINT" []))
           (Js.mkError "connect ECONNREFUSED")).
  reflexivity.
Defined.

(** C7 as stated, refuted: the price answer has an entry for the mint whose
    [price] field is missing, and [getTokenInfo] does not return null: it
    returns a TokenInfo with an undefined price. *)
Lemma getTokenInfo_missing_price_field :
  axios_get Sample.unpriced 0 = Fulfilled (Sample.quoted "MINT" {| entry_price := Js.undefined |})
  /\ getTokenInfo Sample.unpriced "MINT" []
     = (Returned (Some {| price := Js.undefined; source := "jupiter"; isFreezable := false |}),
        [AxiosGet "https://price.jup.ag/v6/price?ids=MINT&vsToken=SOL";
         GetParsedAccountInfo "MINT"]).
Proof. split; reflexivity. Qed.

(** ** One attempt of [tradeTokenWithJupiter] *)

Section Attempt.

Variables (env : Env) (tokenAddress : string) (percentage : float)
          (isBuy : bool) (slippage : float).

#[local] Abbreviation started := (started tokenAddress isBuy).
#[local] Abbreviation accepted := (accepted isBuy).
#[local] Abbreviation capturedPrice := (capturedPrice env tokenAddress isBuy).
#[local] Abbreviation afterCapture := (afterCapture env tokenAddress isBuy).
#[local] Abbreviation Attempted := (Attempted env tokenAddress isBuy).

Lemma sizeTrade_settles :
  settles (fun e => isPreparation e = true)
          (fun sized => match sized with inl r => r = TradeFalse | inr _ => True end)
          (sizeTrade env tokenAddress percentage isBuy).
Proof.
  unfold sizeTrade, newPublicKey.
  destruct isBuy.
  - eapply settles_bind with (Q1 := fun _ => True); [ now apply settles_await | ].
    intros balance _. cbv zeta.
    destruct (Js.lt _ _); repeat settle_step; auto.
  - repeat settle_step; auto.
Qed.

Lemma prepareBundle_settles (amount : float) (inputMint outputMint : string) :
  settles (fun e => isPreparation e = true) (fun _ => True)
          (prepareBundle env slippage amount inputMint outputMint).
Proof. unfold prepareBundle, newPublicKey. repeat settle_step; auto. Qed.

Lemma Preparation_no_bundle (d : Trace) :
  Preparation d -> calls isSendBundle d = 0%nat.
Proof.
  induction 1 as [ | e d He _ IH]; [ reflexivity | ].
  unfold calls in *. cbn [filter].
  destruct e as [[] [] | | | | | | | | | | | ]; cbn in He |- *; congruence.
Qed.

Lemma afterSubmit_accepted (bundleUuid : string) (tr : Trace) :
  Js.nonempty bundleUuid = true ->
  afterSubmit env tokenAddress isBuy bundleUuid tr
  = (Returned (TradeSuccess (capturedPrice (tr ++ accepted bundleUuid))),
     afterCapture (tr ++ accepted bundleUuid)).
Proof.
  intros Hu. unfold afterSubmit, afterCapture, capturedPrice, accepted.
  rewrite Hu. unfold bind at 1 2, logTransaction, emit.
  rewrite <- app_assoc. cbn [app].
  destruct isBuy; [ | reflexivity ].
  set (tr1 := tr ++ _).
  destruct (getTokenInfo_returns env tokenAddress tr1) as (d & E & _ & R).
  unfold bind. destruct (getTokenInfo env tokenAddress tr1) as [[info | | | ] tr2];
    cbn in R |- *; try contradiction.
  reflexivity.
Qed.

Lemma attempt_anatomy (tr : Trace) :
  Attempted tr (fst (attempt env tokenAddress percentage isBuy slippage tr))
            (snd (attempt env tokenAddress percentage isBuy slippage tr)).
Proof.
  destruct (attempt env tokenAddress percentage isBuy slippage tr) as [o tr'] eqn:Run.
  cbn [fst snd]. revert Run.
  unfold attempt. unfold bind at 1, logTransaction at 1, emit at 1.
  fold started.
  destruct (sizeTrade_settles (tr ++ [started])) as (d1 & E1 & F1 & R1).
  unfold bind at 1.
  destruct (sizeTrade env tokenAddress percentage isBuy (tr ++ [started]))
    as [[[result | [[amount inputMint] outputMint]] | error | | ] tr1];
    cbn [fst snd] in *; try contradiction; subst tr1;
    rewrite <- app_assoc; cbn [app].
  - subst result. intros [= <- <-]. now apply attempt_aborted.
  - destruct (prepareBundle_settles amount inputMint outputMint (tr ++ started :: d1))
      as (d2 & E2 & F2 & R2).
    unfold submit. unfold bind at 1 2.
    destruct (prepareBundle env slippage amount inputMint outputMint (tr ++ started :: d1))
      as [[bundle | error | | ] tr2];
      cbn [fst snd] in *; try contradiction; subst tr2;
      rewrite <- app_assoc; cbn [app].
    2: { intros [= <- <-]. apply attempt_threw. now apply Forall_app. }
    assert (Hd : Preparation (d1 ++ d2)) by now apply Forall_app.
    unfold await.
    replace (calls isSendBundle (tr ++ started :: d1 ++ d2))
      with (calls isSendBundle tr).
    2: { rewrite calls_app, calls_cons, (Preparation_no_bundle _ Hd). cbn. lia. }
    destruct (sendBundle env (calls isSendBundle tr)) as [bundleUuid | error] eqn:Answer.
    + destruct (Js.nonempty bundleUuid) eqn:Hu.
      * rewrite afterSubmit_accepted by assumption.
        repeat (rewrite <- app_assoc; cbn [app]). rewrite (app_assoc d1 d2).
        intros [= <- <-].
        now apply attempt_succeeded.
      * unfold afterSubmit. rewrite Hu.
        repeat (rewrite <- app_assoc; cbn [app]). rewrite (app_assoc d1 d2).
        intros [= <- <-].
        now apply attempt_unanswered with (bundleUuid := bundleUuid).
    + repeat (rewrite <- app_assoc; cbn [app]). rewrite (app_assoc d1 d2).
      intros [= <- <-].
      now apply attempt_rejected.
  - intros [= <- <-]. now apply attempt_threw.
Qed.

End Attempt.

(** ** The retry loop *)

Lemma retryTrace_app (a b : Trace) : retryTrace (a ++ b) = retryTrace a ++ retryTrace b.
Proof. apply flat_map_app. Qed.

Lemma attempts_app (a b : list RetryEvent) : attempts (a ++ b) = (attempts a + attempts b)%nat.
Proof. unfold attempts. now rewrite filter_app, length_app. Qed.

Lemma failures_app (a b : list RetryEvent) : failures (a ++ b) = (failures a + failures b)%nat.
Proof. unfold failures. now rewrite filter_app, length_app. Qed.

Lemma delays_app (a b : list RetryEvent) : delays (a ++ b) = delays a ++ delays b.
Proof. apply flat_map_app. Qed.

Lemma attempts_rounds (first : Z) (count : nat) : attempts (rounds first count) = count.
Proof.
  revert first. induction count as [ | count IH]; intros first; [ reflexivity | ].
  cbn [rounds]. unfold attempts in *. cbn [filter List.length]. now rewrite IH.
Qed.

Lemma failures_rounds (first : Z) (count : nat) : failures (rounds first count) = count.
Proof.
  revert first. induction count as [ | count IH]; intros first; [ reflexivity | ].
  cbn [rounds]. unfold failures in *. cbn [filter List.length]. now rewrite IH.
Qed.

Lemma delays_rounds (first : Z) (count : nat) :
  delays (rounds first count) = map backoff (seqZ first count).
Proof.
  revert first. induction count as [ | count IH]; intros first; [ reflexivity | ].
  cbn [rounds seqZ map]. unfold delays in *. cbn [flat_map app]. now rewrite IH.
Qed.

Lemma backoff_increasing (a b : Z) : 0 <= a < b -> backoff a < backoff b.
Proof.
  intros H. unfold backoff.
  assert (2 ^ a < 2 ^ b) by (apply Z.pow_lt_mono_r; lia). lia.
Qed.

Lemma seqZ_from (first : Z) (count : nat) :
  Forall (fun k => first <= k) (seqZ first count).
Proof.
  revert first. induction count as [ | count IH]; intros first; cbn [seqZ]; constructor.
  - lia.
  - eapply Forall_impl; [ | apply (IH (first + 1)) ]. cbn. intros; lia.
Qed.

(** From a non-negative exponent on, consecutive delays grow strictly. *)
Lemma backoff_sorted (first : Z) (count : nat) :
  0 <= first -> StronglySorted Z.lt (map backoff (seqZ first count)).
Proof.
  revert first. induction count as [ | count IH]; intros first Hf; cbn [seqZ map].
  - constructor.
  - constructor; [ apply IH; lia | ].
    apply Forall_map. eapply Forall_impl; [ | apply (seqZ_from (first + 1)) ].
    cbn. intros k Hk. apply backoff_increasing. lia.
Qed.

Lemma preparation_is_attempt (e : Event) : isPreparation e = true -> isAttemptEvent e = true.
Proof. destruct e as [[] [] | | | | | | | | | | | ]; cbn; congruence. Qed.

Lemma price_query_is_attempt (e : Event) : isPriceQuery e = true -> isAttemptEvent e = true.
Proof. destruct e as [[] [] | | | | | | | | | | | ]; cbn; congruence. Qed.

Lemma attempt_event_silent (e : Event) : isAttemptEvent e = true -> retryView e = [].
Proof. destruct e as [[] [] | | | | | | | | | | | ]; cbn; congruence. Qed.

Lemma silent_trace (d : Trace) :
  Forall (fun e => isAttemptEvent e = true) d -> retryTrace d = [].
Proof.
  induction 1 as [ | e d He _ IH]; [ reflexivity | ].
  unfold retryTrace in *. cbn [flat_map]. now rewrite (attempt_event_silent e He), IH.
Qed.

Section Loop.

Variables (env : Env) (tokenAddress : string) (percentage : float)
          (isBuy : bool) (slippage : float) (maxRetries : Z).

#[local] Abbreviation Ran := (Ran env tokenAddress isBuy maxRetries).

Let begun : Event := started tokenAddress isBuy.

(** Whatever its end, an attempt appends its first log line and then
    attempt events only. *)
Lemma attempted_events (tr : Trace) (o : Outcome TradeResult) (tr' : Trace) :
  Attempted env tokenAddress isBuy tr o tr' ->
  exists d, tr' = tr ++ begun :: d /\ Forall (fun e => isAttemptEvent e = true) d.
Proof.
  assert (P : forall d, Preparation d -> Forall (fun e => isAttemptEvent e = true) d).
  { intros d Hd. eapply Forall_impl; [ | exact Hd ]. apply preparation_is_attempt. }
  destruct 1 as [error d Hd | d Hd | d bundle error Hd | d bundle u Hd | d bundle u Hd _ _ tr1].
  - exists d. auto.
  - exists d. auto.
  - exists (d ++ [SendBundle bundle]). split; [ reflexivity | ].
    apply Forall_app. split; [ auto | now repeat constructor ].
  - exists (d ++ [SendBundle bundle]). split; [ reflexivity | ].
    apply Forall_app. split; [ auto | now repeat constructor ].
  - assert (H1 : Forall (fun e => isAttemptEvent e = true)
                        (d ++ SendBundle bundle :: accepted isBuy u)).
    { apply Forall_app. split; [ auto | now repeat constructor ]. }
    unfold afterCapture. destruct isBuy.
    + destruct (getTokenInfo_returns env tokenAddress tr1) as (q & E & F & _).
      rewrite E. subst tr1.
      exists ((d ++ SendBundle bundle :: accepted true u) ++ q
              ++ [Log INFO (InitialPriceCaptured
                              (capturedPrice env tokenAddress true
                                 (tr ++ started tokenAddress true
                                     :: d ++ SendBundle bundle :: accepted true u)))]).
      split.
      * rewrite <- !app_assoc. cbn [app]. now rewrite <- !app_assoc.
      * apply Forall_app. split; [ assumption | ].
        apply Forall_app. split; [ | now repeat constructor ].
        eapply Forall_impl; [ | exact F ]. apply price_query_is_attempt.
    + exists (d ++ SendBundle bundle :: accepted false u). now split.
Qed.

Lemma attempted_view (tr : Trace) (o : Outcome TradeResult) (tr' : Trace) :
  Attempted env tokenAddress isBuy tr o tr' ->
  retryTrace tr' = retryTrace tr ++ [Started].
Proof.
  intros H. destruct (attempted_events _ _ _ H) as (d & -> & Hd).
  change (begun :: d) with ([begun] ++ d).
  now rewrite !retryTrace_app, (silent_trace d Hd), app_nil_r.
Qed.

(** With fuel for the attempts that are left, the loop returns, and its
    run is one of [Ran]. *)
Lemma tradeLoop_total (fuel : nat) :
  forall retries tr,
    (Z.to_nat (maxRetries - retries) <= fuel)%nat ->
    exists result tr',
      tradeLoop env tokenAddress percentage isBuy slippage maxRetries fuel retries tr
      = (Returned result, tr')
      /\ Ran retries tr result tr'.
Proof.
  induction fuel as [ | fuel IH]; intros retries tr Hfuel; cbn [tradeLoop];
    destruct (Z.ltb_spec retries maxRetries) as [Hlt | Hge].
  - exfalso. lia.
  - eexists _, _. split; [ reflexivity | now constructor ].
  - unfold tryCatch.
    pose proof (attempt_anatomy env tokenAddress percentage isBuy slippage tr) as HA.
    destruct (attempt env tokenAddress percentage isBuy slippage tr) as [o tr1].
    cbn [fst snd] in HA.
    destruct o as [result | error | code | ]; try (now inversion HA).
    + eexists _, _. split; [ reflexivity | now apply ran_returned ].
    + cbv zeta. unfold bind at 1, logTransaction at 1, emit at 1.
      destruct (retries + 1 >=? maxRetries) eqn:G; rewrite Z.geb_leb in G.
      * apply Z.leb_le in G.
        eexists _, _. split.
        -- unfold bind, logTransaction, emit, ret. rewrite <- app_assoc. reflexivity.
        -- now apply ran_exhausted.
      * apply Z.leb_gt in G.
        unfold bind at 1, sleep at 1, emit at 1. rewrite <- app_assoc. cbn [app].
        destruct (IH (retries + 1)
                     (tr1 ++ [failureLogged retries error;
                              SetTimeout (backoff (retries + 1))]))
          as (result & tr' & E & R); [ lia | ].
        exists result, tr'. split; [ exact E | ].
        now apply ran_retried with (error := error) (tr' := tr1).
  - eexists _, _. split; [ reflexivity | now constructor ].
Qed.

Lemma tradeTokenWithJupiter_ran (tr : Trace) :
  exists result tr',
    tradeTokenWithJupiter env tokenAddress percentage isBuy slippage maxRetries tr
    = (Returned result, tr')
    /\ Ran 0 tr result tr'.
Proof.
  unfold tradeTokenWithJupiter. apply tradeLoop_total.
  rewrite Z.sub_0_r. lia.
Qed.

Lemma ran_extends retries tr result tr' :
  Ran retries tr result tr' -> exists d, tr' = tr ++ d.
Proof.
  induction 1 as [retries tr Hge
                 | retries tr result tr' Hlt HA
                 | retries tr error tr' Hlt Hge HA
                 | retries tr error tr' result tr'' Hlt HA _ IH].
  - exists []. now rewrite app_nil_r.
  - destruct (attempted_events _ _ _ HA) as (d & -> & _). eauto.
  - destruct (attempted_events _ _ _ HA) as (d & -> & _).
    rewrite <- app_assoc. eauto.
  - destruct (attempted_events _ _ _ HA) as (d & -> & _).
    destruct IH as (d' & ->). rewrite <- !app_assoc. eauto.
Qed.

(** The rhythm of a run: failed attempts with their delays, then the end. *)
Lemma ran_rounds retries tr result tr' :
  Ran retries tr result tr' ->
  exists (n : nat) (ending : list RetryEvent),
    retryTrace tr' = retryTrace tr ++ rounds (retries + 1) n ++ ending /\
    (ending = [] /\ n = 0%nat /\ result = TradeUndefined /\ maxRetries <= retries
     \/ ending = [Started] /\ result <> TradeUndefined /\ retries + Z.of_nat n < maxRetries
     \/ ending = [Started; Failed maxRetries] /\ result = TradeFalse
        /\ retries + Z.of_nat n + 1 = maxRetries).
Proof.
  induction 1 as [retries tr Hge
                 | retries tr result tr' Hlt HA
                 | retries tr error tr' Hlt Hge HA
                 | retries tr error tr' result tr'' Hlt HA _ IH].
  - exists 0%nat, []. cbn [rounds app]. rewrite app_nil_r. tauto.
  - exists 0%nat, [Started]. cbn [rounds app]. split; [ now apply attempted_view in HA | ].
    right. left. repeat split; [ | lia ].
    inversion HA; discriminate.
  - exists 0%nat, [Started; Failed maxRetries]. cbn [rounds app]. split.
    + rewrite retryTrace_app, (attempted_view _ _ _ HA), <- app_assoc.
      cbn. replace (retries + 1) with maxRetries by lia. reflexivity.
    + right. right. repeat split. lia.
  - destruct IH as (n & ending & E & Hend).
    exists (S n), ending. split.
    + rewrite E, retryTrace_app, (attempted_view _ _ _ HA), <- !app_assoc.
      cbn [rounds app retryTrace flat_map retryView failureLogged].
      reflexivity.
    + destruct Hend as [(_ & _ & _ & Hge) | [(-> & Hr & Hn) | (-> & -> & Hn)]].
      * lia.
      * right. left. repeat split; [ assumption | lia ].
      * right. right. repeat split. lia.
Qed.

End Loop.

(** The scenario of three failed submissions with [maxRetries = 3]: the
    result is false, three bundles were sent and no fourth, and the two
    delays were 2 and 4 seconds. *)
Example three_failures_then_false :
  let run := tradeTokenWithJupiter Sample.jammed "MINT" 6 true 5 3 [] in
  fst run = Returned TradeFalse /\
  calls isSendBundle (snd run) = 3%nat /\
  retryTrace (snd run)
  = [Started; Failed 1; Waited 2000; Started; Failed 2; Waited 4000; Started; Failed 3].
Proof. vm_compute. repeat split. Qed.

(** C10: with [maxRetries <= 0] the loop body never runs: nothing is
    appended to the trace and the call returns undefined, which is neither
    false nor a success object. *)
Theorem tradeTokenWithJupiter_without_attempt
        (env : Env) (tokenAddress : string) (percentage : float) (isBuy : bool)
        (slippage : float) (maxRetries : Z) (tr : Trace) :
  maxRetries <= 0 ->
  tradeTokenWithJupiter env tokenAddress percentage isBuy slippage maxRetries tr
  = (Returned TradeUndefined, tr)
  /\ TradeUndefined <> TradeFalse
  /\ (forall initialPrice, TradeUndefined <> TradeSuccess initialPrice).
Proof.
  intros Hmax. repeat split; try discriminate.
  unfold tradeTokenWithJupiter.
  replace (Z.to_nat maxRetries) with 0%nat by lia. cbn [tradeLoop].
  destruct (Z.ltb_spec 0 maxRetries); [ lia | reflexivity ].
Qed.

Lemma tradeTokenWithJupiter_without_attempt_witness :
  tradeTokenWithJupiter Sample.rising "MINT" 6 true 5 0 [] = (Returned TradeUndefined, [])
  /\ TradeUndefined <> TradeFalse
  /\ (forall initialPrice, TradeUndefined <> TradeSuccess initialPrice).
Proof.
  apply (tradeTokenWithJupiter_without_attempt Sample.rising "MINT" 6 true 5 0 []).
  lia.
Defined.

(** ** An accepted bundle ends the call *)

Lemma calls_none (kind : Event -> bool) (d : Trace) :
  Forall (fun e => kind e = false) d -> calls kind d = 0%nat.
Proof.
  induction 1 as [ | e d He _ IH]; [ reflexivity | ].
  rewrite calls_cons, He, IH. reflexivity.
Qed.

Lemma price_query_no_bundle (d : Trace) :
  Forall (fun e => isPriceQuery e = true) d -> calls isSendBundle d = 0%nat.
Proof.
  intros H. apply calls_none. eapply Forall_impl; [ | exact H ].
  intros e. destruct e as [[] [] | | | | | | | | | | | ]; cbn; congruence.
Qed.

Section Accepted.

Variables (env : Env) (tokenAddress : string) (percentage : float)
          (slippage : float) (maxRetries : Z).

#[local] Abbreviation begun := (started tokenAddress true).

(** The events a buy appends after an accepted bundle. *)
Lemma afterCapture_buy (tr1 : Trace) :
  exists q,
    snd (getTokenInfo env tokenAddress tr1) = tr1 ++ q /\
    Forall (fun e => isPriceQuery e = true) q /\
    afterCapture env tokenAddress true tr1
    = tr1 ++ q ++ [Log INFO (InitialPriceCaptured (capturedPrice env tokenAddress true tr1))].
Proof.
  destruct (getTokenInfo_returns env tokenAddress tr1) as (q & E & F & _).
  exists q. repeat split; trivial.
  unfold afterCapture. now rewrite E, <- app_assoc.
Qed.

(** How many bundles an attempt sends: none, or one, and then what the
    relay answered decides how the attempt ends. *)
Lemma attempted_bundles (tr : Trace) (o : Outcome TradeResult) (tr' : Trace) :
  Attempted env tokenAddress true tr o tr' ->
  calls isSendBundle tr' = calls isSendBundle tr /\ (forall p, o <> Returned (TradeSuccess p))
  \/ calls isSendBundle tr' = S (calls isSendBundle tr) /\
     match o with
     | Returned _ =>
         exists d bundle bundleUuid,
           sendBundle env (calls isSendBundle tr) = Fulfilled bundleUuid /\
           Js.nonempty bundleUuid = true /\
           calls isSendBundle (tr ++ begun :: d) = calls isSendBundle tr /\
           let tr1 := tr ++ begun :: d ++ SendBundle bundle :: accepted true bundleUuid in
           o = Returned (TradeSuccess (capturedPrice env tokenAddress true tr1)) /\
           tr' = afterCapture env tokenAddress true tr1
     | _ =>
         forall bundleUuid,
           sendBundle env (calls isSendBundle tr) = Fulfilled bundleUuid ->
           Js.nonempty bundleUuid = false
     end.
Proof.
  assert (quiet : forall d, Preparation d ->
                            calls isSendBundle (tr ++ begun :: d) = calls isSendBundle tr).
  { intros d Hd. rewrite calls_app, calls_cons, (Preparation_no_bundle d Hd). cbn. lia. }
  destruct 1 as [error d Hd | d Hd | d bundle error Hd Ha
                | d bundle u Hd Ha Hu | d bundle u Hd Ha Hu tr1].
  - left. split; [ now apply quiet | discriminate ].
  - left. split; [ now apply quiet | discriminate ].
  - right. split.
    + rewrite calls_app, calls_cons, calls_app, (Preparation_no_bundle d Hd). cbn. lia.
    + intros u. rewrite Ha. discriminate.
  - right. split.
    + rewrite calls_app, calls_cons, calls_app, (Preparation_no_bundle d Hd). cbn. lia.
    + intros u'. rewrite Ha. now intros [= <-].
  - right. split.
    + destruct (afterCapture_buy tr1) as (q & _ & Hq & ->).
      subst tr1.
      rewrite !calls_app, calls_cons, calls_app, (Preparation_no_bundle d Hd).
      rewrite (price_query_no_bundle q Hq). cbn. lia.
    + exists d, bundle, u. repeat split; auto.
Qed.

(** In a run of the loop, the bundle the relay accepts is the last thing
    the loop sends: the run ends as [afterCapture] says. *)
Lemma ran_accepted retries tr result tr' :
  Ran env tokenAddress true maxRetries retries tr result tr' ->
  forall (k : nat) (bundleUuid : string),
    (calls isSendBundle tr <= k < calls isSendBundle tr')%nat ->
    sendBundle env k = Fulfilled bundleUuid ->
    Js.nonempty bundleUuid = true ->
    exists pre bundle,
      calls isSendBundle (tr ++ pre) = k /\
      let tr1 := tr ++ pre ++ SendBundle bundle :: accepted true bundleUuid in
      result = TradeSuccess (capturedPrice env tokenAddress true tr1) /\
      tr' = afterCapture env tokenAddress true tr1.
Proof.
  induction 1 as [retries tr Hge
                 | retries tr result tr' Hlt HA
                 | retries tr error tr' Hlt Hge HA
                 | retries tr error tr' result tr'' Hlt HA _ IH];
    intros k uuid Hk Hanswer Hu.
  - lia.
  - destruct (attempted_bundles _ _ _ HA) as [(E & _) | (E & d & bundle & u & Ha & _ & Hq & Ho & Ht)];
      [ lia | ].
    assert (k = calls isSendBundle tr) by lia. subst k.
    rewrite Ha in Hanswer. injection Hanswer as <-.
    exists (begun :: d), bundle. cbn zeta in *.
    repeat split; [ exact Hq | now injection Ho | exact Ht ].
  - exfalso.
    rewrite calls_app in Hk. cbn in Hk. rewrite Nat.add_0_r in Hk.
    destruct (attempted_bundles _ _ _ HA) as [(E & _) | (E & Hno)]; [ lia | ].
    assert (k = calls isSendBundle tr) by lia. subst k.
    specialize (Hno uuid Hanswer). congruence.
  - assert (Hmid : calls isSendBundle
                     (tr' ++ [failureLogged retries error; SetTimeout (backoff (retries + 1))])
                   = calls isSendBundle tr').
    { rewrite calls_app. cbn. lia. }
    destruct (attempted_events _ _ _ _ _ _ HA) as (da & Eda & _).
    set (mid := [failureLogged retries error; SetTimeout (backoff (retries + 1))]) in *.
    assert (carry : forall pre bundle,
               calls isSendBundle ((tr' ++ mid) ++ pre) = k /\
               (let tr1 := (tr' ++ mid) ++ pre ++ SendBundle bundle :: accepted true uuid in
                result = TradeSuccess (capturedPrice env tokenAddress true tr1) /\
                tr'' = afterCapture env tokenAddress true tr1) ->
               exists pre0 bundle0,
                 calls isSendBundle (tr ++ pre0) = k /\
                 (let tr1 := tr ++ pre0 ++ SendBundle bundle0 :: accepted true uuid in
                  result = TradeSuccess (capturedPrice env tokenAddress true tr1) /\
                  tr'' = afterCapture env tokenAddress true tr1)).
    { intros pre bundle (Hpre & Hres).
      exists ((begun :: da) ++ mid ++ pre), bundle.
      assert (E0 : tr ++ (begun :: da) ++ mid ++ pre = (tr' ++ mid) ++ pre)
        by (subst tr'; now rewrite <- !app_assoc).
      assert (E1 : tr ++ ((begun :: da) ++ mid ++ pre)
                      ++ SendBundle bundle :: accepted true uuid
                   = (tr' ++ mid) ++ pre ++ SendBundle bundle :: accepted true uuid)
        by (subst tr'; now rewrite <- !app_assoc).
      cbn zeta in *. rewrite E0, E1. now split. }
    destruct (attempted_bundles _ _ _ HA) as [(E & _) | (E & Hno)].
    + destruct (IH k uuid) as (pre & bundle & Hres); [ lia | assumption.. | ].
      now apply (carry pre bundle).
    + destruct (Nat.eq_dec k (calls isSendBundle tr)) as [-> | Hne].
      * exfalso. specialize (Hno uuid Hanswer). congruence.
      * destruct (IH k uuid) as (pre & bundle & Hres); [ lia | assumption.. | ].
        now apply (carry pre bundle).
Qed.

End Accepted.

(** C5: take a buy and any bundle it sends that the relay accepts (the
    [k]-th bundle ever sent, answered with a non-empty identifier).  Then
    the two log lines of the success are followed at once by the price
    query of [getTokenInfo], whose answer becomes [initialPrice] (null when
    the query returns null), by the log line of that price, and by the
    return of [{success: true, initialPrice}]: nothing else follows, so no
    further attempt is made; and a failed query still gives success. *)
Theorem buy_accepted_returns_price
        (env : Env) (tokenAddress : string) (percentage slippage : float)
        (maxRetries : Z) (tr : Trace) (k : nat) (bundleUuid : string) :
  let run := tradeTokenWithJupiter env tokenAddress percentage true slippage maxRetries tr in
  (calls isSendBundle tr <= k < calls isSendBundle (snd run))%nat ->
  sendBundle env k = Fulfilled bundleUuid ->
  Js.nonempty bundleUuid = true ->
  exists pre bundle q,
    calls isSendBundle (tr ++ pre) = k /\
    let tr1 := tr ++ pre ++ [SendBundle bundle;
                             Log INFO (BundleSentSuccessfully bundleUuid);
                             Log INFO (WaitingConfirmation true)] in
    let answer := getTokenInfo env tokenAddress tr1 in
    let initialPrice := match fst answer with
                        | Returned (Some info) => price info
                        | _ => Js.null
                        end in
    snd answer = tr1 ++ q /\
    Forall (fun e => isPriceQuery e = true) q /\
    run = (Returned (TradeSuccess initialPrice),
           tr1 ++ q ++ [Log INFO (InitialPriceCaptured initialPrice)]) /\
    (fst answer = Returned None -> fst run = Returned (TradeSuccess Js.null)).
Proof.
  cbv zeta. intros Hk Hanswer Hu.
  destruct (tradeTokenWithJupiter_ran env tokenAddress percentage true slippage
              maxRetries tr) as (result & tr' & Run & HR).
  rewrite Run in Hk |- *. cbn [fst snd] in Hk |- *.
  destruct (ran_accepted _ _ _ _ _ _ _ HR k bundleUuid Hk Hanswer Hu)
    as (pre & bundle & Hpre & Hres & Htr).
  unfold accepted in Hres, Htr.
  set (tr1 := tr ++ pre ++ _) in *.
  destruct (afterCapture_buy env tokenAddress tr1) as (q & Eq & Fq & Eafter).
  exists pre, bundle, q. rewrite Htr, Hres, Eafter.
  unfold capturedPrice. repeat split; trivial.
  intros E. cbn [fst]. subst tr1. now rewrite E.
Qed.

Lemma buy_accepted_returns_price_witness :
  exists pre bundle q,
    calls isSendBundle ([] ++ pre) = 1%nat /\
    let tr1 := [] ++ pre ++ [SendBundle bundle;
                             Log INFO (BundleSentSuccessfully "uuid");
                             Log INFO (WaitingConfirmation true)] in
    let answer := getTokenInfo Sample.secondTry "MINT" tr1 in
    let initialPrice := match fst answer with
                        | Returned (Some info) => price info
                        | _ => Js.null
                        end in
    snd answer = tr1 ++ q /\
    Forall (fun e => isPriceQuery e = true) q /\
    tradeTokenWithJupiter Sample.secondTry "MINT" 6 true 5 3 []
    = (Returned (TradeSuccess initialPrice),
       tr1 ++ q ++ [Log INFO (InitialPriceCaptured initialPrice)]) /\
    (fst answer = Returned None ->
     fst (tradeTokenWithJupiter Sample.secondTry "MINT" 6 true 5 3 [])
     = Returned (TradeSuccess Js.null)).
Proof.
  apply (buy_accepted_returns_price Sample.secondTry "MINT" 6 5 3 [] 1 "uuid").
  - assert (E : calls isSendBundle
                  (snd (tradeTokenWithJupiter Sample.secondTry "MINT" 6 true 5 3 [])) = 2%nat)
      by (vm_compute; reflexivity).
    rewrite E. cbn. lia.
  - reflexivity.
  - reflexivity.
Defined.

(** The scenario of a submission that succeeds on the second attempt: the
    result is a success with the price queried after it, two bundles were
    sent, and the only delay is the one after the first failure. *)
Example success_on_second_attempt :
  let run := tradeTokenWithJupiter Sample.secondTry "MINT" 6 true 5 3 [] in
  fst run = Returned (TradeSuccess (Js.number 1)) /\
  calls isSendBundle (snd run) = 2%nat /\
  retryTrace (snd run) = [Started; Failed 1; Waited 2000; Started].
Proof. vm_compute. repeat split. Qed.

(** ** The size of a trade *)

Lemma settles_extends {A} (P : Event -> Prop) (Q : A -> Prop) (m : M A) :
  settles P Q m -> extends m.
Proof. intros H tr. destruct (H tr) as (d & E & _). eauto. Qed.

Lemma await_first {A B} kind (oracle : nat -> Reply A) (e : Event) (f : A -> M B) (tr : Trace) :
  (forall a, extends (f a)) ->
  exists rest, snd (bind (await kind oracle e) f tr) = tr ++ e :: rest.
Proof.
  intros Hf. unfold bind, await.
  destruct (oracle (calls kind tr)) as [a | error].
  - destruct (Hf a (tr ++ [e])) as (d & ->). exists d.
    now rewrite <- app_assoc.
  - exists []. reflexivity.
Qed.

Lemma bind_first {A B} (m : M A) (f : A -> M B) (e : Event) (tr : Trace) :
  (exists rest, snd (m tr) = tr ++ e :: rest) ->
  (forall a, extends (f a)) ->
  exists rest, snd (bind m f tr) = tr ++ e :: rest.
Proof.
  intros (rest & E) Hf. unfold bind.
  destruct (m tr) as [[a | error | code | ] tr1]; cbn [snd] in E |- *; subst tr1;
    try (now exists rest).
  destruct (Hf a (tr ++ e :: rest)) as (d & ->).
  exists (rest ++ d). now rewrite <- app_assoc.
Qed.

Section Sizing.

Variables (env : Env) (tokenAddress : string) (percentage slippage : float).

(** The first request of [submit] is the quote, for the amount it is given. *)
Lemma submit_first (amount : float) (inputMint outputMint : string) (tr : Trace) :
  exists rest,
    snd (submit env slippage amount inputMint outputMint tr)
    = tr ++ FetchQuote inputMint outputMint amount (slippage * 100) :: rest.
Proof.
  unfold submit. apply bind_first.
  - unfold prepareBundle. apply await_first. intros response.
    apply settles_extends with (P := fun _ => True) (Q := fun _ => True).
    unfold newPublicKey. repeat settle_step; auto.
  - intros bundle.
    apply settles_extends with (P := fun _ => True) (Q := fun _ => True).
    now apply settles_await.
Qed.

Lemma afterSubmit_extends (isBuy : bool) (bundleUuid : string) :
  extends (afterSubmit env tokenAddress isBuy bundleUuid).
Proof.
  intros tr. destruct (Js.nonempty bundleUuid) eqn:Hu.
  - rewrite afterSubmit_accepted by assumption. cbn [snd].
    unfold afterCapture. destruct isBuy.
    + destruct (getTokenInfo_returns env tokenAddress (tr ++ accepted true bundleUuid))
        as (q & -> & _).
      rewrite <- !app_assoc. eauto.
    + eauto.
  - unfold afterSubmit. rewrite Hu. exists []. cbn. now rewrite app_nil_r.
Qed.

Lemma attempt_unfold (isBuy : bool) (tr : Trace) :
  attempt env tokenAddress percentage isBuy slippage tr
  = match sizeTrade env tokenAddress percentage isBuy
            (tr ++ [Log INFO (StartingTransaction isBuy tokenAddress)]) with
    | (Returned (inl result), tr') => (Returned result, tr')
    | (Returned (inr (amount, inputMint, outputMint)), tr') =>
        bind (submit env slippage amount inputMint outputMint)
             (afterSubmit env tokenAddress isBuy) tr'
    | (Threw error, tr') => (Threw error, tr')
    | (Exited code, tr') => (Exited code, tr')
    | (Running, tr') => (Running, tr')
    end.
Proof.
  unfold attempt. unfold bind at 1 2, logTransaction at 1, emit at 1.
  destruct (sizeTrade _ _ _ _ _) as [[[result | [[amount inputMint] outputMint]] | | | ] tr'];
    reflexivity.
Qed.

Lemma sizeTrade_buy (tr : Trace) (balance : float) :
  getBalance env (calls isGetBalance tr) = Fulfilled balance ->
  sizeTrade env tokenAddress percentage true tr
  = if Js.lt (buyAmount percentage balance) 0
    then (Returned (inl TradeFalse), tr ++ [GetBalance; Log ERROR AmountLessThanFees])
    else (Returned (inr (buyAmount percentage balance, solAddress, tokenAddress)),
          tr ++ [GetBalance]).
Proof.
  intros Hbalance. unfold sizeTrade. unfold bind at 1, await at 1.
  rewrite Hbalance. cbv zeta.
  destruct (Js.lt (buyAmount percentage balance) 0); [ | reflexivity ].
  unfold bind, logTransaction, emit, ret. now rewrite <- app_assoc.
Qed.

Lemma sizeTrade_sell (tr : Trace) (tokenAccount : string) (tokenBalance : TokenAmount) :
  isPublicKey env tokenAddress = true ->
  getAssociatedTokenAddress env (calls isGetAssociatedTokenAddress tr) = Fulfilled tokenAccount ->
  getTokenAccountBalance env (calls isGetTokenAccountBalance tr) = Fulfilled tokenBalance ->
  sizeTrade env tokenAddress percentage false tr
  = (Returned (inr (sellAmount percentage tokenBalance, tokenAddress, solAddress)),
     tr ++ [GetAssociatedTokenAddress tokenAddress; GetTokenAccountBalance tokenAccount]).
Proof.
  intros Hkey Haccount Hbalance. unfold sizeTrade, newPublicKey. rewrite Hkey.
  unfold bind, ret, await.
  rewrite Haccount.
  replace (calls isGetTokenAccountBalance (tr ++ [GetAssociatedTokenAddress tokenAddress]))
    with (calls isGetTokenAccountBalance tr) by (rewrite calls_app; cbn; lia).
  rewrite Hbalance. now rewrite <- app_assoc.
Qed.

(** A buy whose balance request is answered: either the amount is negative
    and the attempt returns false at once, or the quote is requested for
    that amount. *)
Lemma buy_attempt (tr : Trace) (balance : float) :
  getBalance env (calls isGetBalance tr) = Fulfilled balance ->
  let amount := buyAmount percentage balance in
  let first := [Log INFO (StartingTransaction true tokenAddress); GetBalance] in
  if Js.lt amount 0 then
    attempt env tokenAddress percentage true slippage tr
    = (Returned TradeFalse, tr ++ first ++ [Log ERROR AmountLessThanFees])
  else
    exists rest,
      snd (attempt env tokenAddress percentage true slippage tr)
      = tr ++ first ++ FetchQuote solAddress tokenAddress amount (slippage * 100) :: rest.
Proof.
  intros Hbalance amount first.
  rewrite attempt_unfold, (sizeTrade_buy _ balance).
  2: { rewrite calls_app. cbn. now rewrite Nat.add_0_r. }
  fold amount. destruct (Js.lt amount 0).
  - subst first. now rewrite <- app_assoc.
  - destruct (bind_first (submit env slippage amount solAddress tokenAddress)
                (afterSubmit env tokenAddress true)
                (FetchQuote solAddress tokenAddress amount (slippage * 100))
                ((tr ++ [Log INFO (StartingTransaction true tokenAddress)]) ++ [GetBalance]))
      as (rest & E).
    + apply submit_first.
    + apply afterSubmit_extends.
    + exists rest. rewrite E. subst first. now rewrite <- !app_assoc.
Qed.

(** A sell whose token account is found and whose balance request is
    answered requests the quote for the amount of line 154. *)
Lemma sell_attempt (tr : Trace) (tokenAccount : string) (tokenBalance : TokenAmount) :
  isPublicKey env tokenAddress = true ->
  getAssociatedTokenAddress env (calls isGetAssociatedTokenAddress tr) = Fulfilled tokenAccount ->
  getTokenAccountBalance env (calls isGetTokenAccountBalance tr) = Fulfilled tokenBalance ->
  exists rest,
    snd (attempt env tokenAddress percentage false slippage tr)
    = tr ++ [Log INFO (StartingTransaction false tokenAddress);
             GetAssociatedTokenAddress tokenAddress;
             GetTokenAccountBalance tokenAccount;
             FetchQuote tokenAddress solAddress (sellAmount percentage tokenBalance)
                        (slippage * 100)] ++ rest.
Proof.
  intros Hkey Haccount Hbalance.
  rewrite attempt_unfold, (sizeTrade_sell _ tokenAccount tokenBalance); trivial.
  2, 3: rewrite calls_app; cbn; now rewrite Nat.add_0_r.
  destruct (bind_first (submit env slippage (sellAmount percentage tokenBalance)
                          tokenAddress solAddress)
              (afterSubmit env tokenAddress false)
              (FetchQuote tokenAddress solAddress (sellAmount percentage tokenBalance)
                          (slippage * 100))
              ((tr ++ [Log INFO (StartingTransaction false tokenAddress)])
               ++ [GetAssociatedTokenAddress tokenAddress;
                   GetTokenAccountBalance tokenAccount]))
    as (rest & E).
  - apply submit_first.
  - apply afterSubmit_extends.
  - exists rest. rewrite E. now rewrite <- !app_assoc.
Qed.

End Sizing.

(** C2, as amended: on a buy attempt whose balance request is answered, the
    trade size is [Math.floor(balance * (p / 100)) - gasFee - tipAmount]
    computed on doubles in this order, with [gasFee = 5000] and
    [tipAmount = 10000]: it is the amount of the quote request that comes
    next.  When it is negative nothing is requested: the call returns false
    at once, in any round of the retry loop.  With a balance of
    1_000_000_000 and p = 6 the amount is 59_985_000. *)
Theorem buy_amount_and_abort
        (env : Env) (tokenAddress : string) (percentage slippage : float)
        (maxRetries : Z) (tr : Trace) (balance : float) :
  getBalance env (calls isGetBalance tr) = Fulfilled balance ->
  let amount := (Js.Math_floor (balance * (percentage / 100))
                 - SOLANA_GAS_FEE_PRICE - JITO_TIP_AMOUNT)%float in
  let first := [Log INFO (StartingTransaction true tokenAddress); GetBalance] in
  (Js.lt amount 0 = false ->
   exists rest,
     snd (attempt env tokenAddress percentage true slippage tr)
     = tr ++ first ++ FetchQuote solAddress tokenAddress amount (slippage * 100) :: rest) /\
  (Js.lt amount 0 = true ->
   forall fuel retries,
     retries < maxRetries ->
     tradeLoop env tokenAddress percentage true slippage maxRetries (S fuel) retries tr
     = (Returned TradeFalse, tr ++ first ++ [Log ERROR AmountLessThanFees])) /\
  (Js.lt amount 0 = true ->
   1 <= maxRetries ->
   tradeTokenWithJupiter env tokenAddress percentage true slippage maxRetries tr
   = (Returned TradeFalse, tr ++ first ++ [Log ERROR AmountLessThanFees])) /\
  SOLANA_GAS_FEE_PRICE = 5000%float /\
  JITO_TIP_AMOUNT = 10000%float /\
  buyAmount 6 1000000000 = 59985000%float.
Proof.
  intros Hbalance amount first.
  pose proof (buy_attempt env tokenAddress percentage slippage tr balance Hbalance) as H.
  cbv zeta in H. fold first in H. change (buyAmount percentage balance) with amount in H.
  assert (Hloop : Js.lt amount 0 = true ->
                  forall fuel retries,
                    retries < maxRetries ->
                    tradeLoop env tokenAddress percentage true slippage maxRetries
                              (S fuel) retries tr
                    = (Returned TradeFalse, tr ++ first ++ [Log ERROR AmountLessThanFees])).
  { intros Hneg fuel retries Hlt. rewrite Hneg in H.
    cbn [tradeLoop]. rewrite (proj2 (Z.ltb_lt _ _) Hlt).
    unfold tryCatch. now rewrite H. }
  repeat split.
  - intros Hpos. now rewrite Hpos in H.
  - exact Hloop.
  - intros Hneg Hmax. unfold tradeTokenWithJupiter.
    destruct (Z.to_nat maxRetries) as [ | fuel] eqn:E; [ lia | ].
    apply Hloop; [ assumption | lia ].
Qed.

Lemma buy_amount_and_abort_witness :
  exists rest,
    snd (attempt Sample.rising "MINT" 6 true 5 [])
    = [] ++ [Log INFO (StartingTransaction true "MINT"); GetBalance]
         ++ FetchQuote solAddress "MINT" 59985000 500 :: rest.
Proof.
  exact (proj1 (buy_amount_and_abort Sample.rising "MINT" 6 5 3 [] 1000000000 eq_refl)
               eq_refl).
Defined.

(** C2 as stated, refuted: with a balance of 100_000_000 lamports and
    p = 29, [floor(balance * p / 100) - gasFee - tipAmount] is 28_985_000,
    in exact arithmetic and also on doubles in the order in which it is
    written; the script asks a quote for 28_984_999: it divides first, the
    double [29 / 100] is below 0.29, and the product is rounded to
    28999999.999999996 before the floor. *)
Lemma buy_amount_is_not_the_exact_floor :
  exactBuyAmount 100000000 29 5000 10000 = 28985000 /\
  (Js.Math_floor (100000000 * 29 / 100) - 5000 - 10000)%float = 28985000%float /\
  (100000000 * (29 / 100))%float = 28999999.999999996%float /\
  buyAmount 29 100000000 = 28984999%float /\
  PrimFloat.eqb (buyAmount 29 100000000)
                (Js.of_Z (exactBuyAmount 100000000 29 5000 10000)) = false /\
  let env := Sample.world (fun _ => Sample.priced "MINT" 1) (fun _ => Fulfilled "uuid")
                          100000000 Sample.someTokens Sample.bothKeys in
  nth_error (snd (tradeTokenWithJupiter env "MINT" 29 true 5 3 [])) 2
  = Some (FetchQuote solAddress "MINT" 28984999 500).
Proof. vm_compute. repeat split. Qed.

Lemma In_seqZ (k first : Z) (count : nat) :
  first <= k < first + Z.of_nat count -> In k (seqZ first count).
Proof.
  revert first. induction count as [ | count IH]; intros first H; [ lia | ].
  cbn [seqZ In]. destruct (Z.eq_dec first k) as [-> | Hne]; [ now left | right ].
  apply IH. lia.
Qed.

(** Up to 22 decimals [Math.pow(10, decimals)] is the power of ten itself:
    it is a double. *)
Lemma Math_pow10_exact (d : N) :
  (d <= 22)%N -> integerOf (Js.Math_pow10 d) = Some (10 ^ Z.of_N d).
Proof.
  intros H.
  assert (all : forallb (fun k => match integerOf (Js.Math_pow10 (Z.to_N k)) with
                                  | Some z => z =? 10 ^ k
                                  | None => false
                                  end) (seqZ 0 23) = true)
    by (vm_compute; reflexivity).
  rewrite forallb_forall in all.
  specialize (all (Z.of_N d) (In_seqZ (Z.of_N d) 0 23 ltac:(lia))).
  rewrite N2Z.id in all.
  destruct (integerOf _) as [z | ]; [ | discriminate ].
  apply Z.eqb_eq in all. now subst.
Qed.

(** C8, as amended: on a sell attempt whose token account is found and whose
    balance request is answered, for a token of at most 22 decimals, where
    [Math.pow(10, decimals)] is the power of ten itself, the trade size is
    [Math.floor(uiAmount * (p / 100) * Math.pow(10, decimals))] computed on
    doubles in this order, [uiAmount] and [decimals] being those of the
    token account of the token sold: it is the amount of the quote request
    that comes next. *)
Theorem sell_amount
        (env : Env) (tokenAddress : string) (percentage slippage : float)
        (tr : Trace) (tokenAccount : string) (tokenBalance : TokenAmount) :
  isPublicKey env tokenAddress = true ->
  getAssociatedTokenAddress env (calls isGetAssociatedTokenAddress tr) = Fulfilled tokenAccount ->
  getTokenAccountBalance env (calls isGetTokenAccountBalance tr) = Fulfilled tokenBalance ->
  (decimals tokenBalance <= 22)%N ->
  let power := Js.of_Z (10 ^ Z.of_N (decimals tokenBalance)) in
  let amount := Js.Math_floor (Js.ToNumber (uiAmount tokenBalance) * (percentage / 100)
                               * power)%float in
  integerOf power = Some (10 ^ Z.of_N (decimals tokenBalance)) /\
  exists rest,
    snd (attempt env tokenAddress percentage false slippage tr)
    = tr ++ [Log INFO (StartingTransaction false tokenAddress);
             GetAssociatedTokenAddress tokenAddress;
             GetTokenAccountBalance tokenAccount;
             FetchQuote tokenAddress solAddress amount (slippage * 100)] ++ rest.
Proof.
  intros Hkey Haccount Hbalance Hdecimals power amount. split.
  - exact (Math_pow10_exact (decimals tokenBalance) Hdecimals).
  - exact (sell_attempt env tokenAddress percentage slippage tr tokenAccount tokenBalance
             Hkey Haccount Hbalance).
Qed.

Lemma sell_amount_witness :
  integerOf (Js.of_Z (10 ^ 6)) = Some (10 ^ 6) /\
  exists rest,
    snd (attempt Sample.rising "MINT" 100 false 5 [])
    = [] ++ [Log INFO (StartingTransaction false "MINT");
             GetAssociatedTokenAddress "MINT";
             GetTokenAccountBalance "ATA";
             FetchQuote "MINT" solAddress 12500000 500] ++ rest.
Proof.
  apply (sell_amount Sample.rising "MINT" 100 5 [] "ATA" Sample.someTokens);
    try reflexivity.
  cbn. lia.
Defined.

(** C8 as stated, refuted: with [uiAmount] 100_000_000, no decimals and
    p = 29, [floor(uiAmount * p / 100 * 10^decimals)] is 29_000_000, in
    exact arithmetic and also on doubles in the order in which it is
    written; the script asks a quote for 28_999_999, because it divides
    first. *)
Lemma sell_amount_is_not_the_exact_floor :
  let whole := {| uiAmount := Js.number 100000000; decimals := 0 |} in
  exactSellAmount 100000000 29 0 = 29000000 /\
  Js.Math_floor (100000000 * 29 / 100 * Js.Math_pow10 0)%float = 29000000%float /\
  sellAmount 29 whole = 28999999%float /\
  PrimFloat.eqb (sellAmount 29 whole) (Js.of_Z (exactSellAmount 100000000 29 0)) = false /\
  let env := Sample.world (fun _ => Sample.priced "MINT" 1) (fun _ => Fulfilled "uuid")
                          1000000000 whole Sample.bothKeys in
  nth_error (snd (tradeTokenWithJupiter env "MINT" 29 false 5 3 [])) 3
  = Some (FetchQuote "MINT" solAddress 28999999 500).
Proof. vm_compute. repeat split. Qed.

(** The same rounding when all is sold, as the monitor does: an account of
    0.29 tokens with two decimals holds 29 base units, and the quote is
    asked for 28. *)
Example selling_all_can_leave_one_unit :
  sellAmount 100 {| uiAmount := Js.number 0.29; decimals := 2 |} = 28%float.
Proof. reflexivity. Qed.

(** ** The two polling loops *)

Lemma price_query_no_trade (d : Trace) :
  Forall (fun e => isPriceQuery e = true) d -> calls isTradeCall d = 0%nat.
Proof.
  intros H. apply calls_none. eapply Forall_impl; [ | exact H ].
  intros e. destruct e as [[] [] | | | | | | | | | | | ]; cbn; congruence.
Qed.

(** Each call of [getTokenInfo] makes exactly one price request and no
    trade call. *)
Lemma getTokenInfo_one_request (env : Env) (mint : string) (tr : Trace) :
  calls isAxiosGet (snd (getTokenInfo env mint tr)) = S (calls isAxiosGet tr)
  /\ calls isTradeCall (snd (getTokenInfo env mint tr)) = calls isTradeCall tr.
Proof.
  split.
  - pose proof (getTokenInfo_cases env mint tr) as H. cbv zeta in H. unfold gaveUp in H.
    destruct (axios_get env (calls isAxiosGet tr)) as [body | ];
      [ destruct (entryOf mint body);
        [ destruct (isPublicKey env mint);
          [ destruct (getParsedAccountInfo env (calls isGetParsedAccountInfo tr)) as [[] | ] | ] | ] | ];
      rewrite H; cbn [snd]; rewrite ?calls_app; cbn; lia.
  - destruct (getTokenInfo_returns env mint tr) as (q & -> & F & _).
    rewrite calls_app, (price_query_no_trade q F). lia.
Qed.

Section Monitoring.

Variables (env : Env) (tokenAddress : string) (initialPrice : Js.value).

#[local] Abbreviation seen := (seen env tokenAddress).
#[local] Abbreviation targetMet := (targetMet env tokenAddress initialPrice).
#[local] Abbreviation afterPoll := (afterPoll env tokenAddress initialPrice).
#[local] Abbreviation polled := (polled env tokenAddress initialPrice).
#[local] Abbreviation sellPoint := (sellPoint env tokenAddress initialPrice).
#[local] Abbreviation sellAll := (sellAll env tokenAddress).

Lemma monitorLoop_step (fuel : nat) (tr : Trace) :
  monitorLoop env tokenAddress initialPrice (S fuel) tr
  = if targetMet tr then (Returned tt, snd (sellAll (sellPoint tr)))
    else monitorLoop env tokenAddress initialPrice fuel (afterPoll tr).
Proof.
  unfold targetMet, sellPoint, afterPoll, seen. cbn [monitorLoop].
  unfold bind at 1.
  destruct (getTokenInfo_returns env tokenAddress tr) as (q & _ & _ & R).
  destruct (getTokenInfo env tokenAddress tr) as [[[info | ] | | | ] tr1];
    cbn [fst snd] in R |- *; try contradiction.
  - destruct (Js.ge (Js.ToNumber (price info)) (threshold initialPrice)).
    + unfold bind at 1, logTransaction at 1, emit at 1. unfold bind at 1.
      unfold sellAll.
      destruct (tradeTokenWithJupiter_ran env tokenAddress 100 false 5 3
                  (tr1 ++ [Log INFO (PriceTargetMet (price info) initialPrice)]))
        as (result & tr2 & -> & _).
      reflexivity.
    + unfold bind at 1, logTransaction at 1, emit at 1.
      unfold bind at 1, sleep at 1, emit at 1.
      now rewrite <- app_assoc.
  - unfold bind at 1, logTransaction at 1, emit at 1.
    unfold bind at 1, sleep at 1, emit at 1.
    now rewrite <- app_assoc.
Qed.

(** Either some poll within the fuel is the first to meet the target, and
    the loop ends with the sell called in that state; or none does and the
    loop is still polling. *)
Lemma monitorLoop_cases (fuel : nat) :
  forall tr,
    (exists k, (k < fuel)%nat /\ targetMet (polled k tr) = true /\
               (forall j, (j < k)%nat -> targetMet (polled j tr) = false) /\
               monitorLoop env tokenAddress initialPrice fuel tr
               = (Returned tt, snd (sellAll (sellPoint (polled k tr)))))
    \/ ((forall j, (j < fuel)%nat -> targetMet (polled j tr) = false) /\
        monitorLoop env tokenAddress initialPrice fuel tr = (Running, polled fuel tr)).
Proof.
  induction fuel as [ | fuel IH]; intros tr.
  - right. split; [ intros; lia | reflexivity ].
  - rewrite monitorLoop_step. destruct (targetMet tr) eqn:Hmet.
    + left. exists 0%nat. repeat split; [ lia | exact Hmet | intros; lia ].
    + destruct (IH (afterPoll tr)) as [(k & Hk & Hm & Hfirst & Run) | (Hnone & Run)].
      * left. exists (S k). repeat split; [ lia | exact Hm | | exact Run ].
        intros [ | j] Hj; [ exact Hmet | apply Hfirst; lia ].
      * right. split; [ | exact Run ].
        intros [ | j] Hj; [ exact Hmet | apply Hnone; lia ].
Qed.

(** Polling calls no trade. *)
Lemma polled_no_trade (k : nat) :
  forall tr, calls isTradeCall (polled k tr) = calls isTradeCall tr.
Proof.
  induction k as [ | k IH]; intros tr; [ reflexivity | ].
  cbn [polled]. rewrite IH. unfold afterPoll.
  rewrite calls_app, (proj2 (getTokenInfo_one_request env tokenAddress tr)).
  cbn. lia.
Qed.

(** The sell starts with its first log line: one more trade call at least. *)
Lemma sellAll_trades (tr : Trace) :
  exists rest,
    snd (sellAll tr) = tr ++ Log INFO (StartingTransaction false tokenAddress) :: rest.
Proof.
  unfold sellAll.
  destruct (tradeTokenWithJupiter_ran env tokenAddress 100 false 5 3 tr)
    as (result & tr' & -> & HR).
  cbn [snd]. inversion HR as [ ? ? Hge | ? ? ? ? _ HA | ? ? ? ? _ _ HA | ? ? ? ? ? ? _ HA HR' ]; subst.
  - lia.
  - destruct (attempted_events _ _ _ _ _ _ HA) as (d & -> & _). eauto.
  - destruct (attempted_events _ _ _ _ _ _ HA) as (d & -> & _).
    rewrite <- app_assoc. cbn [app]. eauto.
  - destruct (attempted_events _ _ _ _ _ _ HA) as (d & -> & _).
    destruct (ran_extends _ _ _ _ _ _ _ _ HR') as (d' & ->).
    rewrite <- !app_assoc. cbn [app]. eauto.
Qed.

Lemma sellPoint_no_trade (tr : Trace) :
  calls isTradeCall (sellPoint tr) = calls isTradeCall tr.
Proof.
  unfold sellPoint.
  rewrite calls_app, (proj2 (getTokenInfo_one_request env tokenAddress tr)).
  cbn. lia.
Qed.

End Monitoring.

(** C1: for every initial price other than null, with the target
    [initialPrice * 1.2] and [>=] on doubles: the monitor calls the trade
    executor if and only if one of its polls returns a TokenInfo whose
    price is [>=] [initialPrice * 1.2]; at the first such poll it logs and
    makes one call [tradeTokenWithJupiter(tokenAddress, 100, false)], after
    which it returns; until then no poll made any trade call; and while no
    poll meets the target it keeps polling. *)
Theorem monitorAndSell_sells_at_threshold
        (env : Env) (tokenAddress : string) (initialPrice : Js.value)
        (fuel : nat) (tr : Trace) :
  Js.is_null initialPrice = false ->
  let target := (Js.ToNumber initialPrice * 1.2)%float in
  let meets (k : nat) :=
    match seen env tokenAddress (polled env tokenAddress initialPrice k tr) with
    | Some info => Js.ge (Js.ToNumber (price info)) target
    | None => false
    end in
  let run := monitorAndSell env tokenAddress initialPrice fuel tr in
  ((exists k, (k < fuel)%nat /\ meets k = true)
   <-> (calls isTradeCall tr < calls isTradeCall (snd run))%nat) /\
  (forall k,
      (k < fuel)%nat -> meets k = true -> (forall j, (j < k)%nat -> meets j = false) ->
      let before := polled env tokenAddress initialPrice k tr in
      calls isTradeCall before = calls isTradeCall tr /\
      run = (Returned tt,
             snd (tradeTokenWithJupiter env tokenAddress 100 false 5 3
                    (sellPoint env tokenAddress initialPrice before)))) /\
  ((forall j, (j < fuel)%nat -> meets j = false) ->
   run = (Running, polled env tokenAddress initialPrice fuel tr)).
Proof.
  intros Hnull target meets run.
  assert (Emeets : meets = fun k => targetMet env tokenAddress initialPrice
                                      (polled env tokenAddress initialPrice k tr))
    by reflexivity.
  clearbody meets. clear target. subst meets.
  assert (Erun : run = monitorLoop env tokenAddress initialPrice fuel tr).
  { subst run. unfold monitorAndSell. now rewrite Hnull. }
  rewrite Erun. clear Erun run. cbn beta.
  destruct (monitorLoop_cases env tokenAddress initialPrice fuel tr)
    as [(k & Hk & Hm & Hfirst & Run) | (Hnone & Run)]; rewrite Run; cbn [snd].
  - destruct (sellAll_trades env tokenAddress
                (sellPoint env tokenAddress initialPrice
                   (polled env tokenAddress initialPrice k tr))) as (rest & Esell).
    split; [ split | split ].
    + intros _. rewrite Esell, calls_app, sellPoint_no_trade, polled_no_trade. cbn. lia.
    + intros _. exists k. now split.
    + intros k0 Hk0 Hm0 Hfirst0. cbv zeta.
      assert (k0 = k) as ->.
      { destruct (Nat.lt_trichotomy k0 k) as [Hlt | [Heq | Hgt]]; [ | assumption | ].
        - specialize (Hfirst k0 Hlt). congruence.
        - specialize (Hfirst0 k Hgt). congruence. }
      split; [ apply polled_no_trade | reflexivity ].
    + intros Hnone. specialize (Hnone k Hk). congruence.
  - split; [ split | split ].
    + intros (k & Hk & Hm). specialize (Hnone k Hk). congruence.
    + rewrite polled_no_trade. lia.
    + intros k Hk Hm _. specialize (Hnone k Hk). congruence.
    + intros _. reflexivity.
Qed.

Lemma monitorAndSell_sells_at_threshold_witness :
  let target := (Js.ToNumber (Js.number 1) * 1.2)%float in
  let meets (k : nat) :=
    match seen Sample.rising "MINT" (polled Sample.rising "MINT" (Js.number 1) k []) with
    | Some info => Js.ge (Js.ToNumber (price info)) target
    | None => false
    end in
  let run := monitorAndSell Sample.rising "MINT" (Js.number 1) 5 [] in
  ((exists k, (k < 5)%nat /\ meets k = true)
   <-> (calls isTradeCall [] < calls isTradeCall (snd run))%nat) /\
  (forall k,
      (k < 5)%nat -> meets k = true -> (forall j, (j < k)%nat -> meets j = false) ->
      let before := polled Sample.rising "MINT" (Js.number 1) k [] in
      calls isTradeCall before = calls isTradeCall [] /\
      run = (Returned tt,
             snd (tradeTokenWithJupiter Sample.rising "MINT" 100 false 5 3
                    (sellPoint Sample.rising "MINT" (Js.number 1) before)))) /\
  ((forall j, (j < 5)%nat -> meets j = false) ->
   run = (Running, polled Sample.rising "MINT" (Js.number 1) 5 [])).
Proof.
  apply (monitorAndSell_sells_at_threshold Sample.rising "MINT" (Js.number 1) 5 []).
  reflexivity.
Defined.

(** The scenario of a price of 1.0 and then 1.25 with an initial price of
    1.0: the first poll waits, the second meets the target, and the sell is
    called once, after two price requests. *)
Example sells_on_the_second_poll :
  let run := monitorAndSell Sample.rising "MINT" (Js.number 1) 5 [] in
  targetMet Sample.rising "MINT" (Js.number 1) [] = false /\
  targetMet Sample.rising "MINT" (Js.number 1)
            (polled Sample.rising "MINT" (Js.number 1) 1 []) = true /\
  fst run = Returned tt /\
  calls isAxiosGet (snd run) = 2%nat /\
  retryTrace (snd run) = [Waited 2000; Started].
Proof. vm_compute. repeat split. Qed.

(** C6: called with a null initial price, the monitor logs the error and
    returns: the log line is all it appends, so it makes no network call,
    neither a price request nor a sell. *)
Theorem monitorAndSell_null
        (env : Env) (tokenAddress : string) (fuel : nat) (tr : Trace) :
  monitorAndSell env tokenAddress Js.null fuel tr
  = (Returned tt, tr ++ [Log ERROR FailedToRetrieveInitialPrice])
  /\ calls isNetworkCall (snd (monitorAndSell env tokenAddress Js.null fuel tr))
     = calls isNetworkCall tr.
Proof.
  split; [ reflexivity | ].
  unfold monitorAndSell. cbn [Js.is_null]. unfold logTransaction, emit. cbn [snd].
  rewrite calls_app. cbn. lia.
Qed.

Section Waiting.

Variables (env : Env) (tokenAddress : string).

#[local] Abbreviation available := (available env tokenAddress).
#[local] Abbreviation afterWait := (afterWait env tokenAddress).
#[local] Abbreviation waited := (waited env tokenAddress).

Lemma waitForPriceAvailability_step (fuel : nat) (tr : Trace) :
  waitForPriceAvailability env (S fuel) tokenAddress tr
  = match seen env tokenAddress tr with
    | Some info =>
        if Js.truthy (price info) then
          (Returned (price info),
           snd (getTokenInfo env tokenAddress tr)
           ++ [Log INFO (PriceAvailable tokenAddress (price info) (source info))])
        else waitForPriceAvailability env fuel tokenAddress (afterWait tr)
    | None => waitForPriceAvailability env fuel tokenAddress (afterWait tr)
    end.
Proof.
  unfold afterWait, seen. cbn [waitForPriceAvailability]. cbv zeta.
  unfold bind at 1.
  destruct (getTokenInfo_returns env tokenAddress tr) as (q & _ & _ & R).
  destruct (getTokenInfo env tokenAddress tr) as [[[info | ] | | | ] tr1];
    cbn [fst snd] in R |- *; try contradiction.
  - destruct (Js.truthy (price info)).
    + reflexivity.
    + unfold bind at 1, logTransaction at 1, emit at 1.
      unfold bind at 1, sleep at 1, emit at 1.
      now rewrite <- app_assoc.
  - unfold bind at 1, logTransaction at 1, emit at 1.
    unfold bind at 1, sleep at 1, emit at 1.
    now rewrite <- app_assoc.
Qed.

(** Either some poll within the fuel is the first to see a truthy price,
    and the loop returns it from that poll; or none does and the loop is
    still polling. *)
Lemma waitForPriceAvailability_cases (fuel : nat) :
  forall tr,
    (exists k info,
        (k < fuel)%nat /\ seen env tokenAddress (waited k tr) = Some info /\
        Js.truthy (price info) = true /\
        (forall j, (j < k)%nat -> available (waited j tr) = false) /\
        waitForPriceAvailability env fuel tokenAddress tr
        = (Returned (price info),
           snd (getTokenInfo env tokenAddress (waited k tr))
           ++ [Log INFO (PriceAvailable tokenAddress (price info) (source info))]))
    \/ ((forall j, (j < fuel)%nat -> available (waited j tr) = false) /\
        waitForPriceAvailability env fuel tokenAddress tr = (Running, waited fuel tr)).
Proof.
  induction fuel as [ | fuel IH]; intros tr.
  - right. split; [ intros; lia | reflexivity ].
  - rewrite waitForPriceAvailability_step.
    assert (Hnext : available tr = false ->
              (exists k info,
                  (k < S fuel)%nat /\ seen env tokenAddress (waited k tr) = Some info /\
                  Js.truthy (price info) = true /\
                  (forall j, (j < k)%nat -> available (waited j tr) = false) /\
                  waitForPriceAvailability env fuel tokenAddress (afterWait tr)
                  = (Returned (price info),
                     snd (getTokenInfo env tokenAddress (waited k tr))
                     ++ [Log INFO (PriceAvailable tokenAddress (price info) (source info))]))
              \/ ((forall j, (j < S fuel)%nat -> available (waited j tr) = false) /\
                  waitForPriceAvailability env fuel tokenAddress (afterWait tr)
                  = (Running, waited (S fuel) tr))).
    { intros Hno.
      destruct (IH (afterWait tr)) as [(k & info & Hk & Hs & Ht & Hfirst & Run) | (Hnone & Run)].
      - left. exists (S k), info. repeat split; [ lia | exact Hs | exact Ht | | exact Run ].
        intros [ | j] Hj; [ exact Hno | apply Hfirst; lia ].
      - right. split; [ | exact Run ].
        intros [ | j] Hj; [ exact Hno | apply Hnone; lia ]. }
    unfold available in Hnext at 1 3.
    destruct (seen env tokenAddress tr) as [info | ] eqn:Hseen; [ | now apply Hnext ].
    destruct (Js.truthy (price info)) eqn:Htruthy; [ | now apply Hnext ].
    left. exists 0%nat, info. cbn [waited].
    repeat split; [ lia | exact Hseen | exact Htruthy | intros; lia ].
Qed.

Lemma waited_requests (k : nat) :
  forall tr, calls isAxiosGet (waited k tr) = (calls isAxiosGet tr + k)%nat.
Proof.
  induction k as [ | k IH]; intros tr; cbn [waited]; [ lia | ].
  rewrite IH. unfold afterWait.
  rewrite calls_app, (proj1 (getTokenInfo_one_request env tokenAddress tr)).
  cbn. lia.
Qed.

End Waiting.

(** C4, as amended: [waitForPriceAvailability] returns on exactly the first
    price fetch whose result is non-null with a truthy price, and returns
    that price: if this is fetch number [k + 1], the call has made
    [k + 1] price requests when it returns.  As long as every fetch
    yields null or a falsy price (undefined, null, 0, NaN, false) it keeps
    polling: it never returns early. *)
Theorem waitForPriceAvailability_first_truthy
        (env : Env) (tokenAddress : string) (fuel : nat) (tr : Trace) :
  let state (k : nat) := waited env tokenAddress k tr in
  let good (k : nat) := available env tokenAddress (state k) in
  let run := waitForPriceAvailability env fuel tokenAddress tr in
  (forall k,
      (k < fuel)%nat -> good k = true -> (forall j, (j < k)%nat -> good j = false) ->
      exists info,
        seen env tokenAddress (state k) = Some info /\
        Js.truthy (price info) = true /\
        fst run = Returned (price info) /\
        calls isAxiosGet (snd run) = (calls isAxiosGet tr + k + 1)%nat) /\
  ((forall j, (j < fuel)%nat -> good j = false) ->
   run = (Running, state fuel) /\
   calls isAxiosGet (state fuel) = (calls isAxiosGet tr + fuel)%nat) /\
  (forall t, seen env tokenAddress t = None -> available env tokenAddress t = false) /\
  (forall t info,
      seen env tokenAddress t = Some info ->
      In (price info) [Js.undefined; Js.null; Js.number 0; Js.number nan; Js.boolean false] ->
      available env tokenAddress t = false).
Proof.
  intros state good run. subst run good state. cbn beta.
  pose proof (waitForPriceAvailability_cases env tokenAddress fuel tr) as Cases.
  split; [ | split; [ | split ] ].
  - intros k Hk Hgood Hfirst.
    destruct Cases as [(k' & info & Hk' & Hs & Ht & Hfirst' & Run) | (Hnone & Run)].
    + assert (k' = k) as ->.
      { destruct (Nat.lt_trichotomy k' k) as [Hlt | [Heq | Hgt]]; [ | assumption | ].
        - specialize (Hfirst k' Hlt).
          unfold available in Hfirst. rewrite Hs, Ht in Hfirst. discriminate.
        - specialize (Hfirst' k Hgt). congruence. }
      exists info. rewrite Run. cbn [fst snd]. repeat split; trivial.
      rewrite calls_app, (proj1 (getTokenInfo_one_request env tokenAddress _)).
      rewrite waited_requests. cbn. lia.
    + specialize (Hnone k Hk). congruence.
  - intros Hnever. split; [ | apply waited_requests ].
    destruct Cases as [(k' & info & Hk' & Hs & Ht & Hfirst' & Run) | (Hnone & Run)];
      [ | exact Run ].
    specialize (Hnever k' Hk').
    unfold available in Hnever. rewrite Hs, Ht in Hnever. discriminate.
  - intros t Hs. unfold available. now rewrite Hs.
  - intros t info Hs Hin. unfold available. rewrite Hs.
    cbn [In] in Hin.
    destruct Hin as [<- | [<- | [<- | [<- | [<- | []]]]]]; reflexivity.
Qed.

Lemma waitForPriceAvailability_first_truthy_witness :
  exists info,
    seen Sample.late "MINT" (waited Sample.late "MINT" 2 []) = Some info /\
    Js.truthy (price info) = true /\
    fst (waitForPriceAvailability Sample.late 5 "MINT" []) = Returned (price info) /\
    calls isAxiosGet (snd (waitForPriceAvailability Sample.late 5 "MINT" []))
    = (calls isAxiosGet [] + 2 + 1)%nat.
Proof.
  apply (proj1 (waitForPriceAvailability_first_truthy Sample.late "MINT" 5 []) 2%nat).
  - lia.
  - reflexivity.
  - intros [ | [ | j]] Hj; [ reflexivity | reflexivity | lia ].
Defined.

(** C4 as stated, refuted: the first fetch returns a non-null result whose
    price field is defined, the number 0, and [waitForPriceAvailability]
    does not return on it: after five such fetches it is still polling. *)
Lemma waitForPriceAvailability_skips_zero :
  fst (getTokenInfo Sample.worthless "MINT" [])
  = Returned (Some {| price := Js.number 0; source := "jupiter"; isFreezable := false |})
  /\ fst (waitForPriceAvailability Sample.worthless 5 "MINT" []) = Running
  /\ calls isAxiosGet (snd (waitForPriceAvailability Sample.worthless 5 "MINT" [])) = 5%nat.
Proof. vm_compute. repeat split. Qed.

(** ** Configuration at start-up *)

(** C9, as amended: when [PRIVATE_KEY] is absent (or empty) the module
    throws on line 17, before anything is logged and before
    [checkEnvVariables] can run; when [PRIVATE_KEY] is present and is a
    secret key and [API_KEY] is absent, [checkEnvVariables] logs the list
    of the missing variables, which is [API_KEY] alone, and the process
    exits with code 1 before any network call; and [checkEnvVariables],
    whenever it runs with some required variable missing, logs the missing
    ones and exits with code 1. *)
Theorem missing_configuration (env : Env) (fuel : nat) (tr : Trace) :
  (unset env "PRIVATE_KEY" = true ->
   moduleBody env fuel tr
   = (Threw (Js.mkError "PRIVATE_KEY environment variable is not set."), tr)) /\
  (forall privateKey,
      process_env env "PRIVATE_KEY" = Some privateKey ->
      Js.nonempty privateKey = true ->
      isSecretKey env privateKey = true ->
      unset env "API_KEY" = true ->
      moduleBody env fuel tr
      = (Exited 1, tr ++ [Log ERROR (MissingEnvironmentVariables ["API_KEY"])])) /\
  (forall first others,
      filter (unset env) requiredEnvVars = first :: others ->
      checkEnvVariables env tr
      = (Exited 1, tr ++ [Log ERROR (MissingEnvironmentVariables (first :: others))])).
Proof.
  repeat split.
  - intros Hunset. unfold moduleBody. now rewrite Hunset.
  - intros privateKey Hkey Hnonempty Hsecret Hapi.
    assert (Hset : unset env "PRIVATE_KEY" = false).
    { unfold unset. now rewrite Hkey, Hnonempty. }
    unfold moduleBody. rewrite Hset, Hkey, Hsecret.
    unfold main, tryCatch, checkEnvVariables. unfold bind at 1.
    cbn [requiredEnvVars filter]. rewrite Hset, Hapi.
    reflexivity.
  - intros first others Hmissing.
    unfold checkEnvVariables. rewrite Hmissing. reflexivity.
Qed.

Lemma missing_configuration_witness :
  moduleBody (Sample.world (fun _ => Sample.priced "MINT" 1) (fun _ => Fulfilled "uuid")
                           1000000000 Sample.someTokens Sample.onlyPrivateKey) 3 []
  = (Exited 1, [] ++ [Log ERROR (MissingEnvironmentVariables ["API_KEY"])]).
Proof.
  apply (proj1 (proj2 (missing_configuration
                         (Sample.world (fun _ => Sample.priced "MINT" 1)
                                       (fun _ => Fulfilled "uuid")
                                       1000000000 Sample.someTokens Sample.onlyPrivateKey)
                         3 [])) "secret");
    reflexivity.
Defined.

(** C9 as stated, refuted: with [API_KEY] set and [PRIVATE_KEY] absent, the
    module ends with the exception of line 17: no list of missing variables
    is logged and [process.exit(1)] is not called, although
    [checkEnvVariables], had it run, would have reported [PRIVATE_KEY]. *)
Lemma private_key_is_never_reported :
  let env := Sample.world (fun _ => Sample.priced "MINT" 1) (fun _ => Fulfilled "uuid")
                          1000000000 Sample.someTokens Sample.onlyApiKey in
  moduleBody env 3 []
  = (Threw (Js.mkError "PRIVATE_KEY environment variable is not set."), [])
  /\ checkEnvVariables env []
     = (Exited 1, [Log ERROR (MissingEnvironmentVariables ["PRIVATE_KEY"])]).
Proof. vm_compute. split; reflexivity. Qed.

(** ** The delay on doubles *)

(** X15: [Math.pow(2, retries) * 1000] on doubles is the integer [backoff
    retries] for every number of retries up to 1014; at 1015 the product
    is infinite, see [backoff_overflows]. *)
Lemma backoff_is_the_double (retries : Z) :
  0 <= retries <= 1014 ->
  integerOf (Js.of_Z (2 ^ retries) * 1000)%float = Some (backoff retries).
Proof.
  intros H.
  assert (all : forallb (fun k => match integerOf (Js.of_Z (2 ^ k) * 1000)%float with
                                  | Some z => z =? backoff k
                                  | None => false
                                  end) (seqZ 0 1015) = true)
    by (vm_compute; reflexivity).
  rewrite forallb_forall in all.
  specialize (all retries (In_seqZ retries 0 1015 ltac:(lia))).
  destruct (integerOf _) as [z | ]; [ | discriminate ].
  apply Z.eqb_eq in all. now subst.
Qed.

(** The same for [delayInDoubles], and for the delays of a run of rounds. *)
Lemma delayInDoubles_exact (retries : Z) :
  0 <= retries <= 1014 ->
  integerOf (delayInDoubles retries) = Some (2 ^ retries * 1000).
Proof.
  intros H.
  assert (all : forallb (fun k => match integerOf (delayInDoubles k) with
                                  | Some z => z =? 2 ^ k * 1000
                                  | None => false
                                  end) (seqZ 0 1015) = true)
    by (vm_compute; reflexivity).
  rewrite forallb_forall in all.
  specialize (all retries (In_seqZ retries 0 1015 ltac:(lia))).
  destruct (integerOf _) as [z | ]; [ | discriminate ].
  apply Z.eqb_eq in all. now subst.
Qed.

Lemma delays_in_doubles (first : Z) (count : nat) :
  0 <= first -> first + Z.of_nat count <= 1015 ->
  map Some (map (fun k => 2 ^ k * 1000) (seqZ first count))
  = map (fun k => integerOf (delayInDoubles k)) (seqZ first count).
Proof.
  revert first. induction count as [ | count IH]; intros first Hf Hc; [ reflexivity | ].
  cbn [seqZ map]. rewrite delayInDoubles_exact by lia. f_equal. apply IH; lia.
Qed.

(** * Further properties *)

(** ** More on the retry loop *)

Lemma settles_events {A} (P P' : Event -> Prop) (Q : A -> Prop) (m : M A) :
  settles P Q m -> (forall e, P e -> P' e) -> settles P' Q m.
Proof.
  intros Hm HP tr. destruct (Hm tr) as (d & E & F & R).
  exists d. repeat split; trivial. eapply Forall_impl; eauto.
Qed.

Lemma settles_tryCatch {A} (P : Event -> Prop) (Q : A -> Prop)
      (m : M A) (h : Js.Error -> M A) :
  settles P Q m -> (forall e, settles P Q (h e)) -> settles P Q (tryCatch m h).
Proof.
  intros Hm Hh tr. destruct (Hm tr) as (d & E & F & R).
  unfold tryCatch. destruct (m tr) as [[a | e | c | ] tr1]; cbn in *; try tauto.
  - exists d. auto.
  - subst tr1. destruct (Hh e (tr ++ d)) as (d' & E' & F' & R').
    exists (d ++ d'). rewrite E', app_assoc. repeat split; trivial.
    apply Forall_app; auto.
Qed.

Lemma getTokenInfo_settles (P : Event -> Prop) (env : Env) (mint : string) :
  (forall e, isPriceQuery e = true -> P e) ->
  settles P (fun _ => True) (getTokenInfo env mint).
Proof.
  intros HP. eapply settles_events; [ | exact HP ].
  apply returns_settles, getTokenInfo_returns.
Qed.

Lemma total_app (a b : list Z) : total (a ++ b) = total a + total b.
Proof. unfold total. induction a as [ | x a IH]; cbn; lia. Qed.

(** The delays of [count] rounds that start at round [first] add up to
    [1000 * (2^(first + count) - 2^first)]. *)
Lemma total_backoff (first : Z) (count : nat) :
  0 <= first ->
  total (map backoff (seqZ first count)) = 1000 * (2 ^ (first + Z.of_nat count) - 2 ^ first).
Proof.
  revert first. induction count as [ | count IH]; intros first Hf.
  - cbn [seqZ map total fold_right]. rewrite Z.add_0_r. lia.
  - cbn [seqZ map]. unfold total in *. cbn [fold_right]. rewrite IH by lia.
    unfold backoff.
    replace (first + 1 + Z.of_nat count) with (first + Z.of_nat (S count)) by lia.
    rewrite (Z.pow_add_r 2 first 1) by lia. lia.
Qed.

Section MoreLoop.

Variables (env : Env) (tokenAddress : string) (percentage : float)
          (isBuy : bool) (slippage : float) (maxRetries : Z).

#[local] Abbreviation Looped := (Looped env tokenAddress percentage isBuy slippage maxRetries).
#[local] Abbreviation Ran := (Ran env tokenAddress isBuy maxRetries).
#[local] Abbreviation Attempted := (Attempted env tokenAddress isBuy).

Lemma tradeLoop_looped (fuel : nat) :
  forall retries tr,
    (Z.to_nat (maxRetries - retries) <= fuel)%nat ->
    exists result tr',
      tradeLoop env tokenAddress percentage isBuy slippage maxRetries fuel retries tr
      = (Returned result, tr')
      /\ Looped retries tr result tr'.
Proof.
  induction fuel as [ | fuel IH]; intros retries tr Hfuel; cbn [tradeLoop];
    destruct (Z.ltb_spec retries maxRetries) as [Hlt | Hge].
  - exfalso. lia.
  - eexists _, _. split; [ reflexivity | now constructor ].
  - unfold tryCatch.
    pose proof (attempt_anatomy env tokenAddress percentage isBuy slippage tr) as HA.
    destruct (attempt env tokenAddress percentage isBuy slippage tr) as [o tr1] eqn:Run.
    cbn [fst snd] in HA.
    destruct o as [result | error | code | ]; try (now inversion HA).
    + eexists _, _. split; [ reflexivity | now apply looped_returned ].
    + cbv zeta. unfold bind at 1, logTransaction at 1, emit at 1.
      destruct (retries + 1 >=? maxRetries) eqn:G; rewrite Z.geb_leb in G.
      * apply Z.leb_le in G.
        eexists _, _. split.
        -- unfold bind, logTransaction, emit, ret. rewrite <- app_assoc. reflexivity.
        -- now apply looped_exhausted.
      * apply Z.leb_gt in G.
        unfold bind at 1, sleep at 1, emit at 1. rewrite <- app_assoc. cbn [app].
        destruct (IH (retries + 1)
                     (tr1 ++ [failureLogged retries error;
                              SetTimeout (backoff (retries + 1))]))
          as (result & tr' & E & R); [ lia | ].
        exists result, tr'. split; [ exact E | ].
        now apply looped_retried with (error := error) (tr' := tr1).
  - eexists _, _. split; [ reflexivity | now constructor ].
Qed.

Lemma tradeTokenWithJupiter_looped (tr : Trace) :
  exists result tr',
    tradeTokenWithJupiter env tokenAddress percentage isBuy slippage maxRetries tr
    = (Returned result, tr')
    /\ Looped 0 tr result tr'.
Proof.
  unfold tradeTokenWithJupiter. apply tradeLoop_looped.
  rewrite Z.sub_0_r. lia.
Qed.

Lemma attempt_attempted (tr : Trace) (o : Outcome TradeResult) (tr' : Trace) :
  attempt env tokenAddress percentage isBuy slippage tr = (o, tr') -> Attempted tr o tr'.
Proof.
  intros E. pose proof (attempt_anatomy env tokenAddress percentage isBuy slippage tr) as H.
  now rewrite E in H.
Qed.

Lemma looped_ran retries tr result tr' :
  Looped retries tr result tr' -> Ran retries tr result tr'.
Proof.
  induction 1 as [retries tr Hge
                 | retries tr result tr' Hlt HA
                 | retries tr error tr' Hlt Hge HA
                 | retries tr error tr' result tr'' Hlt HA _ IH].
  - now apply ran_skipped.
  - apply ran_returned; [ assumption | now apply attempt_attempted ].
  - apply ran_exhausted; [ assumption.. | now apply attempt_attempted ].
  - eapply ran_retried; [ assumption | apply attempt_attempted; eassumption | exact IH ].
Qed.

(** An attempt sends one bundle at most. *)
Lemma attempted_count (tr : Trace) (o : Outcome TradeResult) (tr' : Trace) :
  Attempted tr o tr' ->
  (calls isSendBundle tr <= calls isSendBundle tr' <= S (calls isSendBundle tr))%nat.
Proof.
  destruct 1 as [error d Hd | d Hd | d bundle error Hd Ha
                | d bundle u Hd Ha Hu | d bundle u Hd Ha Hu tr1].
  - rewrite calls_app, calls_cons, (Preparation_no_bundle d Hd). cbn. lia.
  - rewrite calls_app, calls_cons, (Preparation_no_bundle d Hd). cbn. lia.
  - rewrite calls_app, calls_cons, calls_app, (Preparation_no_bundle d Hd). cbn. lia.
  - rewrite calls_app, calls_cons, calls_app, (Preparation_no_bundle d Hd). cbn. lia.
  - assert (E1 : calls isSendBundle tr1 = S (calls isSendBundle tr)).
    { subst tr1. rewrite calls_app, calls_cons, calls_app, (Preparation_no_bundle d Hd).
      cbn. lia. }
    unfold afterCapture. destruct isBuy; [ | lia ].
    destruct (afterCapture_buy env tokenAddress tr1) as (q & Eq & Hq & _).
    rewrite Eq, !calls_app, (price_query_no_bundle q Hq). cbn. lia.
Qed.

(** A successful attempt is one whose bundle the relay accepted; a sell
    that succeeds carries a null price. *)
Lemma attempted_success (tr : Trace) (p : Js.value) (tr' : Trace) :
  Attempted tr (Returned (TradeSuccess p)) tr' ->
  calls isSendBundle tr' = S (calls isSendBundle tr) /\
  (exists bundleUuid,
      sendBundle env (calls isSendBundle tr) = Fulfilled bundleUuid /\
      Js.nonempty bundleUuid = true) /\
  (isBuy = false -> p = Js.null).
Proof.
  intros H.
  inversion H as [ | | | | d bundle u Hd Ha Hu tr1 Hp Htr]; subst.
  assert (E1 : calls isSendBundle tr1 = S (calls isSendBundle tr)).
  { subst tr1. rewrite calls_app, calls_cons, calls_app, (Preparation_no_bundle d Hd).
    cbn. lia. }
  repeat split.
  - unfold afterCapture. destruct isBuy; [ | exact E1 ].
    destruct (afterCapture_buy env tokenAddress tr1) as (q & Eq & Hq & _).
    rewrite Eq, !calls_app, (price_query_no_bundle q Hq). cbn. lia.
  - eauto.
  - intros ->. reflexivity.
Qed.

Lemma ran_success retries tr result tr' :
  Ran retries tr result tr' ->
  (calls isSendBundle tr <= calls isSendBundle tr')%nat /\
  forall p,
    result = TradeSuccess p ->
    (calls isSendBundle tr < calls isSendBundle tr')%nat /\
    (exists bundleUuid,
        sendBundle env (Nat.pred (calls isSendBundle tr')) = Fulfilled bundleUuid /\
        Js.nonempty bundleUuid = true) /\
    (isBuy = false -> p = Js.null).
Proof.
  induction 1 as [retries tr Hge
                 | retries tr result tr' Hlt HA
                 | retries tr error tr' Hlt Hge HA
                 | retries tr error tr' result tr'' Hlt HA _ IH].
  - split; [ lia | discriminate ].
  - split; [ apply (attempted_count _ _ _ HA) | ].
    intros p ->. destruct (attempted_success _ _ _ HA) as (E & Hu & Hp).
    rewrite E. cbn [Nat.pred]. repeat split; trivial. lia.
  - pose proof (attempted_count _ _ _ HA) as Hc.
    split; [ rewrite calls_app; cbn; lia | discriminate ].
  - pose proof (attempted_count _ _ _ HA) as Hc.
    destruct IH as (Hle & IH). rewrite calls_app in Hle, IH. cbn in Hle, IH.
    split; [ lia | ].
    intros p Hp. destruct (IH p Hp) as (Hlt' & Hu & Hnull).
    repeat split; trivial. lia.
Qed.

(** The bundles sent in a run are no more than its attempts. *)
Lemma ran_bundles retries tr result tr' :
  Ran retries tr result tr' ->
  exists d, tr' = tr ++ d /\
            (calls isSendBundle d <= attempts (retryTrace d))%nat.
Proof.
  induction 1 as [retries tr Hge
                 | retries tr result tr' Hlt HA
                 | retries tr error tr' Hlt Hge HA
                 | retries tr error tr' result tr'' Hlt HA _ IH].
  - exists []. rewrite app_nil_r. split; [ reflexivity | cbn; lia ].
  - pose proof (attempted_count _ _ _ HA) as Hc.
    pose proof (attempted_view _ _ _ _ _ _ HA) as Hv.
    destruct (attempted_events _ _ _ _ _ _ HA) as (d & -> & _).
    exists (started tokenAddress isBuy :: d). split; [ reflexivity | ].
    rewrite retryTrace_app in Hv. apply app_inv_head in Hv. rewrite Hv.
    rewrite calls_app in Hc. cbn in Hc |- *. lia.
  - pose proof (attempted_count _ _ _ HA) as Hc.
    pose proof (attempted_view _ _ _ _ _ _ HA) as Hv.
    destruct (attempted_events _ _ _ _ _ _ HA) as (d & -> & _).
    eexists. split; [ rewrite <- app_assoc; reflexivity | ].
    rewrite retryTrace_app in Hv. apply app_inv_head in Hv.
    rewrite retryTrace_app, Hv, calls_app, attempts_app.
    rewrite calls_app in Hc. cbn in Hc |- *. lia.
  - pose proof (attempted_count _ _ _ HA) as Hc.
    pose proof (attempted_view _ _ _ _ _ _ HA) as Hv.
    destruct (attempted_events _ _ _ _ _ _ HA) as (d & -> & _).
    destruct IH as (d' & -> & IH).
    eexists. split; [ rewrite <- !app_assoc; reflexivity | ].
    rewrite retryTrace_app in Hv. apply app_inv_head in Hv.
    rewrite !retryTrace_app, Hv, !calls_app, !attempts_app.
    rewrite calls_app in Hc. cbn in Hc, IH |- *. lia.
Qed.

End MoreLoop.

Section MoreAttempt.

Variables (env : Env) (tokenAddress : string) (percentage slippage : float).

(** Once the trade is sized, an attempt can only succeed or throw. *)
Lemma continue_settles (P : Event -> Prop) (isBuy : bool)
      (amount : float) (inputMint outputMint : string) :
  (forall e, isPreparation e = true -> P e) ->
  (forall e, isAttemptEvent e = true -> P e) ->
  settles P (fun r => exists p, r = TradeSuccess p)
          (bind (submit env slippage amount inputMint outputMint)
                (afterSubmit env tokenAddress isBuy)).
Proof.
  intros Hprep Hatt.
  eapply settles_bind with (Q1 := fun _ => True).
  - unfold submit. eapply settles_bind with (Q1 := fun _ => True).
    + eapply settles_events; [ apply prepareBundle_settles | exact Hprep ].
    + intros bundle _. apply settles_await; [ now apply Hatt | trivial ].
  - intros bundleUuid _. unfold afterSubmit.
    destruct (Js.nonempty bundleUuid); [ | apply settles_throw ].
    eapply settles_bind with (Q1 := fun _ => True);
      [ apply settles_emit; [ now apply Hatt | trivial ] | intros _ _ ].
    eapply settles_bind with (Q1 := fun _ => True);
      [ apply settles_emit; [ now apply Hatt | trivial ] | intros _ _ ].
    eapply settles_bind with (Q1 := fun _ => True).
    + destruct isBuy; [ | now apply settles_ret ].
      eapply settles_bind with (Q1 := fun _ => True).
      * apply getTokenInfo_settles. intros e He. now apply Hatt, price_query_is_attempt.
      * intros info _. cbv zeta.
        eapply settles_bind with (Q1 := fun _ => True);
          [ apply settles_emit; [ now apply Hatt | trivial ] | intros _ _ ].
        now apply settles_ret.
    + intros p _. apply settles_ret. eauto.
Qed.

(** The token account of a sell is read or the attempt throws: a sell has
    no early [return]. *)
Lemma sizeTrade_sell_settles :
  settles (fun e => isPreparation e = true)
          (fun sized => match sized with inl _ => False | inr _ => True end)
          (sizeTrade env tokenAddress percentage false).
Proof. unfold sizeTrade, newPublicKey. cbv iota. repeat settle_step; auto. Qed.

(** An attempt returns false in one way only: it is a buy, the balance was
    read, and the amount is negative. *)
Lemma attempt_false (isBuy : bool) (tr tr' : Trace) :
  attempt env tokenAddress percentage isBuy slippage tr = (Returned TradeFalse, tr') ->
  isBuy = true /\
  exists balance,
    getBalance env (calls isGetBalance tr) = Fulfilled balance /\
    Js.lt (buyAmount percentage balance) 0 = true /\
    tr' = tr ++ [Log INFO (StartingTransaction true tokenAddress);
                 GetBalance; Log ERROR AmountLessThanFees].
Proof.
  rewrite attempt_unfold.
  set (st := tr ++ [Log INFO (StartingTransaction isBuy tokenAddress)]).
  assert (Hgo : forall amount inputMint outputMint tr0,
             bind (submit env slippage amount inputMint outputMint)
                  (afterSubmit env tokenAddress isBuy) tr0
             <> (Returned TradeFalse, tr')).
  { intros amount inputMint outputMint tr0 E.
    destruct (continue_settles (fun _ => True) isBuy amount inputMint outputMint
                (fun _ _ => I) (fun _ _ => I) tr0) as (d & _ & _ & R).
    rewrite E in R. cbn in R. destruct R as (p & [=]). }
  destruct isBuy.
  - assert (Hidx : calls isGetBalance st = calls isGetBalance tr).
    { subst st. rewrite calls_app. cbn. lia. }
    destruct (getBalance env (calls isGetBalance tr)) as [balance | error] eqn:Hbalance.
    + rewrite (sizeTrade_buy env tokenAddress percentage st balance)
        by (now rewrite Hidx).
      destruct (Js.lt (buyAmount percentage balance) 0) eqn:Hneg.
      * intros [= <-]. split; [ reflexivity | ]. exists balance.
        repeat split; trivial. subst st. now rewrite <- app_assoc.
      * intros E. now apply Hgo in E.
    + unfold sizeTrade. unfold bind at 1, await at 1. rewrite Hidx, Hbalance.
      discriminate.
  - destruct (sizeTrade_sell_settles st) as (d & _ & _ & R).
    destruct (sizeTrade env tokenAddress percentage false st)
      as [[[result | [[amount inputMint] outputMint]] | error | code | ] tr1];
      cbn [fst] in R; try contradiction; try discriminate.
    intros E. now apply Hgo in E.
Qed.

(** A sell appends sell events only, a buy buy events only. *)
Lemma attempt_sell_settles :
  settles (fun e => isSellEvent e = true) (fun _ => True)
          (attempt env tokenAddress percentage false slippage).
Proof.
  unfold attempt.
  eapply settles_bind with (Q1 := fun _ => True);
    [ now apply settles_emit | intros _ _ ].
  eapply settles_bind
    with (Q1 := fun sized => match sized with inl _ => False | inr _ => True end).
  - unfold sizeTrade, newPublicKey. cbv iota. repeat settle_step; auto.
  - intros [result | [[amount inputMint] outputMint]] Hs; [ contradiction | ].
    unfold submit, prepareBundle, afterSubmit, newPublicKey. cbv beta iota.
    repeat settle_step; auto.
Qed.

Lemma attempt_buy_settles :
  settles (fun e => isBuyEvent e = true) (fun _ => True)
          (attempt env tokenAddress percentage true slippage).
Proof.
  assert (Hq : forall e, isPriceQuery e = true -> isBuyEvent e = true).
  { intros e. destruct e as [[] [] | | | | | | | | | | | ]; cbn; congruence. }
  unfold attempt, sizeTrade, submit, prepareBundle, afterSubmit, newPublicKey.
  cbv iota.
  repeat first [ settle_step | apply getTokenInfo_settles; exact Hq ]; auto.
Qed.

End MoreAttempt.

Section MoreRuns.

Variables (env : Env) (tokenAddress : string) (percentage : float) (isBuy : bool)
          (slippage : float) (maxRetries : Z).

#[local] Abbreviation Looped := (Looped env tokenAddress percentage isBuy slippage maxRetries).

(** A run of the loop that returns false ends in one of two ways. *)
Lemma looped_false retries tr result tr' :
  Looped retries tr result tr' ->
  result = TradeFalse ->
  (isBuy = true /\
   exists pre balance,
     getBalance env (calls isGetBalance pre) = Fulfilled balance /\
     Js.lt (buyAmount percentage balance) 0 = true /\
     tr' = pre ++ [Log INFO (StartingTransaction true tokenAddress);
                   GetBalance; Log ERROR AmountLessThanFees])
  \/ (exists pre error,
         tr' = pre ++ [Log WARN (AttemptFailed maxRetries (Js.message error));
                       Log ERROR (MaxRetriesReached error)]).
Proof.
  induction 1 as [retries tr Hge
                 | retries tr result tr' Hlt Run
                 | retries tr error tr' Hlt Hge Run
                 | retries tr error tr' result tr'' Hlt Run _ IH]; intros Hres.
  - discriminate.
  - subst result. apply attempt_false in Run as (Hbuy & balance & Hb & Hneg & ->).
    left. split; [ exact Hbuy | ]. now exists tr, balance.
  - right. exists tr', error. unfold failureLogged.
    now replace (retries + 1) with maxRetries by lia.
  - now apply IH.
Qed.

(** What one attempt may append, the whole run may append, with the lines
    and timers of the retry loop. *)
Lemma looped_events (P : Event -> Prop) retries tr result tr' :
  settles P (fun _ => True) (attempt env tokenAddress percentage isBuy slippage) ->
  (forall n message, P (Log WARN (AttemptFailed n message))) ->
  (forall error, P (Log ERROR (MaxRetriesReached error))) ->
  (forall ms, P (SetTimeout ms)) ->
  Looped retries tr result tr' ->
  exists d, tr' = tr ++ d /\ Forall P d.
Proof.
  intros Hattempt Hwarn Hmax Htimer.
  induction 1 as [retries tr Hge
                 | retries tr result tr' Hlt Run
                 | retries tr error tr' Hlt Hge Run
                 | retries tr error tr' result tr'' Hlt Run _ IH].
  - exists []. now rewrite app_nil_r.
  - destruct (Hattempt tr) as (d & E & F & _). rewrite Run in E. cbn in E.
    now exists d.
  - destruct (Hattempt tr) as (d & E & F & _). rewrite Run in E. cbn in E. subst tr'.
    exists (d ++ [failureLogged retries error; Log ERROR (MaxRetriesReached error)]).
    split; [ now rewrite app_assoc | ].
    apply Forall_app. split; [ exact F | ].
    repeat constructor; [ apply Hwarn | apply Hmax ].
  - destruct (Hattempt tr) as (d & E & F & _). rewrite Run in E. cbn in E. subst tr'.
    destruct IH as (d' & -> & F').
    exists (d ++ [failureLogged retries error; SetTimeout (backoff (retries + 1))] ++ d').
    split; [ now rewrite <- !app_assoc | ].
    apply Forall_app. split; [ exact F | ].
    apply Forall_app. split; [ | exact F' ].
    repeat constructor; [ apply Hwarn | apply Htimer ].
Qed.

(** A run that enters the loop: [n] attempts throw and are retried, then
    comes the last attempt, which returns or is the failure numbered
    [maxRetries]. *)
Lemma looped_rounds retries tr result tr' :
  Looped retries tr result tr' ->
  retries < maxRetries ->
  exists (n : nat) (before : Trace),
    afterFailures env tokenAddress percentage isBuy slippage retries n tr = Some before /\
    retryTrace before = retryTrace tr ++ rounds (retries + 1) n /\
    (attempt env tokenAddress percentage isBuy slippage before = (Returned result, tr')
     /\ retries + Z.of_nat n < maxRetries
     \/ exists error tr1,
          attempt env tokenAddress percentage isBuy slippage before = (Threw error, tr1) /\
          retries + Z.of_nat n + 1 = maxRetries /\ result = TradeFalse /\
          tr' = tr1 ++ [Log WARN (AttemptFailed maxRetries (Js.message error));
                        Log ERROR (MaxRetriesReached error)]).
Proof.
  induction 1 as [retries tr Hge
                 | retries tr result tr' Hlt Run
                 | retries tr error tr' Hlt Hge Run
                 | retries tr error tr' result tr'' Hlt Run _ IH]; intros Henter.
  - lia.
  - exists 0%nat, tr. cbn [afterFailures rounds]. rewrite app_nil_r.
    repeat split. left. split; [ exact Run | lia ].
  - exists 0%nat, tr. cbn [afterFailures rounds]. rewrite app_nil_r.
    repeat split. right. exists error, tr'.
    repeat split; [ exact Run | lia | ].
    unfold failureLogged. now replace (retries + 1) with maxRetries by lia.
  - destruct (IH Hlt) as (n & before & Hafter & Hview & Hlast).
    exists (S n), before. cbn [afterFailures]. rewrite Run.
    split; [ exact Hafter | ]. split.
    + rewrite Hview, retryTrace_app.
      rewrite (attempted_view _ _ _ _ _ _
                 (attempt_attempted env tokenAddress percentage isBuy slippage tr _ _ Run)).
      rewrite <- !app_assoc. reflexivity.
    + destruct Hlast as [(Hreturned & Hn) | (error' & tr1 & Hthrew & Hn & Hres & Htr)].
      * left. split; [ exact Hreturned | lia ].
      * right. exists error', tr1. repeat split; trivial. lia.
Qed.

End MoreRuns.

(** ** Retries and their delays *)

(** C3, as amended: for every [maxRetries] from 1 to 1015 a call returns,
    after [n + 1] attempts with [n < maxRetries]: the first [n] attempts
    threw, the k-th of them was logged as failure k and followed by a delay
    of [2^k * 1000] milliseconds, which is the value that line 224 computes
    on doubles; then came one last attempt.  Either that one returned, and
    the call returns what it returned; or it threw, it was failure number
    [maxRetries], and the call returned false with no delay and no attempt
    after it.  So there are at most [maxRetries] attempts, the delays are
    2000, 4000, ... in this order, strictly increasing, and [maxRetries]
    failures mean the result false after exactly [maxRetries] attempts. *)
Theorem tradeTokenWithJupiter_retries
        (env : Env) (tokenAddress : string) (percentage : float) (isBuy : bool)
        (slippage : float) (maxRetries : Z) (tr : Trace) :
  1 <= maxRetries ->
  maxRetries <= 1015 ->
  exists (result : TradeResult) (d : Trace) (n : nat),
    tradeTokenWithJupiter env tokenAddress percentage isBuy slippage maxRetries tr
    = (Returned result, tr ++ d) /\
    (retryTrace d = rounds 1 n ++ [Started] /\ Z.of_nat n < maxRetries
     \/ retryTrace d = rounds 1 n ++ [Started; Failed maxRetries]
        /\ Z.of_nat n + 1 = maxRetries /\ result = TradeFalse) /\
    Z.of_nat (attempts (retryTrace d)) <= maxRetries /\
    delays (retryTrace d) = map (fun k => 2 ^ k * 1000) (seqZ 1 n) /\
    map Some (delays (retryTrace d))
    = map (fun k => integerOf (delayInDoubles k)) (seqZ 1 n) /\
    StronglySorted Z.lt (delays (retryTrace d)) /\
    (Z.of_nat (failures (retryTrace d)) = maxRetries ->
     result = TradeFalse /\ Z.of_nat (attempts (retryTrace d)) = maxRetries) /\
    exists before,
      afterFailures env tokenAddress percentage isBuy slippage 0 n tr = Some before /\
      (attempt env tokenAddress percentage isBuy slippage before
       = (Returned result, tr ++ d)
       /\ Z.of_nat n < maxRetries
       \/ exists error tr1,
            attempt env tokenAddress percentage isBuy slippage before = (Threw error, tr1) /\
            Z.of_nat n + 1 = maxRetries /\ result = TradeFalse /\
            tr ++ d = tr1 ++ [Log WARN (AttemptFailed maxRetries (Js.message error));
                              Log ERROR (MaxRetriesReached error)]).
Proof.
  intros Hmin Hmax.
  destruct (tradeTokenWithJupiter_looped env tokenAddress percentage isBuy slippage
              maxRetries tr) as (result & tr' & Run & HL).
  destruct (ran_extends _ _ _ _ _ _ _ _ (looped_ran _ _ _ _ _ _ _ _ _ _ HL)) as (d & ->).
  destruct (looped_rounds _ _ _ _ _ _ _ _ _ _ HL ltac:(lia))
    as (n & before & Hafter & Hview & Hlast).
  cbn [Z.add] in Hview.
  assert (Hattempt : forall o t, attempt env tokenAddress percentage isBuy slippage before
                                 = (o, t) ->
                                 retryTrace t = retryTrace tr ++ rounds 1 n ++ [Started]).
  { intros o t E.
    rewrite (attempted_view _ _ _ _ _ _
               (attempt_attempted env tokenAddress percentage isBuy slippage _ _ _ E)).
    now rewrite Hview, <- app_assoc. }
  assert (Hdelays : forall ending,
             delays ending = [] ->
             delays (rounds 1 n ++ ending) = map (fun k => 2 ^ k * 1000) (seqZ 1 n)).
  { intros ending Hnone. now rewrite delays_app, delays_rounds, Hnone, app_nil_r. }
  assert (Hsorted : StronglySorted Z.lt (map (fun k => 2 ^ k * 1000) (seqZ 1 n)))
    by (apply (backoff_sorted 1 n); lia).
  exists result, d, n. split; [ exact Run | ].
  destruct Hlast as [(Hreturned & Hn) | (error & tr1 & Hthrew & Hn & Hres & Htr)].
  - assert (E : retryTrace d = rounds 1 n ++ [Started]).
    { pose proof (Hattempt _ _ Hreturned) as E.
      rewrite retryTrace_app in E. now apply app_inv_head in E. }
    rewrite E, attempts_app, failures_app, attempts_rounds, failures_rounds,
      (Hdelays [Started] eq_refl).
    cbn [attempts failures filter List.length].
    repeat split; try lia; trivial.
    + left. split; [ reflexivity | lia ].
    + apply delays_in_doubles; lia.
    + exists before. split; [ exact Hafter | ]. left. now split.
  - assert (E : retryTrace d = rounds 1 n ++ [Started; Failed maxRetries]).
    { pose proof (Hattempt _ _ Hthrew) as E.
      assert (E' : retryTrace (tr ++ d)
                   = retryTrace tr ++ rounds 1 n ++ [Started; Failed maxRetries]).
      { rewrite Htr, retryTrace_app, E, <- !app_assoc. reflexivity. }
      rewrite retryTrace_app in E'. now apply app_inv_head in E'. }
    rewrite E, attempts_app, failures_app, attempts_rounds, failures_rounds,
      (Hdelays [Started; Failed maxRetries] eq_refl).
    cbn [attempts failures filter List.length].
    repeat split; try lia; trivial.
    + right. repeat split; trivial.
    + apply delays_in_doubles; lia.
    + exists before. split; [ exact Hafter | ]. right. exists error, tr1. now repeat split.
Qed.

Lemma tradeTokenWithJupiter_retries_witness :
  exists (result : TradeResult) (d : Trace) (n : nat),
    tradeTokenWithJupiter Sample.jammed "MINT" 6 true 5 3 [] = (Returned result, [] ++ d) /\
    (retryTrace d = rounds 1 n ++ [Started] /\ Z.of_nat n < 3
     \/ retryTrace d = rounds 1 n ++ [Started; Failed 3]
        /\ Z.of_nat n + 1 = 3 /\ result = TradeFalse) /\
    Z.of_nat (attempts (retryTrace d)) <= 3 /\
    delays (retryTrace d) = map (fun k => 2 ^ k * 1000) (seqZ 1 n) /\
    map Some (delays (retryTrace d))
    = map (fun k => integerOf (delayInDoubles k)) (seqZ 1 n) /\
    StronglySorted Z.lt (delays (retryTrace d)) /\
    (Z.of_nat (failures (retryTrace d)) = 3 ->
     result = TradeFalse /\ Z.of_nat (attempts (retryTrace d)) = 3) /\
    exists before,
      afterFailures Sample.jammed "MINT" 6 true 5 0 n [] = Some before /\
      (attempt Sample.jammed "MINT" 6 true 5 before = (Returned result, [] ++ d)
       /\ Z.of_nat n < 3
       \/ exists error tr1,
            attempt Sample.jammed "MINT" 6 true 5 before = (Threw error, tr1) /\
            Z.of_nat n + 1 = 3 /\ result = TradeFalse /\
            [] ++ d = tr1 ++ [Log WARN (AttemptFailed 3 (Js.message error));
                              Log ERROR (MaxRetriesReached error)]).
Proof.
  apply (tradeTokenWithJupiter_retries Sample.jammed "MINT" 6 true 5 3 []); lia.
Defined.

(** C3 as stated, refuted for large [maxRetries]: the delay that line 224
    computes after the failure numbered 1014 is still [2^1014 * 1000]
    milliseconds, but after the failures numbered 1015 and 1016 it is
    infinite both times: it is no number of seconds, and the second delay
    is not longer than the first.  These delays occur when [maxRetries] is
    1017 and every attempt fails: the run then logs 1017 failures and sets
    a timer after each of them but the last. *)
Lemma delays_are_infinite_from_1015 :
  let run := tradeTokenWithJupiter Sample.jammed "MINT" 6 true 5 1017 [] in
  fst run = Returned TradeFalse /\
  failures (retryTrace (snd run)) = 1017%nat /\
  List.length (delays (retryTrace (snd run))) = 1016%nat /\
  integerOf (delayInDoubles 1014) = Some (2 ^ 1014 * 1000) /\
  delayInDoubles 1015 = infinity /\
  delayInDoubles 1016 = infinity /\
  integerOf (delayInDoubles 1015) = None /\
  PrimFloat.ltb (delayInDoubles 1015) (delayInDoubles 1016) = false.
Proof. vm_compute. repeat split. Qed.

(** ** The results of a trade *)

(** X1: a call of [tradeTokenWithJupiter] always returns.  It returns
    undefined only for [maxRetries <= 0].  It returns a success object only
    when a bundle was sent during the call and the relay answered the last
    bundle of the call with a non-empty identifier; the success object of a
    sell carries the initial price null. *)
Theorem trade_success_needs_accepted_bundle
        (env : Env) (tokenAddress : string) (percentage : float) (isBuy : bool)
        (slippage : float) (maxRetries : Z) (tr : Trace) :
  exists (result : TradeResult) (tr' : Trace),
    tradeTokenWithJupiter env tokenAddress percentage isBuy slippage maxRetries tr
    = (Returned result, tr') /\
    (result = TradeUndefined -> maxRetries <= 0) /\
    forall initialPrice,
      result = TradeSuccess initialPrice ->
      (calls isSendBundle tr < calls isSendBundle tr')%nat /\
      (exists bundleUuid,
          sendBundle env (Nat.pred (calls isSendBundle tr')) = Fulfilled bundleUuid /\
          Js.nonempty bundleUuid = true) /\
      (isBuy = false -> initialPrice = Js.null).
Proof.
  destruct (tradeTokenWithJupiter_ran env tokenAddress percentage isBuy slippage
              maxRetries tr) as (result & tr' & Run & HR).
  exists result, tr'. split; [ exact Run | ]. split.
  - intros ->.
    destruct (ran_rounds _ _ _ _ _ _ _ _ HR)
      as (n & ending & _ & [(_ & _ & _ & Hge) | [(_ & Hr & _) | (_ & [=] & _)]]);
      [ exact Hge | now destruct Hr ].
  - apply (ran_success _ _ _ _ _ _ _ _ HR).
Qed.

(** X2: when a call returns false, either it is a buy whose amount, computed
    from the balance just read, is negative, and the call ends on the line
    "Amount is less than gas fee and tip to Jito"; or the failure numbered
    [maxRetries] was just logged and the call ends on "Max retries reached".
    A sell returns false only in the second way. *)
Theorem trade_false_two_ways
        (env : Env) (tokenAddress : string) (percentage : float) (isBuy : bool)
        (slippage : float) (maxRetries : Z) (tr : Trace) :
  exists (result : TradeResult) (tr' : Trace),
    tradeTokenWithJupiter env tokenAddress percentage isBuy slippage maxRetries tr
    = (Returned result, tr') /\
    (result = TradeFalse ->
     (isBuy = true /\
      exists pre balance,
        getBalance env (calls isGetBalance pre) = Fulfilled balance /\
        Js.lt (buyAmount percentage balance) 0 = true /\
        tr' = pre ++ [Log INFO (StartingTransaction true tokenAddress);
                      GetBalance; Log ERROR AmountLessThanFees])
     \/ (exists pre error,
            tr' = pre ++ [Log WARN (AttemptFailed maxRetries (Js.message error));
                          Log ERROR (MaxRetriesReached error)])).
Proof.
  destruct (tradeTokenWithJupiter_looped env tokenAddress percentage isBuy slippage
              maxRetries tr) as (result & tr' & Run & HL).
  exists result, tr'. split; [ exact Run | ].
  apply (looped_false _ _ _ _ _ _ _ _ _ _ HL).
Qed.

(** The two ways of X2 both happen: a balance too small for the fees, and a
    relay that rejects every bundle. *)
Example false_in_both_ways :
  tradeTokenWithJupiter Scene.poor "" 6 true 5 3 []
  = (Returned TradeFalse,
     [Log INFO (StartingTransaction true ""); GetBalance; Log ERROR AmountLessThanFees])
  /\ exists pre,
      tradeTokenWithJupiter Scene.stuck "MINT" 100 false 5 3 []
      = (Returned TradeFalse,
         pre ++ [Log WARN (AttemptFailed 3 "dropped");
                 Log ERROR (MaxRetriesReached (Js.mkError "dropped"))]).
Proof.
  split; [ reflexivity | ].
  exists (firstn 31 (snd (tradeTokenWithJupiter Scene.stuck "MINT" 100 false 5 3 []))).
  vm_compute. reflexivity.
Qed.

(** X3: one call sends at most [maxRetries] bundles, and never more bundles
    than it started attempts. *)
Theorem bundles_are_bounded
        (env : Env) (tokenAddress : string) (percentage : float) (isBuy : bool)
        (slippage : float) (maxRetries : Z) (tr : Trace) :
  exists (result : TradeResult) (d : Trace),
    tradeTokenWithJupiter env tokenAddress percentage isBuy slippage maxRetries tr
    = (Returned result, tr ++ d) /\
    (calls isSendBundle d <= attempts (retryTrace d))%nat /\
    Z.of_nat (attempts (retryTrace d)) <= Z.max 0 maxRetries.
Proof.
  destruct (tradeTokenWithJupiter_ran env tokenAddress percentage isBuy slippage
              maxRetries tr) as (result & tr' & Run & HR).
  destruct (ran_bundles _ _ _ _ _ _ _ _ HR) as (d & -> & Hb).
  destruct (ran_rounds _ _ _ _ _ _ _ _ HR) as (n & ending & E & Hend).
  rewrite retryTrace_app in E. apply app_inv_head in E. cbn in E.
  exists result, d. repeat split; [ exact Run | exact Hb | ].
  rewrite E, attempts_app, attempts_rounds.
  destruct Hend as [(-> & -> & _ & Hge) | [(-> & Hr & Hn) | (-> & -> & Hn)]];
    cbn [attempts filter List.length]; lia.
Qed.

(** X4: for [maxRetries] from 1 to 1015, where every delay that line 224
    computes on doubles is a whole number of milliseconds, the delays of
    one call are these numbers and add up to [1000 * (2^(n+1) - 2)]
    milliseconds for [n] failed attempts that were retried, which is at
    most [1000 * (2^maxRetries - 2)]; a call that logs [maxRetries]
    failures has waited exactly that long (6 seconds for the default of
    3). *)
Theorem total_delay_is_bounded
        (env : Env) (tokenAddress : string) (percentage : float) (isBuy : bool)
        (slippage : float) (maxRetries : Z) (tr : Trace) :
  1 <= maxRetries ->
  maxRetries <= 1015 ->
  exists (result : TradeResult) (d : Trace),
    tradeTokenWithJupiter env tokenAddress percentage isBuy slippage maxRetries tr
    = (Returned result, tr ++ d) /\
    map Some (delays (retryTrace d))
    = map (fun k => integerOf (delayInDoubles k))
          (seqZ 1 (List.length (delays (retryTrace d)))) /\
    total (delays (retryTrace d))
    = 1000 * (2 ^ Z.of_nat (S (List.length (delays (retryTrace d)))) - 2) /\
    total (delays (retryTrace d)) <= 1000 * (2 ^ maxRetries - 2) /\
    (Z.of_nat (failures (retryTrace d)) = maxRetries ->
     total (delays (retryTrace d)) = 1000 * (2 ^ maxRetries - 2)).
Proof.
  intros Hmax Hbound.
  destruct (tradeTokenWithJupiter_ran env tokenAddress percentage isBuy slippage
              maxRetries tr) as (result & tr' & Run & HR).
  destruct (ran_extends _ _ _ _ _ _ _ _ HR) as (d & ->).
  destruct (ran_rounds _ _ _ _ _ _ _ _ HR) as (n & ending & E & Hend).
  rewrite retryTrace_app in E. apply app_inv_head in E. cbn in E.
  exists result, d. split; [ exact Run | ].
  assert (Hd : delays (retryTrace d) = map backoff (seqZ 1 n)).
  { rewrite E, delays_app, delays_rounds.
    destruct Hend as [(-> & _) | [(-> & _) | (-> & _)]]; cbn; now rewrite app_nil_r. }
  assert (Hlen : List.length (delays (retryTrace d)) = n).
  { rewrite Hd, length_map. clear. generalize 1. induction n as [ | n IH]; intros first;
      cbn; [ reflexivity | now rewrite IH ]. }
  assert (Hrounds : Z.of_nat n < maxRetries)
    by (destruct Hend as [(_ & _ & _ & Hge) | [(_ & _ & Hlt) | (_ & _ & Hlt)]]; lia).
  split.
  { rewrite Hlen, Hd. apply (delays_in_doubles 1 n); lia. }
  rewrite Hlen, Hd, total_backoff by lia.
  replace (1 + Z.of_nat n) with (Z.of_nat (S n)) by lia.
  change (2 ^ 1) with 2.
  assert (Hpow : Z.of_nat (S n) <= maxRetries -> 2 ^ Z.of_nat (S n) <= 2 ^ maxRetries)
    by (intros; apply Z.pow_le_mono_r; lia).
  rewrite E, failures_app, failures_rounds.
  destruct Hend as [(_ & _ & _ & Hge) | [(-> & Hr & Hn) | (-> & -> & Hn)]];
    [ lia | | ]; cbn [failures filter List.length].
  - repeat split; [ specialize (Hpow ltac:(lia)); lia | lia ].
  - replace maxRetries with (Z.of_nat (S n)) by lia. repeat split; lia.
Qed.

Lemma total_delay_is_bounded_witness :
  exists (result : TradeResult) (d : Trace),
    tradeTokenWithJupiter Sample.jammed "MINT" 6 true 5 3 [] = (Returned result, [] ++ d) /\
    map Some (delays (retryTrace d))
    = map (fun k => integerOf (delayInDoubles k))
          (seqZ 1 (List.length (delays (retryTrace d)))) /\
    total (delays (retryTrace d))
    = 1000 * (2 ^ Z.of_nat (S (List.length (delays (retryTrace d)))) - 2) /\
    total (delays (retryTrace d)) <= 1000 * (2 ^ 3 - 2) /\
    (Z.of_nat (failures (retryTrace d)) = 3 ->
     total (delays (retryTrace d)) = 1000 * (2 ^ 3 - 2)).
Proof.
  apply (total_delay_is_bounded Sample.jammed "MINT" 6 true 5 3 []); lia.
Defined.

(** X5: a sell never reads the wallet's balance, never asks for a price and
    never logs "Amount is less than gas fee"; a buy never asks for the
    associated token account nor for its balance. *)
Theorem sell_and_buy_requests
        (env : Env) (tokenAddress : string) (percentage slippage : float)
        (maxRetries : Z) (tr : Trace) :
  (exists (result : TradeResult) (d : Trace),
      tradeTokenWithJupiter env tokenAddress percentage false slippage maxRetries tr
      = (Returned result, tr ++ d) /\
      Forall (fun e => isSellEvent e = true) d /\
      calls isGetBalance d = 0%nat /\ calls isPriceQuery d = 0%nat)
  /\ (exists (result : TradeResult) (d : Trace),
         tradeTokenWithJupiter env tokenAddress percentage true slippage maxRetries tr
         = (Returned result, tr ++ d) /\
         calls isGetAssociatedTokenAddress d = 0%nat /\
         calls isGetTokenAccountBalance d = 0%nat).
Proof.
  split.
  - destruct (tradeTokenWithJupiter_looped env tokenAddress percentage false slippage
                maxRetries tr) as (result & tr' & Run & HL).
    destruct (looped_events _ _ _ _ _ _ (fun e => isSellEvent e = true) _ _ _ _
                (attempt_sell_settles env tokenAddress percentage slippage)
                (fun _ _ => eq_refl) (fun _ => eq_refl) (fun _ => eq_refl) HL)
      as (d & -> & F).
    exists result, d. repeat split; [ exact Run | exact F | | ];
      apply calls_none; (eapply Forall_impl; [ | exact F ]);
      intros e; destruct e as [[] [] | | | | | | | | | | | ]; cbn; congruence.
  - destruct (tradeTokenWithJupiter_looped env tokenAddress percentage true slippage
                maxRetries tr) as (result & tr' & Run & HL).
    destruct (looped_events _ _ _ _ _ _ (fun e => isBuyEvent e = true) _ _ _ _
                (attempt_buy_settles env tokenAddress percentage slippage)
                (fun _ _ => eq_refl) (fun _ => eq_refl) (fun _ => eq_refl) HL)
      as (d & -> & F).
    exists result, d. repeat split; [ exact Run | | ];
      apply calls_none; (eapply Forall_impl; [ | exact F ]);
      intros e; destruct e; cbn; congruence.
Qed.

(** ** Quote, swap, tip, bundle *)

Lemma await_bind {A B} (kind : Event -> bool) (oracle : nat -> Reply A) (e : Event)
      (k : A -> M B) (tr : Trace) :
  bind (await kind oracle e) k tr
  = match oracle (calls kind tr) with
    | Fulfilled a => k a (tr ++ [e])
    | Rejected error => (Threw error, tr ++ [e])
    end.
Proof. unfold bind, await. now destruct (oracle _). Qed.

Lemma calls_other (kind : Event -> bool) (tr : Trace) (e : Event) :
  kind e = false -> calls kind (tr ++ [e]) = calls kind tr.
Proof. intros H. rewrite calls_app, calls_cons, H. cbn. lia. Qed.

Ltac fails_in_preparation :=
  do 2 eexists; split; [ rewrite <- ?app_assoc; cbn [app]; reflexivity
                       | repeat constructor ].

Lemma prepareBundle_cases
        (env : Env) (slippage amount : float) (inputMint outputMint : string) (tr : Trace) :
  match preparedBundle env tr with
  | Some (routes, bundle) =>
      prepareBundle env slippage amount inputMint outputMint tr
      = (Returned bundle,
         tr ++ [FetchQuote inputMint outputMint amount (slippage * 100)%float;
                FetchSwap routes; GetTipAccounts; GetLatestBlockhash;
                Log INFO SendingBundle])
  | None =>
      exists error d,
        prepareBundle env slippage amount inputMint outputMint tr = (Threw error, tr ++ d)
        /\ Preparation d
  end.
Proof.
  unfold preparedBundle, prepareBundle, newPublicKey.
  rewrite await_bind.
  destruct (fetch_quote env _) as [response | error]; [ | fails_in_preparation ].
  destruct (ok response); cbn [bind ret throw]; [ | fails_in_preparation ].
  destruct (json response) as [routes | error]; cbn [settle bind ret throw];
    [ | fails_in_preparation ].
  rewrite await_bind, calls_other by reflexivity.
  destruct (fetch_swap env _) as [transaction_response | error]; [ | fails_in_preparation ].
  destruct (ok transaction_response); cbn [bind ret throw]; [ | fails_in_preparation ].
  destruct (json transaction_response) as [[text | ] | error]; cbn [settle bind ret throw];
    [ | fails_in_preparation | fails_in_preparation ].
  destruct (deserializeAndSign env text) as [transaction | error];
    cbn [settle bind ret throw]; [ | fails_in_preparation ].
  destruct (addTransactions env transaction) as [bundle | error];
    cbn [bind ret throw]; [ | fails_in_preparation ].
  rewrite await_bind, !calls_other by reflexivity.
  destruct (getTipAccounts env _) as [[ | first rest] | error];
    cbn [bind ret throw]; [ fails_in_preparation | | fails_in_preparation ].
  destruct (isPublicKey env first); cbn [bind ret throw]; [ | fails_in_preparation ].
  rewrite await_bind, !calls_other by reflexivity.
  destruct (getLatestBlockhash env _) as [blockhash | error]; [ | fails_in_preparation ].
  destruct (addTipTx env bundle JITO_TIP_AMOUNT first blockhash) as [tipped | error];
    cbn [bind ret throw]; [ | fails_in_preparation ].
  unfold logTransaction, emit. cbn. now rewrite <- !app_assoc.
Qed.

(** X6: lines 159-198 send a bundle only when every step before succeeds.
    When the quote and the swap are accepted and readable, the transaction
    is signed and enters the bundle, the first tip account is a key and the
    tip is added, the requests go out in this order: quote, swap, tip
    accounts, block hash, then the bundle, and the outcome is the relay's
    answer.  In every other case the code throws before a bundle is sent. *)
Theorem submit_sends_the_prepared_bundle
        (env : Env) (slippage amount : float) (inputMint outputMint : string) (tr : Trace) :
  match preparedBundle env tr with
  | Some (routes, bundle) =>
      submit env slippage amount inputMint outputMint tr
      = (outcomeOf (sendBundle env (calls isSendBundle tr)),
         tr ++ [FetchQuote inputMint outputMint amount (slippage * 100)%float;
                FetchSwap routes; GetTipAccounts; GetLatestBlockhash;
                Log INFO SendingBundle; SendBundle bundle])
  | None =>
      exists error d,
        submit env slippage amount inputMint outputMint tr = (Threw error, tr ++ d)
        /\ Preparation d /\ calls isSendBundle d = 0%nat
  end.
Proof.
  pose proof (prepareBundle_cases env slippage amount inputMint outputMint tr) as H.
  unfold submit, bind.
  destruct (preparedBundle env tr) as [[routes bundle] | ].
  - rewrite H. unfold await. rewrite calls_app. cbn [calls filter isSendBundle List.length].
    rewrite Nat.add_0_r, <- app_assoc. cbn [app].
    now destruct (sendBundle env _).
  - destruct H as (error & d & -> & Hd). exists error, d.
    repeat split; [ exact Hd | now apply Preparation_no_bundle ].
Qed.

(** ** The price request *)

(** One call of [getTokenInfo]: it returns what the poll sees, after price
    queries only, one of them the request to the price service. *)
Lemma getTokenInfo_poll (env : Env) (mint : string) (tr : Trace) :
  exists q,
    getTokenInfo env mint tr = (Returned (seen env mint tr), tr ++ q) /\
    Forall (fun e => isPriceQuery e = true) q /\
    calls isAxiosGet q = 1%nat.
Proof.
  destruct (getTokenInfo_returns env mint tr) as (q & E & F & R).
  pose proof (proj1 (getTokenInfo_one_request env mint tr)) as One.
  unfold seen.
  destruct (getTokenInfo env mint tr) as [[info | | | ] tr1];
    cbn [fst snd] in *; try contradiction.
  subst tr1. exists q. repeat split; trivial.
  rewrite calls_app in One. lia.
Qed.

(** X7: one call of [getTokenInfo] makes exactly one request to the price
    service, and that first; it asks for the mint account at most once, and
    does so exactly when the price answer has an entry for the mint and the
    mint is a public key; it logs its error line once when it returns null
    and not at all otherwise; the source of a result is always "jupiter". *)
Theorem getTokenInfo_requests (env : Env) (mint : string) (tr : Trace) :
  exists info rest,
    getTokenInfo env mint tr
    = (Returned info, tr ++ AxiosGet (jupiterApiUrl mint) :: rest) /\
    calls isAxiosGet rest = 0%nat /\
    calls isGetParsedAccountInfo rest
    = match axios_get env (calls isAxiosGet tr) with
      | Fulfilled body =>
          match entryOf mint body with
          | Some _ => if isPublicKey env mint then 1%nat else 0%nat
          | None => 0%nat
          end
      | Rejected _ => 0%nat
      end /\
    calls isNetworkCall rest = calls isGetParsedAccountInfo rest /\
    List.length (filter (fun e => negb (isNetworkCall e)) rest)
    = match info with Some _ => 0%nat | None => 1%nat end /\
    match info with Some i => source i = "jupiter" | None => True end.
Proof.
  pose proof (getTokenInfo_cases env mint tr) as H. cbv zeta in H. unfold gaveUp in H.
  destruct (axios_get env (calls isAxiosGet tr)) as [body | error1];
    [ destruct (entryOf mint body) as [entry | ];
      [ destruct (isPublicKey env mint);
        [ destruct (getParsedAccountInfo env (calls isGetParsedAccountInfo tr))
            as [[freezeAuthority | ] | error2] | ] | ] | ];
    rewrite H; cbn [app]; eexists _, _; (split; [ reflexivity | ]);
    cbn; repeat split.
Qed.

(** ** The two polling loops *)

Lemma price_query_is_wait (e : Event) : isPriceQuery e = true -> isWaitEvent e = true.
Proof. destruct e as [[] [] | | | | | | | | | | | ]; cbn; congruence. Qed.

Lemma price_query_is_poll (e : Event) : isPriceQuery e = true -> isPollEvent e = true.
Proof. destruct e as [[] [] | | | | | | | | | | | ]; cbn; congruence. Qed.

Lemma price_query_no_timer (q : Trace) :
  Forall (fun e => isPriceQuery e = true) q -> calls isSetTimeout q = 0%nat.
Proof.
  intros F. apply calls_none. eapply Forall_impl; [ | exact F ].
  intros e. destruct e as [[] [] | | | | | | | | | | | ]; cbn; congruence.
Qed.

Section Polls.

Variables (env : Env) (tokenAddress : string).

(** [k] polls without a price: [k] requests, [k] timers. *)
Lemma waited_events (k : nat) :
  forall tr, exists d,
    waited env tokenAddress k tr = tr ++ d /\
    Forall (fun e => isWaitEvent e = true) d /\
    calls isSetTimeout d = k /\ calls isAxiosGet d = k.
Proof.
  induction k as [ | k IH]; intros tr; cbn [waited].
  - exists []. now rewrite app_nil_r.
  - destruct (getTokenInfo_poll env tokenAddress tr) as (q & Eq & Fq & One).
    destruct (IH (afterWait env tokenAddress tr)) as (d & -> & F & Ht & Ha).
    unfold afterWait. rewrite Eq. cbn [snd].
    exists (q ++ [Log WARN (PriceNotAvailableYet tokenAddress); SetTimeout 1500] ++ d).
    repeat split.
    + now rewrite <- !app_assoc.
    + apply Forall_app. split.
      * eapply Forall_impl; [ | exact Fq ]. apply price_query_is_wait.
      * apply Forall_app. split; [ repeat constructor | exact F ].
    + rewrite !calls_app, (price_query_no_timer q Fq), Ht. reflexivity.
    + rewrite !calls_app, One, Ha. reflexivity.
Qed.

Variable initialPrice : Js.value.

(** [k] polls below the target: [k] requests, [k] timers. *)
Lemma polled_events (k : nat) :
  forall tr, exists d,
    polled env tokenAddress initialPrice k tr = tr ++ d /\
    Forall (fun e => isPollEvent e = true) d /\
    calls isSetTimeout d = k /\ calls isAxiosGet d = k.
Proof.
  induction k as [ | k IH]; intros tr; cbn [polled].
  - exists []. now rewrite app_nil_r.
  - destruct (getTokenInfo_poll env tokenAddress tr) as (q & Eq & Fq & One).
    destruct (IH (afterPoll env tokenAddress initialPrice tr)) as (d & -> & F & Ht & Ha).
    unfold afterPoll. rewrite Eq. cbn [snd].
    eexists (q ++ [_; SetTimeout 2000] ++ d).
    repeat split.
    + now rewrite <- !app_assoc.
    + apply Forall_app. split.
      * eapply Forall_impl; [ | exact Fq ]. apply price_query_is_poll.
      * apply Forall_app. split; [ repeat constructor | exact F ].
    + rewrite !calls_app, (price_query_no_timer q Fq), Ht. reflexivity.
    + rewrite !calls_app, One, Ha. reflexivity.
Qed.

End Polls.

(** X8: [waitForPriceAvailability] never throws and never exits.  All it
    does is ask for the price, log, and set timers of 1500 ms: it makes no
    trade call.  When it returns, the price it returns is truthy, its last
    act is the line "Price available", and it has set one timer for each
    request but the last; while it is running it has set a timer after each
    request. *)
Theorem waitForPriceAvailability_pacing
        (env : Env) (tokenAddress : string) (fuel : nat) (tr : Trace) :
  exists outcome d,
    waitForPriceAvailability env fuel tokenAddress tr = (outcome, tr ++ d) /\
    Forall (fun e => isWaitEvent e = true) d /\
    calls isTradeCall d = 0%nat /\
    match outcome with
    | Returned price =>
        Js.truthy price = true /\
        calls isAxiosGet d = S (calls isSetTimeout d) /\
        (calls isAxiosGet d <= fuel)%nat /\
        exists before source,
          d = before ++ [Log INFO (PriceAvailable tokenAddress price source)]
    | Running => calls isAxiosGet d = fuel /\ calls isSetTimeout d = fuel
    | _ => False
    end.
Proof.
  assert (quiet : forall d, Forall (fun e => isWaitEvent e = true) d ->
                            calls isTradeCall d = 0%nat).
  { intros d F. apply calls_none. eapply Forall_impl; [ | exact F ].
    intros e. destruct e as [[] [] | | | | | | | | | | | ]; cbn; congruence. }
  destruct (waitForPriceAvailability_cases env tokenAddress fuel tr)
    as [(k & info & Hk & Hs & Ht & _ & Run) | (_ & Run)]; rewrite Run.
  - destruct (waited_events env tokenAddress k tr) as (d & E & F & Htimers & Hreq).
    destruct (getTokenInfo_poll env tokenAddress (waited env tokenAddress k tr))
      as (q & Eq & Fq & One).
    rewrite Eq, E. cbn [snd].
    assert (Fall : Forall (fun e => isWaitEvent e = true)
                          (d ++ q ++ [Log INFO (PriceAvailable tokenAddress (price info)
                                                               (source info))])).
    { apply Forall_app. split; [ exact F | ].
      apply Forall_app. split; [ | repeat constructor ].
      eapply Forall_impl; [ | exact Fq ]. apply price_query_is_wait. }
    eexists _, _. split; [ now rewrite <- !app_assoc | ].
    split; [ exact Fall | ]. split; [ now apply quiet | ].
    split; [ exact Ht | ].
    rewrite !calls_app, (price_query_no_timer q Fq), Htimers, Hreq, One.
    cbn [calls filter isAxiosGet isSetTimeout List.length].
    repeat split; try lia.
    exists (d ++ q), (source info). now rewrite <- app_assoc.
  - destruct (waited_events env tokenAddress fuel tr) as (d & E & F & Htimers & Hreq).
    exists Running, d. rewrite E. repeat split; auto.
Qed.



Lemma ge_nan (x : float) : Js.ge x nan = false.
Proof. unfold Js.ge. rewrite leb_spec. reflexivity. Qed.

(** X10: when the threshold [initialPrice * 1.2] is not a number, as it is
    for an initial price that is undefined, no price ever meets it: the
    monitor polls for ever, every 2000 ms, and never calls the sell. *)
Theorem monitorAndSell_never_sells_without_a_number
        (env : Env) (tokenAddress : string) (initialPrice : Js.value)
        (fuel : nat) (tr : Trace) :
  Js.is_null initialPrice = false ->
  threshold initialPrice = nan ->
  exists polls,
    monitorAndSell env tokenAddress initialPrice fuel tr = (Running, tr ++ polls) /\
    Forall (fun e => isPollEvent e = true) polls /\
    calls isAxiosGet polls = fuel /\
    calls isSetTimeout polls = fuel /\
    calls isTradeCall polls = 0%nat.
Proof.
  intros Hnull Hnan.
  unfold monitorAndSell. rewrite Hnull.
  assert (never : forall t, targetMet env tokenAddress initialPrice t = false).
  { intros t. unfold targetMet. rewrite Hnan.
    destruct (seen env tokenAddress t); [ apply ge_nan | reflexivity ]. }
  destruct (monitorLoop_cases env tokenAddress initialPrice fuel tr)
    as [(k & _ & Hm & _) | (_ & Run)]; [ rewrite never in Hm; discriminate | ].
  destruct (polled_events env tokenAddress initialPrice fuel tr) as (d & E & F & Ht & Ha).
  exists d. rewrite Run, E. repeat split; trivial.
  apply calls_none. eapply Forall_impl; [ | exact F ].
  intros e. destruct e as [[] [] | | | | | | | | | | | ]; cbn; congruence.
Qed.

Lemma monitorAndSell_never_sells_without_a_number_witness :
  exists polls,
    monitorAndSell Sample.rising "MINT" Js.undefined 4 [] = (Running, [] ++ polls) /\
    Forall (fun e => isPollEvent e = true) polls /\
    calls isAxiosGet polls = 4%nat /\
    calls isSetTimeout polls = 4%nat /\
    calls isTradeCall polls = 0%nat.
Proof.
  apply (monitorAndSell_never_sells_without_a_number Sample.rising "MINT" Js.undefined 4 []);
    reflexivity.
Defined.

(** ** [main] *)

Section ProceedsRules.

Context {A B : Type} (P : Event -> Prop).

Lemma returns_proceeds (Q : A -> Prop) (m : M A) : returns P Q m -> proceeds P Q m.
Proof.
  intros H tr. destruct (H tr) as (d & E & F & R).
  exists d. repeat split; trivial. destruct (fst (m tr)); tauto.
Qed.

Lemma proceeds_running (Q : A -> Prop) : proceeds P Q running.
Proof. intros tr. exists []. cbn. now rewrite app_nil_r. Qed.

Lemma proceeds_bind (Q1 : A -> Prop) (Q2 : B -> Prop) (m : M A) (f : A -> M B) :
  proceeds P Q1 m -> (forall a, Q1 a -> proceeds P Q2 (f a)) ->
  proceeds P Q2 (bind m f).
Proof.
  intros Hm Hf tr. destruct (Hm tr) as (d & E & F & R).
  unfold bind. destruct (m tr) as [[a | e | c | ] tr1]; cbn in *; try tauto.
  - subst tr1. destruct (Hf a R (tr ++ d)) as (d' & E' & F' & R').
    exists (d ++ d'). rewrite E', app_assoc. repeat split; trivial.
    apply Forall_app; auto.
  - exists d. auto.
Qed.

(** A [try] around a computation that cannot throw changes nothing. *)
Lemma tryCatch_proceeds (Q : A -> Prop) (m : M A) (h : Js.Error -> M A) (tr : Trace) :
  proceeds P Q m -> tryCatch m h tr = m tr.
Proof.
  intros Hm. destruct (Hm tr) as (d & _ & _ & R).
  unfold tryCatch. destruct (m tr) as [[a | e | c | ] tr1]; cbn in *; tauto.
Qed.

End ProceedsRules.

Lemma proceeds_emit (P : Event -> Prop) (Q : unit -> Prop) (e : Event) :
  P e -> Q tt -> proceeds P Q (emit e).
Proof. intros He Hq. now apply returns_proceeds, returns_emit. Qed.

Lemma getTokenInfo_proceeds (P : Event -> Prop) (env : Env) (mint : string) :
  (forall e, isPriceQuery e = true -> P e) ->
  proceeds P (fun _ => True) (getTokenInfo env mint).
Proof.
  intros HP tr. destruct (getTokenInfo_returns env mint tr) as (d & E & F & R).
  exists d. repeat split; trivial.
  - eapply Forall_impl; [ | exact F ]. exact HP.
  - destruct (fst (getTokenInfo env mint tr)); tauto.
Qed.

(** The wait returns a truthy price or is still running. *)
Lemma waitForPriceAvailability_proceeds
      (P : Event -> Prop) (env : Env) (tokenAddress : string) (fuel : nat) :
  (forall e, isWaitEvent e = true -> P e) ->
  proceeds P (fun price => Js.truthy price = true)
           (waitForPriceAvailability env fuel tokenAddress).
Proof.
  intros HP. induction fuel as [ | fuel IH]; cbn [waitForPriceAvailability].
  - apply proceeds_running.
  - eapply proceeds_bind with (Q1 := fun _ => True).
    + apply getTokenInfo_proceeds. intros e He. now apply HP, price_query_is_wait.
    + intros tokenInfo _. cbv zeta.
      assert (again : proceeds P (fun price => Js.truthy price = true)
                        (bind (logTransaction WARN (PriceNotAvailableYet tokenAddress))
                              (fun _ => bind (sleep 1500)
                                          (fun _ => waitForPriceAvailability env fuel
                                                      tokenAddress)))).
      { eapply proceeds_bind with (Q1 := fun _ => True);
          [ apply proceeds_emit; [ now apply HP | trivial ] | intros _ _ ].
        eapply proceeds_bind with (Q1 := fun _ => True);
          [ apply proceeds_emit; [ now apply HP | trivial ] | intros _ _ ].
        exact IH. }
      destruct tokenInfo as [info | ]; [ | exact again ].
      destruct (Js.truthy (price info)) eqn:Htruthy; [ | exact again ].
      eapply proceeds_bind with (Q1 := fun _ => True);
        [ apply proceeds_emit; [ now apply HP | trivial ] | intros _ _ ].
      apply returns_proceeds. now apply returns_ret.
Qed.

(** What an attempt appends: its first line, then attempt events. *)
Lemma attempt_settles (P : Event -> Prop) (env : Env) (tokenAddress : string)
      (percentage : float) (isBuy : bool) (slippage : float) :
  P (Log INFO (StartingTransaction isBuy tokenAddress)) ->
  (forall e, isAttemptEvent e = true -> P e) ->
  settles P (fun _ => True) (attempt env tokenAddress percentage isBuy slippage).
Proof.
  intros Hstart Hatt.
  assert (Hq : forall e, isPriceQuery e = true -> P e).
  { intros e He. now apply Hatt, price_query_is_attempt. }
  unfold attempt, sizeTrade, submit, prepareBundle, afterSubmit, newPublicKey.
  repeat first [ settle_step | apply getTokenInfo_settles; exact Hq ];
    auto; now apply Hatt.
Qed.

(** A trade returns, and appends what its attempts append, the lines and
    the timers of the retry loop. *)
Lemma tradeTokenWithJupiter_returns
      (P : Event -> Prop) (env : Env) (tokenAddress : string) (percentage : float)
      (isBuy : bool) (slippage : float) (maxRetries : Z) :
  settles P (fun _ => True) (attempt env tokenAddress percentage isBuy slippage) ->
  (forall n message, P (Log WARN (AttemptFailed n message))) ->
  (forall error, P (Log ERROR (MaxRetriesReached error))) ->
  (forall ms, P (SetTimeout ms)) ->
  returns P (fun _ => True)
          (tradeTokenWithJupiter env tokenAddress percentage isBuy slippage maxRetries).
Proof.
  intros Hattempt Hwarn Hmax Htimer tr.
  destruct (tradeTokenWithJupiter_looped env tokenAddress percentage isBuy slippage
              maxRetries tr) as (result & tr' & Run & HL).
  destruct (looped_events _ _ _ _ _ _ P _ _ _ _ Hattempt Hwarn Hmax Htimer HL)
    as (d & -> & F).
  exists d. rewrite Run. cbn. auto.
Qed.

Lemma trade_returns (P : Event -> Prop) (env : Env) (tokenAddress : string)
      (percentage : float) (isBuy : bool) (slippage : float) (maxRetries : Z) :
  (forall e, isTradeEvent e = true -> P e) ->
  returns P (fun _ => True)
          (tradeTokenWithJupiter env tokenAddress percentage isBuy slippage maxRetries).
Proof.
  intros HP. apply tradeTokenWithJupiter_returns.
  - apply attempt_settles; [ now apply HP | ].
    intros e He. apply HP. destruct e as [[] [] | | | | | | | | | | | ]; cbn in *; congruence.
  - intros. now apply HP.
  - intros. now apply HP.
  - intros. now apply HP.
Qed.

(** The monitor returns or is still running. *)
Lemma monitorAndSell_proceeds
      (P : Event -> Prop) (env : Env) (tokenAddress : string) (initialPrice : Js.value)
      (fuel : nat) :
  (forall e, isPollEvent e = true -> P e) ->
  (forall e, isTradeEvent e = true -> P e) ->
  proceeds P (fun _ => True) (monitorAndSell env tokenAddress initialPrice fuel).
Proof.
  intros Hpoll Htrade. unfold monitorAndSell.
  destruct (Js.is_null initialPrice);
    [ apply proceeds_emit; [ now apply Hpoll | trivial ] | ].
  induction fuel as [ | fuel IH]; cbn [monitorLoop].
  - apply proceeds_running.
  - eapply proceeds_bind with (Q1 := fun _ => True).
    + apply getTokenInfo_proceeds. intros e He. now apply Hpoll, price_query_is_poll.
    + intros currentPriceInfo _. cbv zeta.
      assert (again : forall shown,
                 proceeds P (fun _ => True)
                   (bind (logTransaction INFO
                            (MonitoringPrice shown (threshold initialPrice)))
                         (fun _ => bind (sleep 2000)
                                     (fun _ => monitorLoop env tokenAddress initialPrice
                                                 fuel)))).
      { intros shown.
        eapply proceeds_bind with (Q1 := fun _ => True);
          [ apply proceeds_emit; [ now apply Hpoll | trivial ] | intros _ _ ].
        eapply proceeds_bind with (Q1 := fun _ => True);
          [ apply proceeds_emit; [ now apply Hpoll | trivial ] | intros _ _ ].
        exact IH. }
      destruct currentPriceInfo as [info | ]; [ | apply again ].
      destruct (Js.ge _ _); [ | apply again ].
      eapply proceeds_bind with (Q1 := fun _ => True);
        [ apply proceeds_emit; [ now apply Hpoll | trivial ] | intros _ _ ].
      eapply proceeds_bind with (Q1 := fun _ => True).
      * now apply returns_proceeds, trade_returns.
      * intros _ _. apply returns_proceeds. now apply returns_ret.
Qed.

(** With one attempt allowed at least, a trade starts with its first log
    line. *)
Lemma trade_starts (env : Env) (tokenAddress : string) (percentage : float)
      (isBuy : bool) (slippage : float) (maxRetries : Z) (tr : Trace) :
  1 <= maxRetries ->
  exists result rest,
    tradeTokenWithJupiter env tokenAddress percentage isBuy slippage maxRetries tr
    = (Returned result, tr ++ Log INFO (StartingTransaction isBuy tokenAddress) :: rest).
Proof.
  intros Hmax.
  destruct (tradeTokenWithJupiter_ran env tokenAddress percentage isBuy slippage
              maxRetries tr) as (result & tr' & Run & HR).
  rewrite Run. exists result.
  inversion HR as [ ? ? Hge | ? ? ? ? _ HA | ? ? ? ? _ _ HA | ? ? ? ? ? ? _ HA HR' ]; subst.
  - lia.
  - destruct (attempted_events _ _ _ _ _ _ HA) as (d & -> & _). eauto.
  - destruct (attempted_events _ _ _ _ _ _ HA) as (d & -> & _).
    rewrite <- app_assoc. cbn [app]. eauto.
  - destruct (attempted_events _ _ _ _ _ _ HA) as (d & -> & _).
    destruct (ran_extends _ _ _ _ _ _ _ _ HR') as (d' & ->).
    rewrite <- !app_assoc. cbn [app]. eauto.
Qed.

(** A buy that succeeds ends on the line of the price it captured. *)
Lemma ran_captured (env : Env) (tokenAddress : string) (maxRetries : Z)
      retries tr result tr' :
  Ran env tokenAddress true maxRetries retries tr result tr' ->
  forall initialPrice,
    result = TradeSuccess initialPrice ->
    exists before, tr' = tr ++ before ++ [Log INFO (InitialPriceCaptured initialPrice)].
Proof.
  induction 1 as [retries tr Hge
                 | retries tr result tr' Hlt HA
                 | retries tr error tr' Hlt Hge HA
                 | retries tr error tr' result tr'' Hlt HA _ IH];
    intros initialPrice Hres; try discriminate.
  - subst result.
    inversion HA as [ | | | | d bundle bundleUuid Hd Hsent Huuid tr1 Hp Htr]; subst.
    subst tr1. unfold afterCapture, capturedPrice.
    match goal with
    | |- context [getTokenInfo env tokenAddress (tr ++ ?x)] =>
        destruct (getTokenInfo_poll env tokenAddress (tr ++ x)) as (q & -> & _);
        exists (x ++ q)
    end.
    cbn [snd]. now repeat (rewrite <- app_assoc; cbn [app]).
  - destruct (attempted_events _ _ _ _ _ _ HA) as (d & -> & _).
    destruct (IH initialPrice Hres) as (before & ->).
    match goal with
    | |- exists _, ((tr ++ ?x) ++ ?y) ++ ?z ++ _ = _ => exists (x ++ y ++ z)
    end.
    now repeat (rewrite <- app_assoc; cbn [app]).
Qed.

(** Whatever the buy returned, what follows only appends. *)
Lemma main_tail_extends (env : Env) (fuel : nat) (result : TradeResult) (tr : Trace) :
  exists outcome rest,
    match result with
    | TradeSuccess initialPrice => monitorAndSell env "" initialPrice fuel
    | _ => ret tt
    end tr = (outcome, tr ++ rest).
Proof.
  destruct result as [ | initialPrice | ];
    [ exists (Returned tt), []; now rewrite app_nil_r
    |
    | exists (Returned tt), []; now rewrite app_nil_r ].
  destruct (monitorAndSell_proceeds (fun _ => True) env "" initialPrice fuel
              (fun _ _ => I) (fun _ _ => I) tr) as (d & E & _).
  destruct (monitorAndSell env "" initialPrice fuel tr) as [outcome tr1].
  cbn [snd] in E. subst tr1. now exists outcome, d.
Qed.

Section Main.

Variables (env : Env) (fuel : nat).

(** [main] after [checkEnvVariables]. *)
Lemma main_body_proceeds (P : Event -> Prop) :
  (forall e, isWaitEvent e = true -> P e) ->
  (forall e, isTradeEvent e = true -> P e) ->
  (forall e, isPollEvent e = true -> P e) ->
  proceeds P (fun _ => True)
    (bind (waitForPriceAvailability env fuel "")
          (fun _ => bind (sleep 30000)
             (fun _ => bind (tradeTokenWithJupiter env "" 6 true 5 3)
                (fun result =>
                   match result with
                   | TradeSuccess initialPrice => monitorAndSell env "" initialPrice fuel
                   | _ => ret tt
                   end)))).
Proof.
  intros Hwait Htrade Hpoll.
  eapply proceeds_bind with (Q1 := fun _ => True).
  - intros tr.
    destruct (waitForPriceAvailability_proceeds P env "" fuel Hwait tr) as (d & E & F & R).
    exists d. repeat split; trivial.
    destruct (fst (waitForPriceAvailability env fuel "" tr)); tauto.
  - intros _ _.
    eapply proceeds_bind with (Q1 := fun _ => True);
      [ apply proceeds_emit; [ now apply Htrade | trivial ] | intros _ _ ].
    eapply proceeds_bind with (Q1 := fun _ => True).
    + now apply returns_proceeds, trade_returns.
    + intros [ | initialPrice | ] _;
        [ apply returns_proceeds; now apply returns_ret
        | now apply monitorAndSell_proceeds
        | apply returns_proceeds; now apply returns_ret ].
Qed.

Lemma main_unfold (tr : Trace) :
  filter (unset env) requiredEnvVars = [] ->
  main env fuel tr
  = bind (waitForPriceAvailability env fuel "")
         (fun _ => bind (sleep 30000)
            (fun _ => bind (tradeTokenWithJupiter env "" 6 true 5 3)
               (fun result =>
                  match result with
                  | TradeSuccess initialPrice => monitorAndSell env "" initialPrice fuel
                  | _ => ret tt
                  end))) tr.
Proof.
  intros Hset. unfold main, checkEnvVariables. rewrite Hset. cbn [List.length Nat.ltb Nat.leb].
  rewrite (tryCatch_proceeds (fun _ => True) (fun _ => True)).
  - reflexivity.
  - eapply proceeds_bind with (Q1 := fun _ => True);
      [ apply returns_proceeds; now apply returns_ret | intros _ _ ].
    now apply main_body_proceeds.
Qed.

End Main.

(** X11: [main] never throws, so the promise it returns never rejects, and
    its own [catch] is never entered: nothing it calls lets an exception
    out.  It exits, with code 1, exactly when a required variable is unset
    or empty, and then the list of the missing variables is the one line it
    logged: nothing was requested.  Otherwise it returns or is still
    polling. *)
Theorem main_never_throws (env : Env) (fuel : nat) (tr : Trace) :
  exists outcome d,
    main env fuel tr = (outcome, tr ++ d) /\
    calls isMainCaught d = 0%nat /\
    match filter (unset env) requiredEnvVars with
    | [] => outcome = Returned tt \/ outcome = Running
    | missingVars =>
        outcome = Exited 1 /\ d = [Log ERROR (MissingEnvironmentVariables missingVars)]
    end.
Proof.
  destruct (filter (unset env) requiredEnvVars) as [ | first others] eqn:Hmissing.
  - rewrite (main_unfold env fuel tr Hmissing).
    match goal with
    | |- context [bind ?m ?k tr] =>
        destruct (main_body_proceeds env fuel (fun e => isMainCaught e = false)
                    ltac:(intros e; destruct e as [[] [] | | | | | | | | | | | ];
                          cbn; congruence)
                    ltac:(intros e; destruct e as [[] [] | | | | | | | | | | | ];
                          cbn; congruence)
                    ltac:(intros e; destruct e as [[] [] | | | | | | | | | | | ];
                          cbn; congruence)
                    tr) as (d & E & F & R);
        destruct (bind m k tr) as [outcome tr1]
    end.
    cbn [fst snd] in E, R. subst tr1. exists outcome, d.
    repeat split; [ now apply calls_none | ].
    destruct outcome as [[] | | | ]; tauto.
  - exists (Exited 1), [Log ERROR (MissingEnvironmentVariables (first :: others))].
    unfold main, tryCatch, checkEnvVariables. rewrite Hmissing. auto.
Qed.

(** X12: with both variables set, [main] makes no trade call before a price
    is available: the first trade call of [main], when there is one, is the
    first line of the buy, and it comes right after the line "Price
    available", for a truthy price, and the timer of 30000 ms. *)
Theorem main_buys_after_the_price (env : Env) (fuel : nat) (tr : Trace) :
  filter (unset env) requiredEnvVars = [] ->
  exists waiting,
    Forall (fun e => isWaitEvent e = true) waiting /\
    calls isTradeCall waiting = 0%nat /\
    (main env fuel tr = (Running, tr ++ waiting)
     \/ exists outcome price source rest,
          Js.truthy price = true /\
          main env fuel tr
          = (outcome,
             tr ++ waiting ++ [Log INFO (PriceAvailable "" price source);
                               SetTimeout 30000;
                               Log INFO (StartingTransaction true "")] ++ rest)).
Proof.
  intros Hset. pose proof (main_unfold env fuel tr Hset) as Hmain.
  assert (quiet : forall d, Forall (fun e => isWaitEvent e = true) d ->
                            calls isTradeCall d = 0%nat).
  { intros d F. apply calls_none. eapply Forall_impl; [ | exact F ].
    intros e. destruct e as [[] [] | | | | | | | | | | | ]; cbn; congruence. }
  unfold bind at 1 in Hmain.
  destruct (waitForPriceAvailability_cases env "" fuel tr)
    as [(k & info & Hk & Hs & Ht & _ & Run) | (_ & Run)]; rewrite Run in Hmain.
  - destruct (waited_events env "" k tr) as (d & E & F & _).
    destruct (getTokenInfo_poll env "" (waited env "" k tr)) as (q & Eq & Fq & _).
    rewrite Eq, E in Hmain. cbn [snd] in Hmain.
    exists (d ++ q).
    assert (Fall : Forall (fun e => isWaitEvent e = true) (d ++ q)).
    { apply Forall_app. split; [ exact F | ].
      eapply Forall_impl; [ | exact Fq ]. apply price_query_is_wait. }
    split; [ exact Fall | ]. split; [ now apply quiet | ]. right.
    unfold bind at 1, sleep at 1, emit at 1 in Hmain. unfold bind at 1 in Hmain.
    match type of Hmain with
    | context [tradeTokenWithJupiter env "" _ true _ _ ?t] =>
        destruct (trade_starts env "" 6 true 5 3 t ltac:(lia)) as (result & rest & Hbuy)
    end.
    rewrite Hbuy in Hmain.
    match type of Hmain with
    | _ = _ ?t =>
        destruct (main_tail_extends env fuel result t) as (outcome & rest' & Htail)
    end.
    rewrite Htail in Hmain.
    exists outcome, (price info), (source info), (rest ++ rest').
    split; [ exact Ht | ].
    rewrite Hmain. repeat (rewrite <- app_assoc; cbn [app]). reflexivity.
  - destruct (waited_events env "" fuel tr) as (d & E & F & _).
    exists d. rewrite Hmain, E. auto.
Qed.

Lemma main_buys_after_the_price_witness :
  exists waiting,
    Forall (fun e => isWaitEvent e = true) waiting /\
    calls isTradeCall waiting = 0%nat /\
    (main Scene.blindAfterBuy 3 [] = (Running, [] ++ waiting)
     \/ exists outcome price source rest,
          Js.truthy price = true /\
          main Scene.blindAfterBuy 3 []
          = (outcome,
             [] ++ waiting ++ [Log INFO (PriceAvailable "" price source);
                               SetTimeout 30000;
                               Log INFO (StartingTransaction true "")] ++ rest)).
Proof.
  apply (main_buys_after_the_price Scene.blindAfterBuy 3 []).
  reflexivity.
Defined.

(** X13: [main] starts a sell only after its buy has succeeded and logged an
    initial price that is not null.  When the buy fails, or when the price
    request after the accepted bundle fails so that the initial price is
    null, [main] ends without a sell: what was bought is kept. *)
Theorem main_sells_only_after_a_priced_buy (env : Env) (fuel : nat) (tr : Trace) :
  exists outcome d,
    main env fuel tr = (outcome, tr ++ d) /\
    (calls isSellStart d = 0%nat
     \/ exists before initialPrice after,
          d = before ++ Log INFO (InitialPriceCaptured initialPrice) :: after /\
          Js.is_null initialPrice = false /\
          calls isSellStart before = 0%nat).
Proof.
  destruct (filter (unset env) requiredEnvVars) as [ | first others] eqn:Hmissing.
  2: { exists (Exited 1), [Log ERROR (MissingEnvironmentVariables (first :: others))].
       unfold main, tryCatch, checkEnvVariables. rewrite Hmissing. auto. }
  pose proof (main_unfold env fuel tr Hmissing) as Hmain.
  unfold bind at 1 in Hmain.
  destruct (waitForPriceAvailability_proceeds (fun e => isSellStart e = false) env "" fuel
              ltac:(intros e; destruct e as [[] [] | | | | | | | | | | | ];
                    cbn; congruence) tr) as (w & Ew & Fw & Rw).
  destruct (waitForPriceAvailability env fuel "" tr) as [[price | | | ] tr1];
    cbn [fst snd] in Ew, Rw; try contradiction; subst tr1.
  2: { exists Running, w. split; [ exact Hmain | left; now apply calls_none ]. }
  unfold bind at 1, sleep at 1, emit at 1 in Hmain. unfold bind at 1 in Hmain.
  set (t := (tr ++ w) ++ [SetTimeout 30000]) in Hmain.
  destruct (tradeTokenWithJupiter_ran env "" 6 true 5 3 t) as (result & tr2 & Run & HR).
  destruct (tradeTokenWithJupiter_returns (fun e => isSellStart e = false)
              env "" 6 true 5 3
              (attempt_settles (fun e => isSellStart e = false) env "" 6 true 5 eq_refl
                 ltac:(intros e; destruct e as [[] [] | | | | | | | | | | | ];
                       cbn; congruence))
              (fun _ _ => eq_refl) (fun _ => eq_refl) (fun _ => eq_refl) t)
    as (b & Eb & Fb & _).
  rewrite Run in Hmain, Eb. cbn [snd] in Eb. subst tr2.
  assert (Hquiet : calls isSellStart (w ++ [SetTimeout 30000] ++ b) = 0%nat).
  { apply calls_none. apply Forall_app. split; [ exact Fw | ].
    apply Forall_app. split; [ repeat constructor | exact Fb ]. }
  assert (Et : t ++ b = tr ++ w ++ [SetTimeout 30000] ++ b).
  { subst t. now rewrite <- !app_assoc. }
  destruct result as [ | initialPrice | ].
  - exists (Returned tt), (w ++ [SetTimeout 30000] ++ b).
    split; [ now rewrite Hmain, Et | now left ].
  - destruct (ran_captured _ _ _ _ _ _ _ HR initialPrice eq_refl) as (mid & Emid).
    apply app_inv_head in Emid. subst b.
    destruct (Js.is_null initialPrice) eqn:Hnull.
    + exists (Returned tt),
        ((w ++ [SetTimeout 30000] ++ mid ++ [Log INFO (InitialPriceCaptured initialPrice)])
           ++ [Log ERROR FailedToRetrieveInitialPrice]).
      split.
      * rewrite Hmain. unfold monitorAndSell. rewrite Hnull.
        unfold logTransaction, emit. now rewrite Et, <- !app_assoc.
      * left. rewrite calls_app, Hquiet. reflexivity.
    + destruct (main_tail_extends env fuel (TradeSuccess initialPrice)
                  (t ++ mid ++ [Log INFO (InitialPriceCaptured initialPrice)]))
        as (outcome & rest & Htail).
      exists outcome,
        ((w ++ [SetTimeout 30000] ++ mid)
           ++ Log INFO (InitialPriceCaptured initialPrice) :: rest).
      split.
      * rewrite Hmain, Htail, Et. now repeat (rewrite <- app_assoc; cbn [app]).
      * right. exists (w ++ [SetTimeout 30000] ++ mid), initialPrice, rest.
        repeat split; [ exact Hnull | ].
        rewrite !calls_app in Hquiet. rewrite !calls_app. lia.
  - exists (Returned tt), (w ++ [SetTimeout 30000] ++ b).
    split; [ now rewrite Hmain, Et | now left ].
Qed.

(** The two ways of X13 to end without a sell, and the way to a sell: a
    balance too small for the fees; a price request that fails once the
    bundle is accepted; a price that is captured and then met. *)
Example main_with_and_without_a_sell :
  (fst (main Scene.poor 3 []) = Returned tt /\
   calls isSendBundle (snd (main Scene.poor 3 [])) = 0%nat) /\
  (fst (main Scene.blindAfterBuy 3 []) = Returned tt /\
   calls isSendBundle (snd (main Scene.blindAfterBuy 3 [])) = 1%nat /\
   calls isSellStart (snd (main Scene.blindAfterBuy 3 [])) = 0%nat /\
   last (snd (main Scene.blindAfterBuy 3 [])) GetBalance
   = Log ERROR FailedToRetrieveInitialPrice).
Proof. vm_compute. repeat split. Qed.

(** ** The two variables *)

(** X14: [checkEnvVariables] returns, with nothing logged, exactly when
    [PRIVATE_KEY] and [API_KEY] are both set to a non-empty string: a
    variable set to the empty string counts as missing.  In every other
    case it exits with code 1 after one line, which lists the missing
    variables in the order of [requiredEnvVars]; it never throws. *)
Theorem checkEnvVariables_passes_iff (env : Env) (tr : Trace) :
  let given (varName : string) :=
    exists value, process_env env varName = Some value /\ value <> ""%string in
  (given "PRIVATE_KEY" /\ given "API_KEY" <-> checkEnvVariables env tr = (Returned tt, tr)) /\
  (checkEnvVariables env tr = (Returned tt, tr)
   \/ exists missingVars,
        checkEnvVariables env tr
        = (Exited 1, tr ++ [Log ERROR (MissingEnvironmentVariables missingVars)]) /\
        In missingVars [["PRIVATE_KEY"; "API_KEY"]; ["PRIVATE_KEY"]; ["API_KEY"]] /\
        forall varName, In varName missingVars <-> In varName requiredEnvVars /\
                                                   unset env varName = true).
Proof.
  intros given.
  assert (Hgiven : forall varName, given varName <-> unset env varName = false).
  { intros varName. unfold given, unset.
    destruct (process_env env varName) as [[ | c value] | ]; cbn; split.
    - intros (value & [= <-] & Hne). congruence.
    - discriminate.
    - reflexivity.
    - intros _. eexists. split; [ reflexivity | discriminate ].
    - intros (value & [=] & _).
    - discriminate. }
  rewrite !Hgiven.
  unfold checkEnvVariables. cbn [requiredEnvVars filter].
  destruct (unset env "PRIVATE_KEY") eqn:Hp, (unset env "API_KEY") eqn:Ha;
    cbn [List.length Nat.ltb Nat.leb];
    unfold bind, logTransaction, emit, process_exit, ret.
  - split; [ split; [ intros (? & ?); discriminate | discriminate ] | ].
    right. eexists. split; [ reflexivity | ]. split; [ cbn; auto | ].
    intros varName. unfold requiredEnvVars. cbn [In].
    intuition (subst; auto; congruence).
  - split; [ split; [ intros (? & ?); discriminate | discriminate ] | ].
    right. eexists. split; [ reflexivity | ]. split; [ cbn; auto | ].
    intros varName. unfold requiredEnvVars. cbn [In].
    intuition (subst; auto; congruence).
  - split; [ split; [ intros (? & ?); discriminate | discriminate ] | ].
    right. eexists. split; [ reflexivity | ]. split; [ cbn; auto | ].
    intros varName. unfold requiredEnvVars. cbn [In].
    intuition (subst; auto; congruence).
  - split; [ split; auto | now left ].
Qed.

(** An empty [API_KEY] is a missing one. *)
Example empty_variable_is_missing :
  let vars (varName : string) :=
    if String.eqb varName "PRIVATE_KEY" then Some "secret"
    else if String.eqb varName "API_KEY" then Some "" else None in
  checkEnvVariables (Sample.world (fun _ => Sample.priced "" 2) (fun _ => Fulfilled "uuid")
                                  1000000000 Sample.someTokens vars) []
  = (Exited 1, [Log ERROR (MissingEnvironmentVariables ["API_KEY"])]).
Proof. reflexivity. Qed.

(** ** The delay in doubles *)

Lemma backoff_is_the_double_witness :
  integerOf (Js.of_Z (2 ^ 3) * 1000)%float = Some (backoff 3).
Proof. apply (backoff_is_the_double 3). lia. Defined.

(** At 1015 retries the product of line 224 is no longer finite. *)
Example backoff_overflows :
  (Js.of_Z (2 ^ 1014) * 1000)%float <> infinity /\
  (Js.of_Z (2 ^ 1015) * 1000)%float = infinity.
Proof. split; [ vm_compute; discriminate | vm_compute; reflexivity ]. Qed.
